(** * autoimpute: predictive imputation, checked against its specification

    A shallow embedding of

    - [autoimpute/imputations/series/lrd.py]  (class [LRDImputer]), and
    - [autoimpute/imputations/dataframe/predictive_imputer.py]
      (class [PredictiveImputer]).

    Python objects are records, attributes that may be absent are [option]s,
    methods are computations in a state-and-exception monad in which a raised
    exception keeps the mutations done before it (Python does not roll
    back).  Calls into sklearn, pymc3, numpy and scipy are fields of a
    [Numerics] record; every such call is recorded in an event log, so that
    statements about the order of validation, fitting and sampling can be
    written down. *)

From Stdlib Require Import List String Bool Arith NArith ZArith QArith Lia.
Import ListNotations.
Local Open Scope string_scope.
Local Open Scope nat_scope.

(** ** Values, cells and series *)

(** A cell of a table: a float, a category label, or null ([None]). *)
Inductive value : Type :=
| Num (q : Q)
| Cat (s : string).

Definition cell : Type := option value.

Definition isnull (c : cell) : bool :=
  match c with None => true | Some _ => false end.

(** Row positions of the null cells of a series, [y[y.isnull()].index]
    (rows are addressed by position). *)
Fixpoint isnull_from (k : nat) (y : list cell) : list nat :=
  match y with
  | [] => []
  | c :: t => (if isnull c then [k] else []) ++ isnull_from (S k) t
  end.

Definition isnull_index (y : list cell) : list nat := isnull_from 0 y.

(** The inferred type of a series is numeric when no observed cell holds a
    category label. *)
Definition is_numeric (y : list cell) : bool :=
  forallb (fun c => match c with Some (Cat _) => false | _ => true end) y.

(** ** Exceptions *)

Inductive error : Type :=
| UnknownStrategy      (* ValueError: strategy not among the allowed ones *)
| StrategyTypeError    (* TypeError: strategy is not a str, list or dict  *)
| StrategyMismatch     (* strategy does not fit the type of the column    *)
| InvalidClassCount    (* binary strategy on a column without 2 classes   *)
| NotFittedError       (* sklearn.exceptions.NotFittedError               *)
| SchemaMismatch       (* ValueError: fit columns missing at transform    *)
| InvalidFillValue     (* ValueError: fill_value not mean or random       *)
| AllColumnsNull       (* ValueError: a column has no observed value      *)
| StrategyKeysMismatch (* ValueError: strategies do not line up with cols *)
| KeyError             (* a label is absent from an index                 *)
| LengthMismatch       (* assigned values do not match the indexer        *)
| AttributeError       (* an attribute read before it was ever set        *)
| CollaboratorError.   (* failure inside code outside these sources       *)

Inductive result (A : Type) : Type :=
| Ok (a : A)
| Raise (e : error).
Arguments Ok {A} a.
Arguments Raise {A} e.

(** ** Events of the outside world *)

Inductive event : Type :=
| EvLeastSquaresFit                 (* LinearRegression.fit              *)
| EvPosteriorSample                 (* pymc3.sample                      *)
| EvRandomDraw                      (* a draw from numpy or scipy        *)
| EvPrepFrame                       (* _prep_fit_dataframe               *)
| EvScalerFit                       (* _scaler_fit_transform             *)
| EvScalerTransform                 (* _scaler_transform                 *)
| EvSingleImputer                   (* SingleImputer.fit_transform       *)
| EvFitColumn (col strat : string)      (* a fit routine for a column    *)
| EvImputeColumn (col strat : string).  (* an impute routine for a column *)

(** ** The monad of methods *)

(** A method runs on an object of type [T], the state of the random number
    generator and the log of events so far. *)
Record Env (T : Type) : Type := mkEnv {
  obj : T;
  rng : N;
  log : list event
}.

Arguments mkEnv {T} obj rng log.
Arguments obj {T} e.
Arguments rng {T} e.
Arguments log {T} e.

Definition M (T A : Type) : Type := Env T -> result A * Env T.

Definition ret {T A} (a : A) : M T A := fun e => (Ok a, e).

Definition bind {T A B} (m : M T A) (k : A -> M T B) : M T B :=
  fun e =>
    match m e with
    | (Ok a, e') => k a e'
    | (Raise err, e') => (Raise err, e')
    end.

Definition raise {T A} (err : error) : M T A := fun e => (Raise err, e).

Definition self {T} : M T T := fun e => (Ok (obj e), e).

Definition set_self {T} (f : T -> T) : M T unit :=
  fun e => (Ok tt, mkEnv (f (obj e)) (rng e) (log e)).

Definition emit {T} (ev : event) : M T unit :=
  fun e => (Ok tt, mkEnv (obj e) (rng e) (log e ++ [ev])).

(** A random draw: reads the generator state and advances it. *)
Definition draw {T A} (f : N -> A) : M T A :=
  fun e => (Ok (f (rng e)), mkEnv (obj e) (N.succ (rng e)) (log e ++ [EvRandomDraw])).

Definition lift_option {T A} (err : error) (o : option A) : M T A :=
  match o with Some a => ret a | None => raise err end.

Declare Scope py_scope.
Delimit Scope py_scope with py.
Notation "x <- m ;; k" := (bind m (fun x => k))
  (at level 61, m at next level, right associativity) : py_scope.
Notation "' pat <- m ;; k" := (bind m (fun x => match x with pat => k end))
  (at level 61, pat pattern, m at next level, right associativity) : py_scope.
Notation "m ;; k" := (bind m (fun _ => k))
  (at level 61, right associativity) : py_scope.
Local Open Scope py_scope.

(** A list comprehension whose element expression has effects. *)
Fixpoint for_list {T A B} (f : A -> M T B) (l : list A) : M T (list B) :=
  match l with
  | [] => ret []
  | a :: t => b <- f a ;; bs <- for_list f t ;; ret (b :: bs)
  end.

(** The values of a comprehension all of whose elements are random draws. *)
Fixpoint draws {A B} (f : A -> N -> B) (l : list A) (seed : N) : list B :=
  match l with
  | [] => []
  | a :: t => f a seed :: draws f t (N.succ seed)
  end.

(** A [for] loop that carries a local variable. *)
Fixpoint for_each {T A X} (body : A -> X -> M T X) (l : list A) (x : X) : M T X :=
  match l with
  | [] => ret x
  | a :: t => x' <- body a x ;; for_each body t x'
  end.

(** Elements of a list at the given positions, as [.loc] selects rows by
    their index; [None] when a position is absent. *)
Fixpoint take_rows {A} (l : list A) (ix : list nat) : option (list A) :=
  match ix with
  | [] => Some []
  | i :: ix' =>
      match nth_error l i, take_rows l ix' with
      | Some r, Some rs => Some (r :: rs)
      | _, _ => None
      end
  end.

(** ** Dictionaries keyed by strings, in insertion order *)

Fixpoint dict_get {V} (d : list (string * V)) (k : string) : option V :=
  match d with
  | [] => None
  | (k', v) :: t => if String.eqb k' k then Some v else dict_get t k
  end.

(** [d[k] = v]: overwrite in place, or append a new key. *)
Fixpoint dict_set {V} (d : list (string * V)) (k : string) (v : V) : list (string * V) :=
  match d with
  | [] => [(k, v)]
  | (k', v') :: t =>
      if String.eqb k' k then (k', v) :: t else (k', v') :: dict_set t k v
  end.

Definition keys {V} (d : list (string * V)) : list string := map fst d.

Definition mem (k : string) (l : list string) : bool :=
  existsb (String.eqb k) l.

(** ** The names of the imputation methods *)

(** Modelled from the spec: the constants of [autoimpute.imputations.method_names],
    which is not among the sources; the strings are those of the class
    docstring, of the tests and of the specification's enumeration. *)
Module methods.
Definition DEFAULT := "default".
Definition LS := "least squares".
Definition BINARY_LOGISTIC := "binary logistic".
Definition MULTI_LOGISTIC := "multinomial logistic".
Definition STOCHASTIC := "stochastic".
Definition BAYESIAN_LS := "bayesian least squares".
Definition BAYESIAN_BINARY_LOGISTIC := "bayesian binary logistic".
Definition PMM := "pmm".
Definition LRD := "lrd".
Definition NONE := "none".
End methods.

(** Modelled from the spec: [_not_num_series] of [autoimpute.imputations.errors],
    which is not among the sources: a numeric-only strategy rejects a
    column that is not numeric. *)
Definition _not_num_series {T} (strategy : string) (y : list cell) : M T unit :=
  if is_numeric y then ret tt else raise StrategyMismatch.

(** Modelled from the spec: [_not_cat_series], the converse check for the
    strategies that only accept categorical columns. *)
Definition _not_cat_series {T} (strategy : string) (y : list cell) : M T unit :=
  if is_numeric y then raise StrategyMismatch else ret tt.

(** [check_is_fitted(self, attr)] of sklearn: the attribute must exist. *)
Definition check_is_fitted {T A} (attr : T -> option A) : M T A :=
  s <- self ;;
  match attr s with
  | Some a => ret a
  | None => raise NotFittedError
  end.

(** ** [LRDImputer] (series/lrd.py) *)

Module LRDImputer.

(** A predictor matrix: named columns and float rows. *)
Record Predictors : Type := mkPredictors {
  columns : list string;
  rows : list (list Q)
}.

(** Prior mean of the betas: a float given by the caller, or the
    coefficient vector of the regression. *)
Inductive beta_mean : Type :=
| BmScalar (q : Q)
| BmVector (v : list Q).

(** [sklearn.linear_model.LinearRegression]: its keyword arguments and,
    once fit, [intercept_] and [coef_]. *)
Record LinearRegression : Type := mkLinearRegression {
  kwargs : list (string * string);
  intercept_ : option Q;
  coef_ : option (list Q)
}.

(** [DataFrame({"y": y, "y_pred": y_pred})]. *)
Record YObs : Type := mkYObs {
  y_obs : list cell;
  y_obs_pred : list Q
}.

(** The pymc3 model built by [fit]: priors and observed data. *)
Record Model : Type := mkModel {
  alpha_mean : Q;  alpha_sd : Q;
  beta_means : beta_mean;  beta_sd : Q;  beta_shape : nat;
  sigma_beta : Q;
  design : list (list Q);
  observed : list cell
}.

(** The posterior draws of [pm.sample]: [tr["alpha"]] and [tr["beta"]]. *)
Record Trace : Type := mkTrace {
  tr_alpha : list Q;
  tr_beta : list (list Q)
}.

Record Params : Type := mkParams {
  p_model : Model;
  p_y_obs : YObs
}.

Record Statistics : Type := mkStatistics {
  param : Params;
  st_strategy : string
}.

(** The function handed to [_local_residuals]: [np.mean], or
    [np.random.choice] at a state of the generator. *)
Inductive aggregate : Type :=
| np_mean
| np_random_choice (state : N).

(** What the class calls outside these sources. *)
Record Numerics : Type := mkNumerics {
  (* LinearRegression(kwargs).fit(X, y): intercept_ and coef_ *)
  lstsq : list (string * string) -> Predictors -> list cell -> Q * list Q;
  (* pm.sample(sample, tune, init) inside the model *)
  pm_sample : Model -> nat -> nat -> string -> N -> Trace;
  (* np.random.choice(tr["alpha"]) *)
  random_choice : list Q -> N -> Q;
  (* multivariate_normal(tr["beta"].mean(0), np.cov(tr["beta"].T)).rvs() *)
  beta_rvs : list (list Q) -> N -> list Q;
  (* helpers._local_residuals(x, n, df, func) *)
  _local_residuals : Q -> nat -> YObs -> aggregate -> Q
}.

Record t : Type := mk {
  am : option Q;
  asd : Q;
  bm : option beta_mean;
  bsd : Q;
  sig : Q;
  sample : nat;
  tune : nat;
  init : string;
  fill_value : string;
  neighbors : nat;
  lm : LinearRegression;
  statistics_ : option Statistics;
  trace_ : option Trace;
  y_pred : option (list Q);
  alphas : option Q;
  betas : option (list Q)
}.

(** The class variable. *)
Definition strategy : string := methods.LRD.

(** [__init__]: the arguments are stored as they are. *)
Definition __init__ (am : option Q) (asd : Q) (bm : option beta_mean)
    (bsd sig : Q) (sample tune : nat) (init fill_value : string)
    (neighbors : nat) (kwargs : list (string * string)) : t :=
  mk am asd bm bsd sig sample tune init fill_value neighbors
     (mkLinearRegression kwargs None None) None None None None None.

Definition with_lm (l : LinearRegression) (s : t) : t :=
  mk (am s) (asd s) (bm s) (bsd s) (sig s) (sample s) (tune s) (init s)
     (fill_value s) (neighbors s) l (statistics_ s) (trace_ s)
     (y_pred s) (alphas s) (betas s).

Definition with_am (a : option Q) (s : t) : t :=
  mk a (asd s) (bm s) (bsd s) (sig s) (sample s) (tune s) (init s)
     (fill_value s) (neighbors s) (lm s) (statistics_ s) (trace_ s)
     (y_pred s) (alphas s) (betas s).

Definition with_bm (b : option beta_mean) (s : t) : t :=
  mk (am s) (asd s) b (bsd s) (sig s) (sample s) (tune s) (init s)
     (fill_value s) (neighbors s) (lm s) (statistics_ s) (trace_ s)
     (y_pred s) (alphas s) (betas s).

Definition with_statistics_ (st : option Statistics) (s : t) : t :=
  mk (am s) (asd s) (bm s) (bsd s) (sig s) (sample s) (tune s) (init s)
     (fill_value s) (neighbors s) (lm s) st (trace_ s)
     (y_pred s) (alphas s) (betas s).

Definition with_trace_ (tr : option Trace) (s : t) : t :=
  mk (am s) (asd s) (bm s) (bsd s) (sig s) (sample s) (tune s) (init s)
     (fill_value s) (neighbors s) (lm s) (statistics_ s) tr
     (y_pred s) (alphas s) (betas s).

Definition with_last (yp : list Q) (a : Q) (b : list Q) (s : t) : t :=
  mk (am s) (asd s) (bm s) (bsd s) (sig s) (sample s) (tune s) (init s)
     (fill_value s) (neighbors s) (lm s) (statistics_ s) (trace_ s)
     (Some yp) (Some a) (Some b).

Definition dot (b x : list Q) : Q :=
  fold_right Qplus 0%Q (map (fun p => (fst p * snd p)%Q) (combine b x)).

(** [alpha + beta.dot(X.T)], one value per row of [X] (the source unwraps
    the result when [X] has a single column, to the same effect). *)
Definition linear (alpha : Q) (beta : list Q) (X : Predictors) : list Q :=
  map (fun x => (alpha + dot beta x)%Q) (rows X).

Section Methods.
Variable np : Numerics.

(** [self.lm.fit(X, y)] *)
Definition lm_fit (X : Predictors) (y : list cell) : M t (Q * list Q) :=
  s <- self ;;
  emit EvLeastSquaresFit ;;
  let ic := lstsq np (kwargs (lm s)) X y in
  set_self (with_lm (mkLinearRegression (kwargs (lm s)) (Some (fst ic)) (Some (snd ic)))) ;;
  ret ic.

(** [fit(self, X, y)], lines 89-128. *)
Definition fit (X : Predictors) (y : list cell) : M t unit :=
  _not_num_series strategy y ;;
  let nc := List.length (columns X) in
  ic <- lm_fit X y ;;
  let y_pred := linear (fst ic) (snd ic) X in
  let y_df := mkYObs y y_pred in
  s <- self ;;
  a <- match am s with
       | None => set_self (with_am (Some (fst ic))) ;; ret (fst ic)
       | Some a => ret a
       end ;;
  b <- match bm s with
       | None => set_self (with_bm (Some (BmVector (snd ic)))) ;; ret (BmVector (snd ic))
       | Some b => ret b
       end ;;
  s <- self ;;
  let fit_model := mkModel a (asd s) b (bsd s) nc (sig s) (rows X) y in
  let params := mkParams fit_model y_df in
  set_self (with_statistics_ (Some (mkStatistics params strategy))).

(** [impute(self, X)], lines 130-191. *)
Definition impute (X : Predictors) : M t (list Q) :=
  st <- check_is_fitted statistics_ ;;
  let model := p_model (param st) in
  let df := p_y_obs (param st) in
  s <- self ;;
  emit EvPosteriorSample ;;
  tr <- draw (pm_sample np model (sample s) (tune s) (init s)) ;;
  set_self (with_trace_ (Some tr)) ;;
  alpha_bayes <- draw (random_choice np (tr_alpha tr)) ;;
  beta_bayes <- draw (beta_rvs np (tr_beta tr)) ;;
  let y_pred_bayes := linear alpha_bayes beta_bayes X in
  let n_ := neighbors s in
  imp <- (if String.eqb (fill_value s) "mean" then
            ret (map (fun x => _local_residuals np x n_ df np_mean) y_pred_bayes)
          else if String.eqb (fill_value s) "random" then
            for_list (fun x => draw (fun choice =>
                        _local_residuals np x n_ df (np_random_choice choice)))
                     y_pred_bayes
          else raise InvalidFillValue) ;;
  set_self (with_last y_pred_bayes alpha_bayes beta_bayes) ;;
  ret imp.

(** Rows of [X] at the given positions, [X.loc[ix]]; an absent position is
    a [KeyError]. *)
Definition loc (X : Predictors) (ix : list nat) : option Predictors :=
  option_map (mkPredictors (columns X)) (take_rows (rows X) ix).

(** [fit_impute(self, X, y)], lines 193-205. *)
Definition fit_impute (X : Predictors) (y : list cell) : M t (list Q) :=
  let miss_y_ix := isnull_index y in
  fit X y ;;
  X_mis <- lift_option KeyError (loc X miss_y_ix) ;;
  impute X_mis.

End Methods.

(** A small deterministic instance of the collaborators, for running the
    methods on concrete data: the intercept is the sum of the observed
    responses and every coefficient is zero, the chain holds the prior
    means, draws pick the first element, and the local residuals return
    the prediction they are given. *)
Definition observed_sum (y : list cell) : Q :=
  fold_right (fun c acc => match c with Some (Num q) => (q + acc)%Q | _ => acc end) 0%Q y.

Definition plain : Numerics :=
  mkNumerics
    (fun _ X y => (observed_sum y, map (fun _ => 0%Q) (columns X)))
    (fun m _ _ _ _ =>
       mkTrace [alpha_mean m]
               [match beta_means m with
                | BmScalar q => repeat q (beta_shape m)
                | BmVector v => v
                end])
    (fun l _ => hd 0%Q l)
    (fun b _ => hd [] b)
    (fun x _ _ _ => x).

End LRDImputer.

(** ** [PredictiveImputer] (dataframe/predictive_imputer.py) *)

Module PredictiveImputer.

(** A table: named columns in order, each a list of cells. *)
Definition DataFrame : Type := list (string * list cell).

(** A series carries its name. *)
Definition Series : Type := (string * list cell)%type.

(** A prepared predictor matrix, row by row. *)
Definition Matrix : Type := list (list cell).

Definition columns (X : DataFrame) : list string := map fst X.

Definition shape (X : DataFrame) : list nat := map (fun c => List.length (snd c)) X.

(** [X[col_name]] *)
Definition getitem {T} (X : DataFrame) (col_name : string) : M T Series :=
  match dict_get X col_name with
  | Some y => ret (col_name, y)
  | None => raise KeyError
  end.

(** Assignment of one cell of a series by position. *)
Fixpoint set_at (i : nat) (v : cell) (y : list cell) : list cell :=
  match y, i with
  | [], _ => []
  | _ :: t, O => v :: t
  | c :: t, S j => c :: set_at j v t
  end.

Fixpoint assign (y : list cell) (ix : list nat) (vals : list value) : list cell :=
  match ix, vals with
  | i :: ix', v :: vals' => assign (set_at i (Some v) y) ix' vals'
  | _, _ => y
  end.

Fixpoint set_column (X : DataFrame) (col_name : string) (y : list cell) : DataFrame :=
  match X with
  | [] => []
  | (k, y') :: t =>
      if String.eqb k col_name then (k, y) :: t else (k, y') :: set_column t col_name y
  end.

(** [X.loc[imp_ix, col_name] = vals]: as many values as positions. *)
Definition loc_setitem {T} (X : DataFrame) (col_name : string) (imp_ix : list nat)
    (vals : list value) : M T DataFrame :=
  match dict_get X col_name with
  | None => raise KeyError
  | Some y =>
      if List.length imp_ix =? List.length vals
      then ret (set_column X col_name (assign y imp_ix vals))
      else raise LengthMismatch
  end.

(** The [strategy] argument: a string, a list or tuple, a dict, or a value
    of another type. *)
Inductive strategy_arg : Type :=
| StratStr (s : string)
| StratList (l : list string)
| StratDict (d : list (string * string))
| StratOther.

Inductive predictors_arg : Type :=
| PredStr (s : string)
| PredList (l : list string)
| PredDict (d : list (string * list string)).

Definition Preds : Type := list (string * list string).

(** Printing under [verbose] is left out, and rows are addressed by
    position, so that re-labelling a prepared matrix with the index of the
    frame ([x.index = self._X_idx]) changes nothing.

    What the class calls outside these sources: [BaseImputer], the
    estimators behind [predictive_methods] and [SingleImputer].  Fitted
    parameters, traces, scalers and prepared data are opaque to the
    orchestrator. *)
Record Collaborators : Type := mkCollaborators {
  Param : Type;
  Trace : Type;
  Scaler : Type;
  Prepared : Type;
  (* BaseImputer.check_predictors_fit(predictors, cols) *)
  check_predictors_fit : predictors_arg -> list string -> option Preds;
  (* BaseImputer._prep_fit_dataframe(X): type split and encoding *)
  prep_fit_dataframe : DataFrame -> Prepared;
  (* BaseImputer._scaler_fit_transform() *)
  scaler_fit_transform : Scaler -> Prepared -> Scaler * Prepared;
  (* BaseImputer._scaler_transform() *)
  scaler_transform : Scaler -> Prepared -> Prepared;
  (* BaseImputer._prep_predictor_cols(col_name, preds) *)
  prep_predictor_cols : Prepared -> string -> Preds -> Matrix;
  (* SingleImputer(copy=False).fit_transform(x) *)
  single_imputer : Matrix -> Matrix;
  (* the estimator fit inside a fit routine of predictive_methods *)
  estimate : string -> Matrix -> Series -> N -> Param;
  (* the predictions computed inside an impute routine *)
  predict : string -> Param -> Matrix -> option string -> N -> list value * Trace
}.

Section Class.
Variable C : Collaborators.

Record FitData : Type := mkFitData {
  fd_param : Param C;
  fd_strategy : string
}.

Record t : Type := mk {
  _strategy : strategy_arg;
  predictors : predictors_arg;
  fill_value : option string;
  copy : bool;
  scaler : option (Scaler C);
  verbose : bool;
  _strats : option (list (string * string));
  _preds : option Preds;
  _data : option (Prepared C);
  statistics_ : option (list (string * FitData));
  imputed_ : option (list (string * list nat));
  traces_ : option (list (string * Trace C))
}.

Definition with__strats (v : list (string * string)) (s : t) : t :=
  mk (_strategy s) (predictors s) (fill_value s) (copy s) (scaler s) (verbose s)
     (Some v) (_preds s) (_data s) (statistics_ s) (imputed_ s) (traces_ s).

Definition with__preds (v : Preds) (s : t) : t :=
  mk (_strategy s) (predictors s) (fill_value s) (copy s) (scaler s) (verbose s)
     (_strats s) (Some v) (_data s) (statistics_ s) (imputed_ s) (traces_ s).

Definition with__data (v : Prepared C) (s : t) : t :=
  mk (_strategy s) (predictors s) (fill_value s) (copy s) (scaler s) (verbose s)
     (_strats s) (_preds s) (Some v) (statistics_ s) (imputed_ s) (traces_ s).

Definition with_scaler (v : Scaler C) (s : t) : t :=
  mk (_strategy s) (predictors s) (fill_value s) (copy s) (Some v) (verbose s)
     (_strats s) (_preds s) (_data s) (statistics_ s) (imputed_ s) (traces_ s).

Definition with_statistics_ (v : list (string * FitData)) (s : t) : t :=
  mk (_strategy s) (predictors s) (fill_value s) (copy s) (scaler s) (verbose s)
     (_strats s) (_preds s) (_data s) (Some v) (imputed_ s) (traces_ s).

Definition with_imputed_ (v : list (string * list nat)) (s : t) : t :=
  mk (_strategy s) (predictors s) (fill_value s) (copy s) (scaler s) (verbose s)
     (_strats s) (_preds s) (_data s) (statistics_ s) (Some v) (traces_ s).

Definition with_traces_ (v : list (string * Trace C)) (s : t) : t :=
  mk (_strategy s) (predictors s) (fill_value s) (copy s) (scaler s) (verbose s)
     (_strats s) (_preds s) (_data s) (statistics_ s) (imputed_ s) (Some v).

(** Reading an attribute that is set by an earlier method. *)
Definition attr {A} (f : t -> option A) : M t A :=
  s <- self ;; lift_option AttributeError (f s).

(** *** Collaborators of the class, modelled *)

(** Modelled from the spec: the decorator [check_nan_columns] of
    [autoimpute.utils], which is not among the sources: a column with no
    observed value is refused with [AllColumnsNull]. *)
Definition check_nan_columns (X : DataFrame) : M t unit :=
  if existsb (fun c => forallb isnull (snd c)) X
  then raise AllColumnsNull else ret tt.

(** Modelled from the spec: [BaseImputer.check_strategy_allowed], which is
    not among the sources: every identifier must be among the allowed
    names, else [UnknownStrategy] (a ValueError); a strategy that is not a
    string, a list or a dict is a TypeError. *)
Definition check_strategy_allowed (strat_names : list string) (s : strategy_arg)
    : result strategy_arg :=
  match s with
  | StratStr n =>
      if mem n strat_names then Ok s else Raise UnknownStrategy
  | StratList l =>
      if forallb (fun n => mem n strat_names) l then Ok s else Raise UnknownStrategy
  | StratDict d =>
      if forallb (fun kv => mem (snd kv) strat_names) d then Ok s else Raise UnknownStrategy
  | StratOther => Raise StrategyTypeError
  end.

Definition dict_of {V} (l : list (string * V)) : list (string * V) :=
  fold_left (fun d kv => dict_set d (fst kv) (snd kv)) l [].

(** Modelled from the spec: [BaseImputer.check_strategy_fit], which is not
    among the sources, after the docstring of [__init__]: a string is
    broadcast to every column, a list gives one strategy per column, a dict
    names the columns to impute. *)
Definition check_strategy_fit (s : strategy_arg) (cols : list string)
    : M t (list (string * string)) :=
  match s with
  | StratStr n => ret (dict_of (map (fun c => (c, n)) cols))
  | StratList l =>
      if List.length l =? List.length cols
      then ret (dict_of (combine cols l))
      else raise StrategyKeysMismatch
  | StratDict d =>
      if forallb (fun k => mem k cols) (keys d)
      then ret (dict_of d)
      else raise StrategyKeysMismatch
  | StratOther => raise StrategyTypeError
  end.

(** Modelled from the spec: the columns that the column preparer learned
    at fit time and requires afterwards: every column that was given
    predictors, and these predictors. *)
Definition required_columns (preds : Preds) : list string :=
  flat_map (fun entry => fst entry :: snd entry) preds.

(** Modelled from the spec: [BaseImputer._prep_fit_dataframe(X)], which is
    not among the sources: the preparer works with the column set learned
    at fit time and fails with [SchemaMismatch] if a required column is
    absent from the frame; the type split and the encoding are a
    collaborator's, and the prepared data are kept on the object. *)
Definition _prep_fit_dataframe (X : DataFrame) : M t unit :=
  preds <- attr _preds ;;
  if forallb (fun c => mem c (columns X)) (required_columns preds)
  then emit EvPrepFrame ;; set_self (with__data (prep_fit_dataframe C X))
  else raise SchemaMismatch.

(** Modelled from the spec: [BaseImputer._scaler_fit_transform()], which is
    not among the sources: the scaler is fit on the prepared data and
    applied to them. *)
Definition _scaler_fit_transform (sc : Scaler C) : M t unit :=
  d <- attr _data ;;
  emit EvScalerFit ;;
  let r := scaler_fit_transform C sc d in
  set_self (with_scaler (fst r)) ;;
  set_self (with__data (snd r)).

(** Modelled from the spec: [BaseImputer._scaler_transform()], which is not
    among the sources: the fitted scaler is applied to the prepared data. *)
Definition _scaler_transform (sc : Scaler C) : M t unit :=
  d <- attr _data ;;
  emit EvScalerTransform ;;
  set_self (with__data (scaler_transform C sc d)).

(** Modelled from the spec: [BaseImputer._prep_predictor_cols(col_name,
    self._preds)], which is not among the sources: the predictors of a
    column are taken from the prepared data, which hold every required
    column once [_prep_fit_dataframe] has returned. *)
Definition _prep_predictor_cols (col_name : string) : M t Matrix :=
  d <- attr _data ;;
  preds <- attr _preds ;;
  ret (prep_predictor_cols C d col_name preds).

(** Number of classes observed in a series. *)
Definition labels (y : list cell) : list string :=
  flat_map (fun c => match c with Some (Cat s) => [s] | _ => [] end) y.

Definition nclasses (y : list cell) : nat :=
  List.length (nodup string_dec (labels y)).

(** Modelled from the spec: the fit routines of
    [autoimpute.imputations.dataframe.predictive_methods], which is not
    among the sources.  A numeric-only routine rejects a categorical
    response, as [LRDImputer.fit] does in its first statement, and the
    converse; the binary routine wants exactly two observed classes; each
    returns the fitted parameters and the name of the strategy. *)
Definition fit_numeric (name : string) (x : Matrix) (y : Series) (verbose : bool)
    : M t (Param C * string) :=
  _not_num_series name (snd y) ;;
  emit (EvFitColumn (fst y) name) ;;
  p <- draw (estimate C name x y) ;;
  ret (p, name).

(** Modelled from the spec: the routines for categorical responses; the
    binary ones fail with [InvalidClassCount] unless two classes are
    observed. *)
Definition fit_categorical (name : string) (binary : bool) (x : Matrix) (y : Series)
    (verbose : bool) : M t (Param C * string) :=
  _not_cat_series name (snd y) ;;
  if binary && negb (nclasses (snd y) =? 2) then raise InvalidClassCount else
  emit (EvFitColumn (fst y) name) ;;
  p <- draw (estimate C name x y) ;;
  ret (p, name).

(** Modelled from the spec: the routines named in the class attribute
    [strategies], by the kind of response they accept. *)
Definition _fit_least_squares_reg := fit_numeric methods.LS.
Definition _fit_stochastic_reg := fit_numeric methods.STOCHASTIC.
Definition _fit_bayes_least_squares_reg := fit_numeric methods.BAYESIAN_LS.
Definition _fit_pmm_reg := fit_numeric methods.PMM.
Definition _fit_binary_logistic_reg := fit_categorical methods.BINARY_LOGISTIC true.
Definition _fit_multi_logistic_reg := fit_categorical methods.MULTI_LOGISTIC false.
Definition _fit_bayes_binary_logistic_reg :=
  fit_categorical methods.BAYESIAN_BINARY_LOGISTIC true.

(** Modelled from the spec: the default routine; the tests of the
    repository find least squares on numeric columns and binary logistic
    on a two-class column. *)
Definition _predictive_default (x : Matrix) (y : Series) (verbose : bool)
    : M t (Param C * string) :=
  if is_numeric (snd y) then _fit_least_squares_reg x y verbose
  else if nclasses (snd y) =? 2 then _fit_binary_logistic_reg x y verbose
  else _fit_multi_logistic_reg x y verbose.

(** Modelled from the spec: the impute routines of [predictive_methods]:
    the values returned by the model are spliced into the null positions
    of the column. *)
Definition pm_impute (name : string) (X : DataFrame) (col_name : string)
    (x : Matrix) (fill : Param C) (imp_ix : list nat) (fv : option string)
    : M t (DataFrame * Trace C) :=
  emit (EvImputeColumn col_name name) ;;
  r <- draw (predict C name fill x fv) ;;
  X' <- loc_setitem X col_name imp_ix (fst r) ;;
  ret (X', snd r).

(** Modelled from the spec: the impute routines called by [transform]; the
    Bayesian ones and PMM also return their trace. *)
Definition _imp_least_squares_reg X col_name x fill imp_ix : M t DataFrame :=
  r <- pm_impute methods.LS X col_name x fill imp_ix None ;; ret (fst r).
Definition _imp_logistic_reg X col_name x fill imp_ix : M t DataFrame :=
  r <- pm_impute methods.BINARY_LOGISTIC X col_name x fill imp_ix None ;; ret (fst r).
Definition _imp_stochastic_reg X col_name x fill imp_ix : M t DataFrame :=
  r <- pm_impute methods.STOCHASTIC X col_name x fill imp_ix None ;; ret (fst r).
Definition _imp_bayes_least_squares_reg X col_name x fill imp_ix fv (verbose : bool) :=
  pm_impute methods.BAYESIAN_LS X col_name x fill imp_ix fv.
Definition _imp_bayes_logistic_reg X col_name x fill imp_ix fv (verbose : bool) :=
  pm_impute methods.BAYESIAN_BINARY_LOGISTIC X col_name x fill imp_ix fv.
Definition _imp_pmm_reg X col_name x fill imp_ix fv (verbose : bool) :=
  pm_impute methods.PMM X col_name x fill imp_ix fv.

(** *** The class, from the source *)

(** The class attribute [strategies], lines 60-69. *)
Definition strategies : list (string * (Matrix -> Series -> bool -> M t (Param C * string))) :=
  [ (methods.DEFAULT, _predictive_default);
    (methods.LS, _fit_least_squares_reg);
    (methods.BINARY_LOGISTIC, _fit_binary_logistic_reg);
    (methods.MULTI_LOGISTIC, _fit_multi_logistic_reg);
    (methods.STOCHASTIC, _fit_stochastic_reg);
    (methods.BAYESIAN_LS, _fit_bayes_least_squares_reg);
    (methods.BAYESIAN_BINARY_LOGISTIC, _fit_bayes_binary_logistic_reg);
    (methods.PMM, _fit_pmm_reg) ].

(** The setter of the property [strategy], lines 121-138. *)
Definition strategy_setter (s : strategy_arg) : result strategy_arg :=
  let strat_names := keys strategies in
  check_strategy_allowed strat_names s.

(** [__init__], lines 71-114. *)
Definition __init__ (strategy : strategy_arg) (predictors : predictors_arg)
    (fill_value : option string) (copy : bool) (scaler : option (Scaler C))
    (verbose : bool) : result t :=
  match strategy_setter strategy with
  | Raise err => Raise err
  | Ok s =>
      Ok (mk s predictors fill_value copy scaler verbose None None None None None None)
  end.

(** [_fit_strategy_validator(X)], lines 140-159. *)
Definition _fit_strategy_validator (X : DataFrame) : M t unit :=
  let cols := columns X in
  s <- self ;;
  strats <- check_strategy_fit (_strategy s) cols ;;
  set_self (with__strats strats) ;;
  preds <- lift_option CollaboratorError (check_predictors_fit C (predictors s) cols) ;;
  set_self (with__preds preds) ;;
  _prep_fit_dataframe X ;;
  match scaler s with
  | Some sc => _scaler_fit_transform sc
  | None => ret tt
  end.

(** [_transform_strategy_validator(X, new_data)], lines 161-180. *)
Definition _transform_strategy_validator (X : DataFrame) (new_data : bool) : M t unit :=
  _ <- check_is_fitted statistics_ ;;
  let X_cols := columns X in
  strats <- attr _strats ;;
  let fit_cols := keys strats in
  let diff_fit := filter (fun c => negb (mem c X_cols)) fit_cols in
  match diff_fit with
  | _ :: _ => raise SchemaMismatch
  | [] =>
      if new_data then
        _prep_fit_dataframe X ;;
        s <- self ;;
        match scaler s with
        | Some sc => _scaler_transform sc
        | None => ret tt
        end
      else ret tt
  end.

(** One turn of the loop of [fit], lines 208-215. *)
Definition fit_column (X : DataFrame) (entry : string * string) (_ : unit) : M t unit :=
  let (col_name, func_name) := entry in
  f <- lift_option KeyError (dict_get strategies func_name) ;;
  x <- _prep_predictor_cols col_name ;;
  y <- getitem X col_name ;;
  s <- self ;;
  r <- f x y (verbose s) ;;
  stats <- attr statistics_ ;;
  set_self (with_statistics_ (dict_set stats col_name (mkFitData (fst r) (snd r)))).

(** [fit(X)], lines 182-222, under its decorator. *)
Definition fit (X : DataFrame) : M t unit :=
  check_nan_columns X ;;
  _fit_strategy_validator X ;;
  set_self (with_statistics_ []) ;;
  strats <- attr _strats ;;
  for_each (fit_column X) strats tt.

Definition when {A} (b : bool) (m : M t A) (dflt : A) : M t A :=
  if b then m else ret dflt.

(** One turn of the loop of [transform], lines 253-312. *)
Definition transform_column (new_data : bool) (entry : string * FitData)
    (X : DataFrame) : M t DataFrame :=
  let (col_name, fit_data) := entry in
  let strat := fd_strategy fit_data in
  let fill := fd_param fit_data in
  y <- getitem X col_name ;;
  let imp_ix := isnull_index (snd y) in
  imputed <- attr imputed_ ;;
  set_self (with_imputed_ (dict_set imputed col_name imp_ix)) ;;
  match imp_ix with
  | [] => ret X
  | _ :: _ =>
      x <- _prep_predictor_cols col_name ;;
      x <- lift_option KeyError (take_rows x imp_ix) ;;
      x <- (if existsb (existsb isnull) x
            then emit EvSingleImputer ;; ret (single_imputer C x)
            else ret x) ;;
      s <- self ;;
      X <- when (String.eqb strat methods.LS)
             (_imp_least_squares_reg X col_name x fill imp_ix) X ;;
      X <- when (String.eqb strat methods.BINARY_LOGISTIC
                 || String.eqb strat methods.MULTI_LOGISTIC)
             (_imp_logistic_reg X col_name x fill imp_ix) X ;;
      X <- when (String.eqb strat methods.STOCHASTIC)
             (_imp_stochastic_reg X col_name x fill imp_ix) X ;;
      X <- when (String.eqb strat methods.BAYESIAN_LS)
             (r <- _imp_bayes_least_squares_reg X col_name x fill imp_ix
                    (fill_value s) (verbose s) ;;
              traces <- attr traces_ ;;
              set_self (with_traces_ (dict_set traces col_name (snd r))) ;;
              ret (fst r)) X ;;
      X <- when (String.eqb strat methods.BAYESIAN_BINARY_LOGISTIC)
             (r <- _imp_bayes_logistic_reg X col_name x fill imp_ix
                    (fill_value s) (verbose s) ;;
              traces <- attr traces_ ;;
              set_self (with_traces_ (dict_set traces col_name (snd r))) ;;
              ret (fst r)) X ;;
      X <- when (String.eqb strat methods.PMM)
             (r <- _imp_pmm_reg X col_name x fill imp_ix
                    (fill_value s) (verbose s) ;;
              traces <- attr traces_ ;;
              set_self (with_traces_ (dict_set traces col_name (snd r))) ;;
              ret (fst r)) X ;;
      X <- when (String.eqb strat methods.NONE) (ret X) X ;;
      ret X
  end.

(** [transform(X, new_data)], lines 224-313, under its decorator.  The
    method works on its own value of the frame whether [copy] is set or
    not; what is returned is the same in both cases. *)
Definition transform (X : DataFrame) (new_data : bool) : M t DataFrame :=
  check_nan_columns X ;;
  _transform_strategy_validator X new_data ;;
  set_self (with_imputed_ []) ;;
  set_self (with_traces_ []) ;;
  stats <- attr statistics_ ;;
  for_each (transform_column new_data) stats X.

(** [fit_transform(X)], lines 315-317. *)
Definition fit_transform (X : DataFrame) : M t DataFrame :=
  fit X ;; transform X false.

End Class.

Arguments fd_param {C} _.
Arguments fd_strategy {C} _.
Arguments _strategy {C} _.
Arguments predictors {C} _.
Arguments fill_value {C} _.
Arguments copy {C} _.
Arguments scaler {C} _.
Arguments verbose {C} _.
Arguments _strats {C} _.
Arguments _preds {C} _.
Arguments _data {C} _.
Arguments statistics_ {C} _.
Arguments imputed_ {C} _.
Arguments traces_ {C} _.

(** A small deterministic instance of the collaborators, for running the
    methods on concrete tables: every column is predicted from all the
    other columns, frames are prepared as they are, the fitted parameter of
    a column is its first observed value, and that value is predicted for
    every row. *)
Definition others (cols : list string) : Preds :=
  map (fun c => (c, filter (fun c' => negb (String.eqb c' c)) cols)) cols.

Definition gather (X : DataFrame) (names : list string) : list (list cell) :=
  flat_map (fun n => match dict_get X n with Some y => [y] | None => [] end) names.

Definition row_of (cols : list (list cell)) (i : nat) : list cell :=
  map (fun y => nth i y None) cols.

Definition plain_predictor_cols (X : DataFrame) (col_name : string) (preds : Preds)
    : Matrix :=
  let names := match dict_get preds col_name with Some l => l | None => [] end in
  let y := match dict_get X col_name with Some y => y | None => [] end in
  map (row_of (gather X names)) (seq 0 (List.length y)).

Definition first_observed (y : list cell) : value :=
  hd (Num 0) (flat_map (fun c => match c with Some v => [v] | None => [] end) y).

Definition plain : Collaborators :=
  @mkCollaborators value unit unit DataFrame
    (fun _ cols => Some (others cols))
    (fun X => X)
    (fun sc d => (sc, d))
    (fun _ d => d)
    plain_predictor_cols
    (map (map (fun c => match c with None => Some (Num 0) | Some v => Some v end)))
    (fun _ _ y _ => first_observed (snd y))
    (fun _ p x _ _ => (map (fun _ => p) x, tt)).

End PredictiveImputer.

(** ** Concrete data for running the methods *)

Module Data.

Definition n (z : Z) : cell := Some (Num (inject_Z z)).
Definition c (s : string) : cell := Some (Cat s).

(** The table of the specification's scenario: [A] has a null at position
    2 and [B] is complete. *)
Definition df_num : PredictiveImputer.DataFrame :=
  [ ("A", [n 1; n 2; None; n 4]); ("B", [n 10; n 20; n 30; n 40]) ].

Definition df_complete : PredictiveImputer.DataFrame :=
  [ ("A", [n 1; n 2; n 3; n 4]); ("B", [n 10; n 20; n 30; n 40]) ].

Definition df_A : PredictiveImputer.DataFrame :=
  [ ("A", [n 1; n 2; n 3; n 4]) ].

Definition df_mix : PredictiveImputer.DataFrame :=
  [ ("gender", [c "m"; c "f"; None; c "f"]); ("age", [n 30; n 40; n 50; None]) ].

Definition df_abc : PredictiveImputer.DataFrame :=
  [ ("A", [n 1; n 2; n 3; n 4]); ("B", [n 10; n 20; n 30; n 40]);
    ("C", [n 5; n 6; n 7; n 8]) ].

(** The observed rows of [df_num], its row to impute, and other data. *)
Definition X_obs : LRDImputer.Predictors :=
  LRDImputer.mkPredictors ["B"] [ [inject_Z 10]; [inject_Z 20]; [inject_Z 40] ].

Definition y_obs : list cell := [n 1; n 2; n 4].

Definition X_mis : LRDImputer.Predictors :=
  LRDImputer.mkPredictors ["B"] [ [inject_Z 30] ].

Definition X_obs' : LRDImputer.Predictors :=
  LRDImputer.mkPredictors ["B"] [ [inject_Z 5]; [inject_Z 6] ].

Definition y_obs' : list cell := [n 50; n 60].

Definition y_gender : list cell := [c "m"; c "f"; c "f"].

(** [LRDImputer(fill_value=fv)] with the other arguments at their defaults. *)
Definition lrd (fv : string) : LRDImputer.t :=
  LRDImputer.__init__ None (inject_Z 10) None (inject_Z 10) (inject_Z 1)
    1000 1000 "auto" fv 5 [].

Definition fresh {T} (s : T) : Env T := mkEnv s 0%N [].

(** [PredictiveImputer(strategy=...)] over the plain collaborators. *)
Definition new (strategy : PredictiveImputer.strategy_arg)
    : result (PredictiveImputer.t PredictiveImputer.plain) :=
  PredictiveImputer.__init__ PredictiveImputer.plain strategy
    (PredictiveImputer.PredStr "all") None true None false.

(** [PredictiveImputer()] *)
Definition blank : PredictiveImputer.t PredictiveImputer.plain :=
  PredictiveImputer.mk PredictiveImputer.plain (PredictiveImputer.StratStr "default")
    (PredictiveImputer.PredStr "all") None true None false None None None None None None.

Definition instance (strategy : PredictiveImputer.strategy_arg)
    : PredictiveImputer.t PredictiveImputer.plain :=
  match new strategy with Ok s => s | Raise _ => blank end.

End Data.

(** ** Vocabulary of the statements *)

(** A Hoare triple for a method: from an environment satisfying [Pre], the
    method either returns with [Post] or raises with [Exc]. *)
Definition triple {T A} (Pre : Env T -> Prop) (m : M T A)
    (Post : A -> Env T -> Prop) (Exc : error -> Env T -> Prop) : Prop :=
  forall e, Pre e ->
    match m e with
    | (Ok a, e') => Post a e'
    | (Raise err, e') => Exc err e'
    end.

(** Events that the loop of [transform] may cause. *)
Definition calm_event (ev : event) : Prop :=
  match ev with
  | EvRandomDraw | EvSingleImputer | EvImputeColumn _ _ => True
  | _ => False
  end.

(** [e] continues [e0] with events of the loop of [transform] only. *)
Definition calm {T} (e0 e : Env T) : Prop :=
  exists l, log e = (log e0 ++ l)%list /\ Forall calm_event l.

(** A method that causes only such events, and raises only errors in [E]. *)
Definition stays_calm {T A} (E : error -> Prop) (m : M T A) : Prop :=
  forall e0, triple (calm e0) m (fun _ => calm e0) (fun err e => E err /\ calm e0 e).

(** Exceptions of the loop of [transform]. *)
Definition loop_error (err : error) : Prop :=
  err = KeyError \/ err = AttributeError \/ err = LengthMismatch.

(** A column after imputation at the positions [ix]: the same length, and
    the same cells away from [ix]. *)
Definition agree_off (ix : list nat) (y y' : list cell) : Prop :=
  List.length y' = List.length y /\
  forall j, ~ In j ix -> nth_error y' j = nth_error y j.

(** A column before and after a turn of the loop of [transform] for the
    column [c], whose cells are [y] with nulls at [ix]. *)
Definition col_rel (c : string) (y : list cell) (ix : list nat)
    (p p' : string * list cell) : Prop :=
  fst p' = fst p /\
  (snd p' = snd p \/ fst p = c /\ snd p = y /\ agree_off ix y (snd p')).

(** A column before and after [transform], [K] being the fitted columns. *)
Definition kept (K : list string) (p p' : string * list cell) : Prop :=
  fst p' = fst p /\
  List.length (snd p') = List.length (snd p) /\
  (forall i v, nth_error (snd p) i = Some (Some v) -> nth_error (snd p') i = Some (Some v)) /\
  (~ In (fst p) K -> snd p' = snd p).

(** The column [c] of [X] holds no null. *)
Definition complete (X : PredictiveImputer.DataFrame) (c : string) : Prop :=
  forall y, dict_get X c = Some y -> isnull_index y = [].

(** The strategies for which [transform] has an impute routine. *)
Definition dispatched : list string :=
  [ methods.LS; methods.BINARY_LOGISTIC; methods.MULTI_LOGISTIC; methods.STOCHASTIC;
    methods.BAYESIAN_LS; methods.BAYESIAN_BINARY_LOGISTIC; methods.PMM ].

(** The enumeration of strategy identifiers in the specification. *)
Definition enumerated : list string :=
  [ "default"; "least squares"; "binary logistic"; "multinomial logistic";
    "stochastic"; "bayesian least squares"; "bayesian binary logistic";
    "pmm"; "lrd"; "none" ].

(** [X2] is [X1] with the cells of column [c] at [ix] assigned. *)
Definition spliced (c : string) (ix : list nat) (X1 X2 : PredictiveImputer.DataFrame) : Prop :=
  exists y1 vals,
    dict_get X1 c = Some y1 /\ List.length ix = List.length vals /\
    X2 = PredictiveImputer.set_column X1 c (PredictiveImputer.assign y1 ix vals).

(** The effect of one [if strat == ...] of the loop of [transform]. *)
Definition link_ok (c : string) (ix : list nat) (b : bool)
    (X1 X2 : PredictiveImputer.DataFrame) : Prop :=
  b = false /\ X2 = X1 \/ b = true /\ spliced c ix X1 X2.

(** Every position of [ix] holds a value in column [c] of [X]. *)
Definition filled_at (c : string) (ix : list nat) (X : PredictiveImputer.DataFrame) : Prop :=
  forall y, dict_get X c = Some y -> forall j, In j ix -> exists v, nth_error y j = Some (Some v).

(** The keys of the class attribute [strategies]. *)
Definition supported : list string :=
  [ "default"; "least squares"; "binary logistic"; "multinomial logistic";
    "stochastic"; "bayesian least squares"; "bayesian binary logistic"; "pmm" ].

(** The strategies that only accept a numeric column. *)
Definition numeric_only : list string :=
  [ methods.LS; methods.STOCHASTIC; methods.BAYESIAN_LS; methods.PMM ].

(** Events of re-encoding and scaling. *)
Definition prep_event (ev : event) : Prop :=
  ev = EvPrepFrame \/ ev = EvScalerFit \/ ev = EvScalerTransform.

(** ** Vocabulary of the further statements *)

(** A method that keeps [P] on the environment, whether it returns or
    raises, and raises only errors in [E]. *)
Definition hoare {T A} (P : Env T -> Prop) (E : error -> Prop) (m : M T A) : Prop :=
  triple P m (fun _ => P) (fun err e => E err /\ P e).

(** What [fit] decides and [transform] only reads. *)
Record Fitted (C : PredictiveImputer.Collaborators) : Type := mkFitted {
  ft_strategy : PredictiveImputer.strategy_arg;
  ft_predictors : PredictiveImputer.predictors_arg;
  ft_fill_value : option string;
  ft_copy : bool;
  ft_verbose : bool;
  ft_strats : option (list (string * string));
  ft_preds : option PredictiveImputer.Preds;
  ft_statistics : option (list (string * PredictiveImputer.FitData C))
}.

Definition fitted_part {C} (s : PredictiveImputer.t C) : Fitted C :=
  mkFitted C (PredictiveImputer._strategy s) (PredictiveImputer.predictors s)
    (PredictiveImputer.fill_value s) (PredictiveImputer.copy s)
    (PredictiveImputer.verbose s) (PredictiveImputer._strats s)
    (PredictiveImputer._preds s) (PredictiveImputer.statistics_ s).

(** The strategies whose impute routine returns a trace. *)
Definition traced : list string :=
  [ methods.BAYESIAN_LS; methods.BAYESIAN_BINARY_LOGISTIC; methods.PMM ].

(** What [LRDImputer.impute] only reads: the arguments of the constructor,
    the regression and the statistics. *)
Definition lrd_fitted_part (s : LRDImputer.t) :=
  (LRDImputer.am s, LRDImputer.asd s, LRDImputer.bm s, LRDImputer.bsd s,
   LRDImputer.sig s, LRDImputer.sample s, LRDImputer.tune s, LRDImputer.init s,
   LRDImputer.fill_value s, LRDImputer.neighbors s, LRDImputer.lm s,
   LRDImputer.statistics_ s).

(** ** Missing-data patterns (utils/patterns.py) *)

Module patterns.

(** A two-dimensional array, row by row. *)
Definition ndarray (A : Type) : Type := list (list A).

(** [pd.isnull(data)] *)
Definition pd_isnull (data : ndarray cell) : ndarray bool := map (map isnull) data.

(** [int_ln = lambda arr: np.logical_not(arr)*1], on an array of booleans
    and on an array of integers. *)
Definition int_ln_bool (arr : ndarray bool) : ndarray nat :=
  map (map (fun b : bool => if b then 0 else 1)) arr.

Definition int_ln (arr : ndarray nat) : ndarray nat :=
  map (map (fun x => if x =? 0 then 1 else 0)) arr.

Definition column (j : nat) (m : ndarray nat) : list nat :=
  map (fun row => nth j row 0) m.

(** [m.T] for an array of [p] columns (an array keeps its number of
    columns when it has no row). *)
Definition transpose (p : nat) (m : ndarray nat) : ndarray nat :=
  map (fun j => column j m) (seq 0 p).

Definition dot (a b : list nat) : nat :=
  fold_right Nat.add 0 (map (fun ab => fst ab * snd ab) (combine a b)).

(** [np.matmul(a, b)] for [b] of [q] columns. *)
Definition matmul (q : nat) (a b : ndarray nat) : ndarray nat :=
  map (fun row => map (fun j => dot row (column j b)) (seq 0 q)) a.

(** [m[i][j]] *)
Definition entry (m : ndarray nat) (i j : nat) : nat := nth j (nth i m []) 0.

(** The dictionary returned by [md_pairs]. *)
Record Pairs : Type := mkPairs {
  rr : ndarray nat;
  rm : ndarray nat;
  mr : ndarray nat;
  mm : ndarray nat
}.

(** [md_pairs(data, cols)], lines 9-29, on the array and the column names
    that [_cols_decider] hands over; the matrices are returned as they
    are, without the labels that [_cols_output] puts on them. *)
Definition md_pairs (cols : list string) (data : ndarray cell) : Pairs :=
  let p := List.length cols in
  let r := int_ln_bool (pd_isnull data) in
  let rr := matmul p (transpose p r) r in
  let mm := matmul p (transpose p (int_ln r)) (int_ln r) in
  let mr := matmul p (transpose p (int_ln r)) r in
  let rm := matmul p (transpose p r) (int_ln r) in
  mkPairs rr rm mr mm.

(** Element-wise sum of two arrays. *)
Definition add (a b : ndarray nat) : ndarray nat :=
  map (fun ab => map (fun xy => fst xy + snd xy) (combine (fst ab) (snd ab))) (combine a b).

(** [np.nansum(m, axis=1)] on an array of counts. *)
Definition nansum1 (m : ndarray nat) : list nat := map (fold_right Nat.add 0) m.

(** An element-wise quotient [num/denom] of arrays of counts, which numpy
    computes in floating point: kept as its two operands. *)
Record Quotient (A : Type) : Type := mkQuotient {
  num : A;
  denom : A
}.
Arguments mkQuotient {A} num denom.
Arguments num {A} q.
Arguments denom {A} q.

(** [_inbound(pairs)], lines 55-57. *)
Definition _inbound (pairs : Pairs) : Quotient (ndarray nat) :=
  mkQuotient (mr pairs) (add (mr pairs) (mm pairs)).

(** [_outbound(pairs)], lines 59-61. *)
Definition _outbound (pairs : Pairs) : Quotient (ndarray nat) :=
  mkQuotient (rm pairs) (add (rm pairs) (rr pairs)).

(** [_influx(pairs)], lines 63-67. *)
Definition _influx (pairs : Pairs) : Quotient (list nat) :=
  mkQuotient (nansum1 (mr pairs)) (nansum1 (add (mr pairs) (rr pairs))).

(** [_outflux(pairs)], lines 69-73. *)
Definition _outflux (pairs : Pairs) : Quotient (list nat) :=
  mkQuotient (nansum1 (rm pairs)) (nansum1 (add (rm pairs) (mm pairs))).

(** Whether the cell of column [j] is observed, or missing, in a row. *)
Definition obs (j : nat) (row : list cell) : nat :=
  match nth_error row j with Some (Some _) => 1 | _ => 0 end.

Definition mis (j : nat) (row : list cell) : nat :=
  match nth_error row j with Some None => 1 | _ => 0 end.

(** The number of rows, each weighted by [h]. *)
Definition count (h : list cell -> nat) (data : ndarray cell) : nat :=
  fold_right (fun row acc => h row + acc) 0 data.

End patterns.

(** ** Further data for running the methods *)

Module Tables.

(** Collaborators whose models predict nothing, whatever the rows. *)
Definition mute : PredictiveImputer.Collaborators :=
  @PredictiveImputer.mkCollaborators value unit unit PredictiveImputer.DataFrame
    (fun _ cols => Some (PredictiveImputer.others cols))
    (fun X => X)
    (fun sc d => (sc, d))
    (fun _ d => d)
    PredictiveImputer.plain_predictor_cols
    (fun x => x)
    (fun _ _ y _ => PredictiveImputer.first_observed (snd y))
    (fun _ _ _ _ _ => ([], tt)).

Definition new_mute (strategy : PredictiveImputer.strategy_arg)
    : PredictiveImputer.t mute :=
  match PredictiveImputer.__init__ mute strategy (PredictiveImputer.PredStr "all")
          None true None false with
  | Ok s => s
  | Raise _ =>
      PredictiveImputer.mk mute (PredictiveImputer.StratStr "default")
        (PredictiveImputer.PredStr "all") None true None false
        None None None None None None
  end.

(** [LRDImputer(am=5, bm=7, fill_value="random")] *)
Definition lrd_given : LRDImputer.t :=
  LRDImputer.__init__ (Some (inject_Z 5)) (inject_Z 10)
    (Some (LRDImputer.BmScalar (inject_Z 7))) (inject_Z 10) (inject_Z 1)
    1000 1000 "auto" "random" 5 [].

(** The rows of [Data.df_num], and an array whose second column is
    entirely missing. *)
Definition rows_num : patterns.ndarray cell :=
  [ [Data.n 1; Data.n 10]; [Data.n 2; Data.n 20]; [None; Data.n 30]; [Data.n 4; Data.n 40] ].

(** A frame whose column [A] is complete and whose column [B] holds no
    value. *)
Definition df_void : PredictiveImputer.DataFrame :=
  [ ("A", [Data.n 1; Data.n 2; Data.n 3; Data.n 4]); ("B", [None; None; None; None]) ].

Definition rows_gap : patterns.ndarray cell :=
  [ [Data.n 1; None]; [None; None]; [Data.n 3; None] ].

End Tables.

(** * Properties *)

(** ** The monad and the loops *)

Lemma for_list_draws {T A B} (f : A -> N -> B) (l : list A) (e : Env T) :
  for_list (fun x => draw (f x)) l e =
  (Ok (draws f l (rng e)),
   mkEnv (obj e) (rng e + N.of_nat (List.length l))%N
         (log e ++ repeat EvRandomDraw (List.length l))).
Proof.
  revert e. induction l as [|a l IH]; intros [s r lg]; cbn [for_list draws List.length repeat].
  - unfold ret. cbn. now rewrite N.add_0_r, app_nil_r.
  - unfold bind at 1. unfold draw at 1. cbn [obj rng log].
    unfold bind at 1. rewrite IH. cbn [obj rng log]. unfold ret.
    f_equal. f_equal.
    + lia.
    + now rewrite <- app_assoc.
Qed.

Lemma draws_length {A B} (f : A -> N -> B) (l : list A) (seed : N) :
  List.length (draws f l seed) = List.length l.
Proof.
  revert seed. induction l as [|a l IH]; intros seed; cbn; [reflexivity|]. now rewrite IH.
Qed.

(** ** [LRDImputer] *)

Section LRD_facts.
Import LRDImputer.
Variable np : Numerics.

Ltac run := unfold bind, ret, raise, self, set_self, emit, lift_option; cbn.

(** What a call of [fit] on a numeric response leaves behind. *)
Lemma lrd_fit_numeric (X : Predictors) (y : list cell) (e : Env t) :
  is_numeric y = true ->
  let ic := lstsq np (kwargs (lm (obj e))) X y in
  let a := match am (obj e) with Some a => a | None => fst ic end in
  let b := match bm (obj e) with Some b => b | None => BmVector (snd ic) end in
  exists s',
    fit np X y e = (Ok tt, mkEnv s' (rng e) (log e ++ [EvLeastSquaresFit])) /\
    am s' = Some a /\ bm s' = Some b /\
    lm s' = mkLinearRegression (kwargs (lm (obj e))) (Some (fst ic)) (Some (snd ic)) /\
    (exists st, statistics_ s' = Some st /\
                alpha_mean (p_model (param st)) = a /\
                beta_means (p_model (param st)) = b /\
                st_strategy st = strategy) /\
    fill_value s' = fill_value (obj e).
Proof.
  intros Hnum ic a b. destruct e as [s r l]. destruct s as [oa ? ob].
  unfold fit, lm_fit, _not_num_series. rewrite Hnum. run.
  subst a b ic. cbn.
  destruct oa, ob; run; eexists; repeat split; eexists; repeat split.
Qed.

Lemma lrd_fit_categorical (X : Predictors) (y : list cell) (e : Env t) :
  is_numeric y = false -> fit np X y e = (Raise StrategyMismatch, e).
Proof.
  intros Hcat. unfold fit, _not_num_series. rewrite Hcat. reflexivity.
Qed.

Lemma lrd_impute_unfitted (X : Predictors) (e : Env t) :
  statistics_ (obj e) = None -> impute np X e = (Raise NotFittedError, e).
Proof.
  intros Hnone. unfold impute, check_is_fitted. run. rewrite Hnone. reflexivity.
Qed.

(** What a call of [impute] does on a fitted imputer, by [fill_value]. *)
Lemma lrd_impute_fitted (X : Predictors) (e : Env t) (st : Statistics) :
  statistics_ (obj e) = Some st ->
  let s := obj e in
  let tr := pm_sample np (p_model (param st)) (sample s) (tune s) (init s) (rng e) in
  let alpha := random_choice np (tr_alpha tr) (N.succ (rng e)) in
  let beta := beta_rvs np (tr_beta tr) (N.succ (N.succ (rng e))) in
  let ypb := linear alpha beta X in
  let lg := (log e ++ [EvPosteriorSample; EvRandomDraw; EvRandomDraw; EvRandomDraw])%list in
  let seed := N.succ (N.succ (N.succ (rng e))) in
  impute np X e =
    if String.eqb (fill_value s) "mean" then
      (Ok (map (fun x => _local_residuals np x (neighbors s) (p_y_obs (param st)) np_mean) ypb),
       mkEnv (with_last ypb alpha beta (with_trace_ (Some tr) s)) seed lg)
    else if String.eqb (fill_value s) "random" then
      (Ok (draws (fun x choice => _local_residuals np x (neighbors s) (p_y_obs (param st))
                                    (np_random_choice choice)) ypb seed),
       mkEnv (with_last ypb alpha beta (with_trace_ (Some tr) s))
             (seed + N.of_nat (List.length ypb))%N
             (lg ++ repeat EvRandomDraw (List.length ypb)))
    else (Raise InvalidFillValue, mkEnv (with_trace_ (Some tr) s) seed lg).
Proof.
  intros Hst. destruct e as [s r l]. cbn in Hst. cbn [obj rng log].
  unfold impute, check_is_fitted. run. rewrite Hst. run.
  destruct (String.eqb (fill_value s) "mean").
  - run. repeat rewrite <- app_assoc. reflexivity.
  - destruct (String.eqb (fill_value s) "random").
    + rewrite for_list_draws. cbn. repeat rewrite <- app_assoc. reflexivity.
    + repeat rewrite <- app_assoc. reflexivity.
Qed.

(** C7: on a fitted imputer, [impute] raises [InvalidFillValue] exactly
    when [fill_value] is neither "mean" nor "random"; with "mean" every row
    to impute gets its local residuals aggregated by the mean over its
    nearest neighbours, with "random" by a random pick among them, and the
    call returns these values. *)
Theorem lrd_impute_fill_value_policy (X : Predictors) (e : Env t) (st : Statistics) :
  statistics_ (obj e) = Some st ->
  (fst (impute np X e) = Raise InvalidFillValue <->
     fill_value (obj e) <> "mean" /\ fill_value (obj e) <> "random") /\
  (fill_value (obj e) = "mean" ->
     exists ypb,
       fst (impute np X e) =
         Ok (map (fun x => _local_residuals np x (neighbors (obj e)) (p_y_obs (param st))
                             np_mean) ypb) /\
       y_pred (obj (snd (impute np X e))) = Some ypb /\
       List.length ypb = List.length (rows X)) /\
  (fill_value (obj e) = "random" ->
     exists ypb seed,
       fst (impute np X e) =
         Ok (draws (fun x choice => _local_residuals np x (neighbors (obj e))
                                      (p_y_obs (param st)) (np_random_choice choice))
                   ypb seed) /\
       y_pred (obj (snd (impute np X e))) = Some ypb /\
       List.length ypb = List.length (rows X)).
Proof.
  intros Hst. rewrite (lrd_impute_fitted X e st Hst). split; [|split].
  - destruct (String.eqb_spec (fill_value (obj e)) "mean") as [Hm|Hm].
    + cbn. split; [discriminate | intros [H _]; contradiction].
    + destruct (String.eqb_spec (fill_value (obj e)) "random") as [Hr|Hr].
      * cbn. split; [discriminate | intros [_ H]; contradiction].
      * cbn. split; [intros _; split; assumption | reflexivity].
  - intros Hf. rewrite Hf. cbn. eexists. split; [reflexivity|]. split; [reflexivity|].
    unfold linear; apply length_map.
  - intros Hf. rewrite Hf. cbn. do 2 eexists. split; [reflexivity|]. split; [reflexivity|].
    unfold linear; apply length_map.
Qed.

(** C4, amended: in [LRDImputer] the type check of [fit] and the fitted
    check of [impute] are raised before any least-squares fit or posterior
    sampling, with nothing changed; [InvalidFillValue] is raised by
    [impute] after the posterior sampling, and in [fit_impute] after the
    least-squares fit and the posterior sampling. *)
Theorem lrd_validation_order (X : Predictors) (y : list cell) (e : Env t) :
  (is_numeric y = false -> fit np X y e = (Raise StrategyMismatch, e)) /\
  (statistics_ (obj e) = None -> impute np X e = (Raise NotFittedError, e)) /\
  (fill_value (obj e) <> "mean" -> fill_value (obj e) <> "random" ->
   (forall st, statistics_ (obj e) = Some st ->
      fst (impute np X e) = Raise InvalidFillValue /\
      log (snd (impute np X e)) =
        (log e ++ [EvPosteriorSample; EvRandomDraw; EvRandomDraw; EvRandomDraw])%list) /\
   (forall X_mis, is_numeric y = true -> loc X (isnull_index y) = Some X_mis ->
      fst (fit_impute np X y e) = Raise InvalidFillValue /\
      log (snd (fit_impute np X y e)) =
        (log e ++ [EvLeastSquaresFit; EvPosteriorSample;
                   EvRandomDraw; EvRandomDraw; EvRandomDraw])%list)).
Proof.
  split; [apply lrd_fit_categorical|]. split; [apply lrd_impute_unfitted|].
  intros Hm Hr.
  assert (Him : forall X0 e0 st, statistics_ (obj e0) = Some st ->
            fill_value (obj e0) = fill_value (obj e) ->
            fst (impute np X0 e0) = Raise InvalidFillValue /\
            log (snd (impute np X0 e0)) =
              (log e0 ++ [EvPosteriorSample; EvRandomDraw; EvRandomDraw; EvRandomDraw])%list).
  { intros X0 e0 st Hst Hfv. rewrite (lrd_impute_fitted X0 e0 st Hst), Hfv.
    destruct (String.eqb_spec (fill_value (obj e)) "mean"); [contradiction|].
    destruct (String.eqb_spec (fill_value (obj e)) "random"); [contradiction|].
    split; reflexivity. }
  split.
  - intros st Hst. apply (Him X e st Hst eq_refl).
  - intros X_mis Hnum Hloc.
    destruct (lrd_fit_numeric X y e Hnum) as (s' & Hfit & _ & _ & _ & (st & Hst & _) & Hfv).
    unfold fit_impute, bind. rewrite Hfit, Hloc. cbn [lift_option ret].
    destruct (Him X_mis (mkEnv s' (rng e) (log e ++ [EvLeastSquaresFit])) st Hst Hfv)
      as [H1 H2].
    split; [exact H1|]. rewrite H2. cbn [log]. now rewrite <- app_assoc.
Qed.

(** C10: a [fit] on a numeric response overwrites an [am] (or [bm]) left as
    [None] with the intercept (or the coefficients) of that call's
    least-squares fit, so that the fields are set afterwards; a later [fit]
    on other data fits the regression anew but keeps these first estimates
    as the prior means of its model. *)
Theorem lrd_fit_keeps_first_prior_means (X X' : Predictors) (y y' : list cell) (e : Env t) :
  is_numeric y = true -> is_numeric y' = true ->
  let ic := lstsq np (kwargs (lm (obj e))) X y in
  let ic' := lstsq np (kwargs (lm (obj e))) X' y' in
  exists e1 e2 st2,
    fit np X y e = (Ok tt, e1) /\ fit np X' y' e1 = (Ok tt, e2) /\
    am (obj e1) <> None /\ bm (obj e1) <> None /\
    lm (obj e2) = mkLinearRegression (kwargs (lm (obj e))) (Some (fst ic')) (Some (snd ic')) /\
    statistics_ (obj e2) = Some st2 /\
    (am (obj e) = None ->
       am (obj e1) = Some (fst ic) /\ am (obj e2) = Some (fst ic) /\
       alpha_mean (p_model (param st2)) = fst ic) /\
    (bm (obj e) = None ->
       bm (obj e1) = Some (BmVector (snd ic)) /\ bm (obj e2) = Some (BmVector (snd ic)) /\
       beta_means (p_model (param st2)) = BmVector (snd ic)).
Proof.
  intros Hy Hy' ic ic'.
  destruct (lrd_fit_numeric X y e Hy) as (s1 & Hf1 & Ha1 & Hb1 & Hlm1 & _ & _).
  destruct (lrd_fit_numeric X' y' (mkEnv s1 (rng e) (log e ++ [EvLeastSquaresFit])) Hy')
    as (s2 & Hf2 & Ha2 & Hb2 & Hlm2 & (st2 & Hst2 & Hal2 & Hbe2 & _) & _).
  cbn [obj rng log] in *. rewrite Ha1 in Ha2, Hal2. rewrite Hb1 in Hb2, Hbe2.
  rewrite Hlm1 in Hlm2. cbn [kwargs] in Hlm2.
  do 3 eexists. split; [exact Hf1|]. split; [exact Hf2|]. cbn [obj].
  split; [rewrite Ha1; discriminate|]. split; [rewrite Hb1; discriminate|].
  split; [exact Hlm2|]. split; [exact Hst2|]. split.
  - intros Hnone. rewrite Hnone in *. repeat split; assumption.
  - intros Hnone. rewrite Hnone in *. repeat split; assumption.
Qed.

End LRD_facts.

Section LRD_runs.
Import LRDImputer.

(** C4, as stated, fails: with [fill_value="median"], [fit] on observed
    rows and then [impute] raise the error only after the least-squares
    fit and the posterior sampling have run. *)
Lemma lrd_fill_value_error_after_sampling :
  let e0 := Data.fresh (Data.lrd "median") in
  let e1 := snd (fit plain Data.X_obs Data.y_obs e0) in
  let r := impute plain Data.X_mis e1 in
  fst (fit plain Data.X_obs Data.y_obs e0) = Ok tt /\
  fst r = Raise InvalidFillValue /\
  log (snd r) =
    [EvLeastSquaresFit; EvPosteriorSample; EvRandomDraw; EvRandomDraw; EvRandomDraw].
Proof. cbv zeta. repeat split; vm_compute; reflexivity. Qed.

(** The same on the data of [Data]. *)
Lemma lrd_validation_order_witness :
  let e := Data.fresh (Data.lrd "nearest") in
  fit plain Data.X_obs Data.y_gender e = (Raise StrategyMismatch, e) /\
  impute plain Data.X_mis e = (Raise NotFittedError, e) /\
  fst (fit_impute plain Data.X_obs Data.y_obs e) = Raise InvalidFillValue.
Proof.
  cbv zeta.
  destruct (lrd_validation_order plain Data.X_obs Data.y_gender
              (Data.fresh (Data.lrd "nearest"))) as [H1 _].
  destruct (lrd_validation_order plain Data.X_mis Data.y_obs
              (Data.fresh (Data.lrd "nearest"))) as [_ [H2 _]].
  destruct (lrd_validation_order plain Data.X_obs Data.y_obs
              (Data.fresh (Data.lrd "nearest"))) as [_ [_ H3]].
  split; [apply H1; reflexivity|]. split; [apply H2; reflexivity|].
  assert (Hm : fill_value (obj (Data.fresh (Data.lrd "nearest"))) <> "mean") by discriminate.
  assert (Hr : fill_value (obj (Data.fresh (Data.lrd "nearest"))) <> "random") by discriminate.
  destruct (H3 Hm Hr) as [_ H4].
  apply (H4 (mkPredictors ["B"] [])); reflexivity.
Defined.

(** The same on the data of [Data]. *)
Lemma lrd_impute_fill_value_policy_witness :
  let e := snd (fit plain Data.X_obs Data.y_obs (Data.fresh (Data.lrd "mean"))) in
  exists st, statistics_ (obj e) = Some st /\
    ~ (fill_value (obj e) <> "mean" /\ fill_value (obj e) <> "random") /\
    fst (impute plain Data.X_mis e) <> Raise InvalidFillValue.
Proof.
  cbv zeta. eexists. split; [reflexivity|]. split.
  - intros [H _]. apply H. reflexivity.
  - intros H.
    apply (proj1 (proj1 (lrd_impute_fill_value_policy plain Data.X_mis
             (snd (fit plain Data.X_obs Data.y_obs (Data.fresh (Data.lrd "mean"))))
             _ eq_refl))) in H.
    destruct H as [H _]. apply H. reflexivity.
Defined.

(** The same on the data of [Data]. *)
Lemma lrd_fit_keeps_first_prior_means_witness :
  let e1 := snd (fit plain Data.X_obs Data.y_obs (Data.fresh (Data.lrd "random"))) in
  let e2 := snd (fit plain Data.X_obs' Data.y_obs' e1) in
  am (obj e2) = Some (fst (lstsq plain [] Data.X_obs Data.y_obs)) /\
  intercept_ (lm (obj e2)) = Some (fst (lstsq plain [] Data.X_obs' Data.y_obs')) /\
  ~ Qeq (fst (lstsq plain [] Data.X_obs Data.y_obs))
        (fst (lstsq plain [] Data.X_obs' Data.y_obs')).
Proof.
  cbv zeta.
  destruct (lrd_fit_keeps_first_prior_means plain Data.X_obs Data.X_obs'
              Data.y_obs Data.y_obs'
              (Data.fresh (Data.lrd "random")) eq_refl eq_refl)
    as (e1 & e2 & st2 & H1 & H2 & _ & _ & Hlm & _ & Ha & _).
  rewrite H1. cbn [snd]. rewrite H2. cbn [snd].
  destruct (Ha eq_refl) as (_ & Ha2 & _).
  split; [exact Ha2|]. split; [rewrite Hlm; reflexivity|].
  intros H. vm_compute in H. discriminate H.
Defined.

End LRD_runs.

(** ** Series and frames *)

Section Frame_facts.
Import PredictiveImputer.

Lemma isnull_from_In (y : list cell) (k j : nat) :
  In j (isnull_from k y) <-> k <= j /\ nth_error y (j - k) = Some None.
Proof.
  revert k. induction y as [|c y IH]; intros k; cbn [isnull_from].
  - split; [intros []|]. intros [_ H]. destruct (j - k); discriminate.
  - rewrite in_app_iff, IH. split.
    + intros [H|[Hle H]].
      * destruct c as [v|]; cbn in H; [contradiction|].
        destruct H as [<-|[]]. rewrite Nat.sub_diag. split; [lia|reflexivity].
      * split; [lia|]. replace (j - k) with (S (j - S k)) by lia. exact H.
    + intros [Hle H]. destruct (j - k) as [|n] eqn:E.
      * left. cbn in H. injection H as ->. cbn. left. lia.
      * right. split; [lia|]. cbn in H. replace (j - S k) with n by lia. exact H.
Qed.

Lemma isnull_index_In (y : list cell) (j : nat) :
  In j (isnull_index y) <-> nth_error y j = Some None.
Proof.
  unfold isnull_index. rewrite isnull_from_In, Nat.sub_0_r.
  split; [intros [_ H]; exact H | intros H; split; [lia | exact H]].
Qed.

Lemma isnull_index_nil (y : list cell) :
  isnull_index y = [] <-> forall j, nth_error y j <> Some None.
Proof.
  split.
  - intros H j Hj. apply isnull_index_In in Hj. rewrite H in Hj. contradiction.
  - intros H. destruct (isnull_index y) as [|j l] eqn:E; [reflexivity|].
    exfalso. apply (H j). apply isnull_index_In. rewrite E. now left.
Qed.

Lemma set_at_length (i : nat) (v : cell) (y : list cell) :
  List.length (set_at i v y) = List.length y.
Proof.
  revert i. induction y as [|c y IH]; intros [|i]; cbn; try reflexivity. now rewrite IH.
Qed.

Lemma set_at_same (i : nat) (v : cell) (y : list cell) :
  i < List.length y -> nth_error (set_at i v y) i = Some v.
Proof.
  revert i. induction y as [|c y IH]; intros [|i] H; cbn in *; try lia; [reflexivity|].
  apply IH. lia.
Qed.

Lemma set_at_other (i j : nat) (v : cell) (y : list cell) :
  i <> j -> nth_error (set_at i v y) j = nth_error y j.
Proof.
  revert i j. induction y as [|c y IH]; intros [|i] [|j] H; cbn; try reflexivity.
  - contradiction.
  - apply IH. lia.
Qed.

Lemma assign_length (y : list cell) (ix : list nat) (vals : list value) :
  List.length (assign y ix vals) = List.length y.
Proof.
  revert y vals. induction ix as [|i ix IH]; intros y [|v vals]; cbn; try reflexivity.
  now rewrite IH, set_at_length.
Qed.

Lemma assign_other (y : list cell) (ix : list nat) (vals : list value) (j : nat) :
  ~ In j ix -> nth_error (assign y ix vals) j = nth_error y j.
Proof.
  revert y vals. induction ix as [|i ix IH]; intros y [|v vals] H; cbn; try reflexivity.
  rewrite IH by (intros Hin; apply H; now right).
  apply set_at_other. intros ->. apply H. now left.
Qed.

Lemma assign_filled (y : list cell) (ix : list nat) (vals : list value) (j : nat) :
  List.length ix = List.length vals -> In j ix -> j < List.length y ->
  exists v, nth_error (assign y ix vals) j = Some (Some v).
Proof.
  revert y vals. induction ix as [|i ix IH]; intros y [|v vals] Hlen Hin Hj;
    cbn in *; try contradiction; try discriminate.
  destruct (in_dec Nat.eq_dec j ix) as [Hin'|Hnin].
  - apply IH; [lia | exact Hin' | now rewrite set_at_length].
  - destruct Hin as [->|Hin]; [|contradiction].
    exists v. rewrite assign_other by exact Hnin. now apply set_at_same.
Qed.

Lemma agree_off_refl (ix : list nat) (y : list cell) : agree_off ix y y.
Proof. split; reflexivity. Qed.

Lemma agree_off_assign (ix : list nat) (y y' : list cell) (vals : list value) :
  agree_off ix y y' -> agree_off ix y (assign y' ix vals).
Proof.
  intros [Hl Hc]. split.
  - now rewrite assign_length.
  - intros j Hj. rewrite assign_other by exact Hj. now apply Hc.
Qed.

Lemma dict_get_set_column_same (X : DataFrame) (c : string) (y y' : list cell) :
  dict_get X c = Some y -> dict_get (set_column X c y') c = Some y'.
Proof.
  induction X as [|[k z] X IH]; cbn; [discriminate|].
  destruct (String.eqb k c) eqn:E; cbn; rewrite E; [reflexivity | exact IH].
Qed.

Lemma dict_get_set_column_other (X : DataFrame) (c c' : string) (y' : list cell) :
  c' <> c -> dict_get (set_column X c y') c' = dict_get X c'.
Proof.
  intros Hne. induction X as [|[k z] X IH]; cbn; [reflexivity|].
  destruct (String.eqb_spec k c) as [->|Hk]; cbn.
  - destruct (String.eqb_spec c c'); [congruence | reflexivity].
  - rewrite IH. reflexivity.
Qed.

Lemma columns_set_column (X : DataFrame) (c : string) (y : list cell) :
  columns (set_column X c y) = columns X.
Proof.
  unfold columns. induction X as [|[k z] X IH]; cbn; [reflexivity|].
  destruct (String.eqb k c); cbn; [reflexivity | now rewrite IH].
Qed.

Lemma dict_get_Some_In {V} (d : list (string * V)) (k : string) (v : V) :
  dict_get d k = Some v -> In k (keys d).
Proof.
  induction d as [|[k' v'] d IH]; cbn; [discriminate|].
  destruct (String.eqb_spec k' k) as [->|Hk]; [now left | right; now apply IH].
Qed.

Lemma In_keys_dict_get {V} (d : list (string * V)) (k : string) :
  In k (keys d) -> exists v, dict_get d k = Some v.
Proof.
  induction d as [|[k' v'] d IH]; cbn; [intros []|].
  intros [->|H].
  - rewrite String.eqb_refl. now eexists.
  - destruct (String.eqb k' k); [now eexists | now apply IH].
Qed.

Lemma mem_In (k : string) (l : list string) : mem k l = true <-> In k l.
Proof.
  unfold mem. rewrite existsb_exists. split.
  - intros (x & Hx & E). apply String.eqb_eq in E. now subst.
  - intros H. exists k. split; [exact H | apply String.eqb_refl].
Qed.

Lemma keys_dict_set {V} (d : list (string * V)) (k : string) (v : V) (k' : string) :
  In k' (keys (dict_set d k v)) <-> k' = k \/ In k' (keys d).
Proof.
  induction d as [|[k0 v0] d IH]; cbn.
  - intuition congruence.
  - destruct (String.eqb_spec k0 k) as [->|Hk]; cbn.
    + intuition congruence.
    + rewrite IH. intuition congruence.
Qed.

Lemma dict_get_dict_set {V} (d : list (string * V)) (k k' : string) (v : V) :
  dict_get (dict_set d k v) k' = if String.eqb k k' then Some v else dict_get d k'.
Proof.
  induction d as [|[k0 v0] d IH]; cbn.
  - reflexivity.
  - destruct (String.eqb_spec k0 k) as [->|Hk]; cbn.
    + destruct (String.eqb k k'); reflexivity.
    + rewrite IH. destruct (String.eqb_spec k0 k') as [->|Hk'].
      * destruct (String.eqb_spec k k'); [congruence | reflexivity].
      * reflexivity.
Qed.

End Frame_facts.

(** ** Triples *)

Section Triple_rules.
Context {T : Type}.

Lemma triple_run {A} (Pre : Env T -> Prop) (m : M T A) Post Exc (e e' : Env T) (a : A) :
  triple Pre m Post Exc -> Pre e -> m e = (Ok a, e') -> Post a e'.
Proof. intros H Hp Hr. specialize (H e Hp). now rewrite Hr in H. Qed.

Lemma triple_run_raise {A} (Pre : Env T -> Prop) (m : M T A) Post Exc (e e' : Env T) err :
  triple Pre m Post Exc -> Pre e -> m e = (Raise err, e') -> Exc err e'.
Proof. intros H Hp Hr. specialize (H e Hp). now rewrite Hr in H. Qed.

Lemma triple_bind {A B} (Pre : Env T -> Prop) (m : M T A) (k : A -> M T B) Mid Post Exc :
  triple Pre m Mid Exc -> (forall a, triple (Mid a) (k a) Post Exc) ->
  triple Pre (bind m k) Post Exc.
Proof.
  intros Hm Hk e Hp. unfold bind. specialize (Hm e Hp).
  destruct (m e) as [[a|err] e1]; [apply Hk, Hm | exact Hm].
Qed.

Lemma triple_for_each {A X} (I : X -> Env T -> Prop) (body : A -> X -> M T X) Exc
    (l : list A) (x : X) :
  (forall a x, In a l -> triple (I x) (body a x) I Exc) ->
  triple (I x) (for_each body l x) I Exc.
Proof.
  revert x. induction l as [|a l IH]; intros x Hb; cbn [for_each].
  - intros e He. exact He.
  - eapply triple_bind; [apply Hb; now left|].
    intros x'. apply IH. intros a' x0 Hin. apply Hb. now right.
Qed.

Lemma bind_Ok {A B} (m : M T A) (k : A -> M T B) (e e' : Env T) (b : B) :
  bind m k e = (Ok b, e') ->
  exists a e1, m e = (Ok a, e1) /\ k a e1 = (Ok b, e').
Proof.
  unfold bind. destruct (m e) as [[a|err] e1]; [|discriminate].
  intros H. now exists a, e1.
Qed.

Lemma calm_refl (e : Env T) : calm e e.
Proof. exists []. split; [now rewrite app_nil_r | constructor]. Qed.

Lemma calm_same (e0 e e' : Env T) : calm e0 e -> log e' = log e -> calm e0 e'.
Proof. intros (l & Hl & Hf) H. exists l. split; [congruence | exact Hf]. Qed.

Lemma calm_snoc (e0 e e' : Env T) (ev : event) :
  calm e0 e -> calm_event ev -> log e' = (log e ++ [ev])%list -> calm e0 e'.
Proof.
  intros (l & Hl & Hf) Hev H. exists (l ++ [ev])%list. split.
  - rewrite H, Hl. now rewrite app_assoc.
  - apply Forall_app. split; [exact Hf | now constructor].
Qed.

Lemma calm_trans (e0 e1 e2 : Env T) : calm e0 e1 -> calm e1 e2 -> calm e0 e2.
Proof.
  intros (l & Hl & Hf) (l' & Hl' & Hf'). exists (l ++ l')%list. split.
  - rewrite Hl', Hl. now rewrite app_assoc.
  - apply Forall_app. now split.
Qed.

Variable E : error -> Prop.

Lemma sc_ret {A} (a : A) : stays_calm (T:=T) E (ret a).
Proof. intros e0 e He. exact He. Qed.

Lemma sc_raise {A} (err : error) : E err -> stays_calm (T:=T) (A:=A) E (raise err).
Proof. intros Herr e0 e He. split; assumption. Qed.

Lemma sc_bind {A B} (m : M T A) (k : A -> M T B) :
  stays_calm E m -> (forall a, stays_calm E (k a)) -> stays_calm E (bind m k).
Proof. intros Hm Hk e0. eapply triple_bind; [apply Hm | intros a; apply Hk]. Qed.

Lemma sc_self : stays_calm (T:=T) E self.
Proof. intros e0 e He. exact He. Qed.

Lemma sc_set_self (f : T -> T) : stays_calm E (set_self f).
Proof. intros e0 e He. cbn. eapply calm_same; [exact He | reflexivity]. Qed.

Lemma sc_emit (ev : event) : calm_event ev -> stays_calm (T:=T) E (emit ev).
Proof.
  intros Hev e0 e He. cbn.
  apply (calm_snoc e0 e _ ev); [exact He | exact Hev | reflexivity].
Qed.

Lemma sc_draw {A} (f : N -> A) : stays_calm (T:=T) E (draw f).
Proof.
  intros e0 e He. cbn.
  apply (calm_snoc e0 e _ EvRandomDraw); [exact He | exact I | reflexivity].
Qed.

Lemma sc_lift_option {A} (err : error) (o : option A) :
  E err -> stays_calm (T:=T) E (lift_option err o).
Proof. intros Herr. destruct o; [apply sc_ret | now apply sc_raise]. Qed.

Lemma sc_if {A} (b : bool) (m1 m2 : M T A) :
  stays_calm E m1 -> stays_calm E m2 -> stays_calm E (if b then m1 else m2).
Proof. destruct b; auto. Qed.

Lemma sc_for_each {A X} (body : A -> X -> M T X) (l : list A) (x : X) :
  (forall a x, stays_calm E (body a x)) -> stays_calm E (for_each body l x).
Proof.
  intros Hb e0.
  apply (triple_for_each (fun _ => calm e0) body (fun err e => E err /\ calm e0 e)).
  intros a x' _. apply Hb.
Qed.

End Triple_rules.

(** ** [PredictiveImputer]: the loop of [transform] *)

Section Predictive_facts.
Import PredictiveImputer.
Variable C : Collaborators.

Ltac calm_auto :=
  repeat first
    [ apply sc_ret | apply sc_self | apply sc_set_self | apply sc_draw
    | apply sc_emit; exact I
    | apply sc_raise; unfold loop_error; tauto
    | apply sc_lift_option; unfold loop_error; tauto
    | apply sc_bind; [|intros ?]
    | apply sc_if ].

Lemma sc_attr {A} (f : t C -> option A) : stays_calm loop_error (attr C f).
Proof. unfold attr. calm_auto. Qed.

Lemma sc_getitem (X : DataFrame) (c : string) :
  stays_calm (T:=t C) loop_error (getitem X c).
Proof. unfold getitem. destruct (dict_get X c); calm_auto. Qed.

Lemma sc_loc_setitem (X : DataFrame) (c : string) ix vals :
  stays_calm (T:=t C) loop_error (loc_setitem X c ix vals).
Proof.
  unfold loc_setitem. destruct (dict_get X c); calm_auto.
Qed.

Lemma sc_pm_impute name X c x fill ix fv :
  stays_calm loop_error (pm_impute C name X c x fill ix fv).
Proof. unfold pm_impute. calm_auto. apply sc_loc_setitem. Qed.

Lemma sc_prep_predictor_cols c :
  stays_calm loop_error (_prep_predictor_cols C c).
Proof. unfold _prep_predictor_cols. calm_auto; apply sc_attr. Qed.

Lemma sc_transform_column nd entry X :
  stays_calm loop_error (transform_column C nd entry X).
Proof.
  destruct entry as [c fd]. unfold transform_column.
  apply sc_bind; [apply sc_getitem | intros y].
  apply sc_bind; [apply sc_attr | intros imputed].
  apply sc_bind; [apply sc_set_self | intros _].
  destruct (isnull_index (snd y)); [apply sc_ret|].
  apply sc_bind; [apply sc_prep_predictor_cols | intros x].
  unfold when, _imp_least_squares_reg, _imp_logistic_reg, _imp_stochastic_reg,
    _imp_bayes_least_squares_reg, _imp_bayes_logistic_reg, _imp_pmm_reg.
  repeat first [ apply sc_pm_impute | apply sc_loc_setitem | apply sc_attr | progress calm_auto ].
Qed.

End Predictive_facts.

Section Predictive_frame.
Import PredictiveImputer.
Variable C : Collaborators.

Lemma getitem_Ok {T} (X : DataFrame) (c : string) (e e' : Env T) (y : Series) :
  getitem X c e = (Ok y, e') -> exists y0, dict_get X c = Some y0 /\ y = (c, y0) /\ e' = e.
Proof.
  unfold getitem. destruct (dict_get X c) as [y0|]; cbn; [|discriminate].
  intros H. injection H as <- <-. now exists y0.
Qed.

Lemma pm_impute_Ok name X1 c x fill ix fv (e e' : Env (t C)) r :
  pm_impute C name X1 c x fill ix fv e = (Ok r, e') -> spliced c ix X1 (fst r).
Proof.
  unfold pm_impute, loc_setitem, bind, emit, draw, ret. cbn.
  destruct (dict_get X1 c) as [y1|] eqn:Hy; cbn; [|discriminate].
  destruct (Nat.eqb_spec (List.length ix)
              (List.length (fst (predict C name fill x fv (rng e))))) as [Hl|Hl];
    cbn; [|discriminate].
  intros H. injection H as <- _. cbn. now exists y1, (fst (predict C name fill x fv (rng e))).
Qed.

Lemma link_plain c ix (b : bool) name X1 x fill (e e' : Env (t C)) X2 :
  when C b (bind (pm_impute C name X1 c x fill ix None) (fun r => ret (fst r))) X1 e
    = (Ok X2, e') ->
  link_ok c ix b X1 X2.
Proof.
  unfold when. destruct b.
  - intros H. apply bind_Ok in H. destruct H as (r & e1 & Hr & H).
    injection H as <- _. right. split; [reflexivity|]. eapply pm_impute_Ok, Hr.
  - intros H. injection H as <- _. now left.
Qed.

Lemma link_traced c ix (b : bool) name X1 x fill fv (e e' : Env (t C)) X2 :
  when C b
    (bind (pm_impute C name X1 c x fill ix fv) (fun r =>
     bind (attr C traces_) (fun traces =>
     bind (set_self (with_traces_ C (dict_set traces c (snd r)))) (fun _ =>
     ret (fst r))))) X1 e = (Ok X2, e') ->
  link_ok c ix b X1 X2.
Proof.
  unfold when. destruct b.
  - intros H. apply bind_Ok in H. destruct H as (r & e1 & Hr & H).
    apply bind_Ok in H. destruct H as (tr & e2 & _ & H).
    apply bind_Ok in H. destruct H as (u & e3 & _ & H).
    injection H as <- _. right. split; [reflexivity|]. eapply pm_impute_Ok, Hr.
  - intros H. injection H as <- _. now left.
Qed.

(** The frame along the chain of [if]s, against the frame [X] at the start
    of the turn. *)
Lemma col_rel_refl c y ix (X : DataFrame) : Forall2 (col_rel c y ix) X X.
Proof. induction X; constructor; [split; [reflexivity | now left] | assumption]. Qed.

Lemma col_rel_length c y ix (X X1 : DataFrame) (y1 : list cell) :
  Forall2 (col_rel c y ix) X X1 -> dict_get X c = Some y -> dict_get X1 c = Some y1 ->
  List.length y1 = List.length y.
Proof.
  induction 1 as [|[k z] [k1 z1] X X1 [Hk Hr] _ IH]; cbn; [discriminate|].
  cbn in Hk, Hr. subst k1. destruct (String.eqb k c).
  - intros [= ->] [= ->]. destruct Hr as [->|(_ & _ & Hl & _)]; [reflexivity | exact Hl].
  - exact IH.
Qed.

Lemma col_rel_spliced c y ix (X X1 X2 : DataFrame) :
  Forall2 (col_rel c y ix) X X1 -> dict_get X c = Some y -> spliced c ix X1 X2 ->
  Forall2 (col_rel c y ix) X X2.
Proof.
  intros HJ Hy (y1 & vals & Hy1 & _ & ->). revert Hy Hy1.
  induction HJ as [|[k z] [k1 z1] X X1 [Hk Hr] HJ IH]; cbn; [constructor|].
  cbn in Hk, Hr. subst k1. destruct (String.eqb_spec k c) as [->|Hne].
  - intros [= ->] [= ->]. constructor; [|exact HJ]. split; [reflexivity|]. cbn. right.
    split; [reflexivity|]. split; [reflexivity|].
    destruct Hr as [->|(_ & _ & Ha)]; [apply agree_off_assign, agree_off_refl
                                        | apply agree_off_assign, Ha].
  - intros Hy Hy1. constructor; [split; [reflexivity | exact Hr] | now apply IH].
Qed.

Lemma filled_spliced c y ix (X X1 X2 : DataFrame) :
  (forall j, In j ix -> j < List.length y) ->
  Forall2 (col_rel c y ix) X X1 -> dict_get X c = Some y -> spliced c ix X1 X2 ->
  filled_at c ix X2.
Proof.
  intros Hix HJ Hy (y1 & vals & Hy1 & Hlen & ->) y2 Hy2 j Hj.
  rewrite (dict_get_set_column_same X1 c y1 _ Hy1) in Hy2. injection Hy2 as <-.
  apply assign_filled; [exact Hlen | exact Hj|].
  rewrite (col_rel_length c y ix X X1 y1 HJ Hy Hy1). now apply Hix.
Qed.

Lemma link_ok_step c y ix b (X X1 X2 : DataFrame) :
  (forall j, In j ix -> j < List.length y) -> dict_get X c = Some y ->
  link_ok c ix b X1 X2 ->
  Forall2 (col_rel c y ix) X X1 ->
  Forall2 (col_rel c y ix) X X2 /\
  (filled_at c ix X1 \/ b = true -> filled_at c ix X2).
Proof.
  intros Hix Hy [[-> ->]|[-> Hs]] HJ.
  - split; [exact HJ|]. intros [H|H]; [exact H | discriminate].
  - split; [eapply col_rel_spliced; eassumption|].
    intros _. eapply filled_spliced; eassumption.
Qed.

Lemma dispatched_tests (strat : string) :
  In strat dispatched ->
  String.eqb strat methods.LS = true \/
  (String.eqb strat methods.BINARY_LOGISTIC || String.eqb strat methods.MULTI_LOGISTIC) = true \/
  String.eqb strat methods.STOCHASTIC = true \/
  String.eqb strat methods.BAYESIAN_LS = true \/
  String.eqb strat methods.BAYESIAN_BINARY_LOGISTIC = true \/
  String.eqb strat methods.PMM = true.
Proof.
  unfold dispatched. cbn [In].
  intros [<-|[<-|[<-|[<-|[<-|[<-|[<-|[]]]]]]]]; cbn; tauto.
Qed.

(** One turn of the loop of [transform] on column [c]. *)
Lemma transform_column_frame nd c (fd : FitData C) (X X' : DataFrame) (e e' : Env (t C)) :
  transform_column C nd (c, fd) X e = (Ok X', e') ->
  exists y, dict_get X c = Some y /\
    Forall2 (col_rel c y (isnull_index y)) X X' /\
    (In (fd_strategy fd) dispatched -> filled_at c (isnull_index y) X').
Proof.
  unfold transform_column. intros H.
  apply bind_Ok in H. destruct H as (ys & e1 & Hy & H).
  apply getitem_Ok in Hy. destruct Hy as (y & Hy & -> & ->). cbn [snd] in H.
  exists y. split; [exact Hy|].
  apply bind_Ok in H. destruct H as (imputed & e2 & _ & H).
  apply bind_Ok in H. destruct H as (u & e3 & _ & H).
  assert (Hix : forall j, In j (isnull_index y) -> j < List.length y).
  { intros j Hj. apply isnull_index_In in Hj. apply nth_error_Some. congruence. }
  destruct (isnull_index y) as [|i ix] eqn:Eix.
  - injection H as <- _. split; [apply col_rel_refl|]. intros _ y' _ j [].
  - apply bind_Ok in H. destruct H as (x0 & e4 & _ & H).
    apply bind_Ok in H. destruct H as (x1 & e5 & _ & H).
    apply bind_Ok in H. destruct H as (x & e6 & _ & H).
    apply bind_Ok in H. destruct H as (s & e7 & _ & H).
    apply bind_Ok in H. destruct H as (X1 & e8 & H1 & H).
    apply bind_Ok in H. destruct H as (X2 & e9 & H2 & H).
    apply bind_Ok in H. destruct H as (X3 & e10 & H3 & H).
    apply bind_Ok in H. destruct H as (X4 & e11 & H4 & H).
    apply bind_Ok in H. destruct H as (X5 & e12 & H5 & H).
    apply bind_Ok in H. destruct H as (X6 & e13 & H6 & H).
    apply bind_Ok in H. destruct H as (X7 & e14 & H7 & H).
    injection H as <- _.
    apply link_plain in H1. apply link_plain in H2. apply link_plain in H3.
    apply link_traced in H4. apply link_traced in H5. apply link_traced in H6.
    assert (X7 = X6) as ->.
    { unfold when in H7. destruct (String.eqb (fd_strategy fd) methods.NONE);
        now injection H7 as <- _. }
    pose proof (col_rel_refl c y (i :: ix) X) as J0.
    destruct (link_ok_step c y _ _ X X X1 Hix Hy H1 J0) as [J1 F1].
    destruct (link_ok_step c y _ _ X X1 X2 Hix Hy H2 J1) as [J2 F2].
    destruct (link_ok_step c y _ _ X X2 X3 Hix Hy H3 J2) as [J3 F3].
    destruct (link_ok_step c y _ _ X X3 X4 Hix Hy H4 J3) as [J4 F4].
    destruct (link_ok_step c y _ _ X X4 X5 Hix Hy H5 J4) as [J5 F5].
    destruct (link_ok_step c y _ _ X X5 X6 Hix Hy H6 J5) as [J6 F6].
    split; [exact J6|]. intros Hd. apply dispatched_tests in Hd. tauto.
Qed.

End Predictive_frame.

Section Predictive_loop.
Import PredictiveImputer.
Variable C : Collaborators.

Lemma kept_refl K (X : DataFrame) : Forall2 (kept K) X X.
Proof. induction X; constructor; [repeat split; auto | assumption]. Qed.

Lemma kept_trans K1 K2 (X X1 X2 : DataFrame) :
  Forall2 (kept K1) X X1 -> Forall2 (kept K2) X1 X2 -> Forall2 (kept (K1 ++ K2)) X X2.
Proof.
  intros H. revert X2. induction H as [|p p1 X X1 (Hk & Hl & Hc & Hn) _ IH];
    intros X2 H2; inversion H2 as [|? p2 ? X2' (Hk' & Hl' & Hc' & Hn') H2']; subst;
    constructor; [|now apply IH].
  repeat split.
  - congruence.
  - congruence.
  - intros i v Hi. apply Hc', Hc, Hi.
  - intros Hnin. rewrite in_app_iff in Hnin. rewrite Hn', Hn; [reflexivity | tauto|].
    rewrite Hk. tauto.
Qed.

Lemma col_rel_kept c y (X X1 : DataFrame) :
  Forall2 (col_rel c y (isnull_index y)) X X1 -> Forall2 (kept [c]) X X1.
Proof.
  induction 1 as [|p p1 X X1 [Hk Hr] _ IH]; constructor; [|exact IH].
  destruct Hr as [Hr|(Hc & Hy & Hl & Ha)].
  - unfold kept. rewrite Hr. repeat split; auto.
  - repeat split.
    + exact Hk.
    + rewrite Hy. exact Hl.
    + intros i v Hi. rewrite Hy in Hi. rewrite Ha; [exact Hi|].
      intros Hin. apply isnull_index_In in Hin. congruence.
    + intros Hn. exfalso. apply Hn. now left.
Qed.

Lemma Forall2_dict_get (R : string * list cell -> string * list cell -> Prop)
    (X X1 : DataFrame) (c : string) :
  (forall p p1, R p p1 -> fst p1 = fst p) -> Forall2 R X X1 ->
  match dict_get X c, dict_get X1 c with
  | Some y, Some y1 => R (c, y) (c, y1)
  | None, None => True
  | _, _ => False
  end.
Proof.
  intros Hfst. induction 1 as [|[k z] [k1 z1] X X1 Hr _ IH]; cbn; [exact I|].
  pose proof (Hfst _ _ Hr) as Hk. cbn in Hk. subst k1.
  destruct (String.eqb_spec k c) as [->|_]; [exact Hr | exact IH].
Qed.

Lemma complete_kept K (X1 X2 : DataFrame) (c : string) :
  Forall2 (kept K) X1 X2 -> complete X1 c -> complete X2 c.
Proof.
  intros H Hc y2 Hy2.
  pose proof (Forall2_dict_get (kept K) X1 X2 c (fun p p1 H => proj1 H) H) as Hg.
  rewrite Hy2 in Hg. destruct (dict_get X1 c) as [y1|] eqn:Hy1; [|contradiction].
  destruct Hg as (_ & Hl & Hv & _). cbn in Hl, Hv.
  apply isnull_index_nil. intros j Hj.
  assert (Hlt : j < List.length y1).
  { rewrite <- Hl. apply nth_error_Some. congruence. }
  destruct (nth_error y1 j) as [[v|]|] eqn:E.
  - rewrite (Hv j v E) in Hj. discriminate.
  - pose proof (Hc y1 Hy1) as Hn. rewrite isnull_index_nil in Hn. now apply (Hn j).
  - apply nth_error_None in E. lia.
Qed.

Lemma complete_filled c y (X X1 : DataFrame) :
  dict_get X c = Some y -> Forall2 (col_rel c y (isnull_index y)) X X1 ->
  filled_at c (isnull_index y) X1 -> complete X1 c.
Proof.
  intros Hy HJ HF y1 Hy1. apply isnull_index_nil. intros j Hj.
  destruct (in_dec Nat.eq_dec j (isnull_index y)) as [Hin|Hnin].
  - destruct (HF y1 Hy1 j Hin) as [v Hv]. congruence.
  - pose proof (Forall2_dict_get (col_rel c y (isnull_index y)) X X1 c
                  (fun p p1 H => proj1 H) HJ) as Hg.
    rewrite Hy, Hy1 in Hg. destruct Hg as [_ [Hg|(_ & _ & _ & Ha)]]; cbn in *.
    + subst y1. apply Hnin. now apply isnull_index_In.
    + rewrite (Ha j Hnin) in Hj. apply Hnin. now apply isnull_index_In.
Qed.

(** The loop of [transform]: shape and observed cells are kept, and every
    column with a dispatched strategy ends without a null. *)
Lemma transform_loop_frame nd (stats : list (string * FitData C)) (X X' : DataFrame)
    (e e' : Env (t C)) :
  Forall (fun entry => In (fd_strategy (snd entry)) dispatched) stats ->
  for_each (transform_column C nd) stats X e = (Ok X', e') ->
  Forall2 (kept (keys stats)) X X' /\
  forall c, In c (keys stats) -> complete X' c.
Proof.
  revert X e. induction stats as [|[c fd] stats IH]; intros X e Hd H; cbn [for_each] in H.
  - injection H as <- _. split; [apply kept_refl | intros c []].
  - apply bind_Ok in H. destruct H as (X1 & e1 & H1 & H).
    inversion Hd as [|? ? Hc Hd']; subst. cbn in Hc.
    apply transform_column_frame in H1. destruct H1 as (y & Hy & HJ & HF).
    destruct (IH X1 e1 Hd' H) as [HK HC]. split.
    + apply (kept_trans [c] (keys stats) X X1 X'); [eapply col_rel_kept, HJ | exact HK].
    + intros c' [<-|Hin]; [|now apply HC].
      eapply complete_kept; [exact HK|]. eapply complete_filled; eauto.
Qed.

(** What the validator of [transform] leaves of the object. *)
Lemma transform_validator_keeps X nd (e e' : Env (t C)) r :
  _transform_strategy_validator C X nd e = (r, e') ->
  statistics_ (obj e') = statistics_ (obj e) /\
  _strats (obj e') = _strats (obj e) /\
  imputed_ (obj e') = imputed_ (obj e).
Proof.
  destruct e as [s rg lg].
  unfold _transform_strategy_validator, check_is_fitted, attr, bind, self, lift_option.
  cbn. destruct (statistics_ s) eqn:Hs; cbn;
    [|intros H; injection H as <- <-; cbn; auto].
  destruct (_strats s) eqn:Ht; cbn; [|intros H; injection H as <- <-; cbn; auto].
  destruct (filter _ _); cbn; [|intros H; injection H as <- <-; cbn; auto].
  destruct nd; cbn; [|intros H; injection H as <- <-; cbn; auto].
  unfold _prep_fit_dataframe, attr, bind, self, lift_option. cbn.
  destruct (_preds s) eqn:Hp; cbn; [|intros H; injection H as <- <-; cbn; auto].
  destruct (forallb _ (required_columns p)); cbn;
    [|intros H; injection H as <- <-; cbn; auto].
  destruct (scaler s); cbn; intros H; injection H as <- <-; cbn; auto.
Qed.

Lemma check_nan_columns_run X (e e' : Env (t C)) r :
  check_nan_columns C X e = (r, e') -> e' = e.
Proof.
  unfold check_nan_columns. destruct (existsb _ X); cbn; intros H; now injection H as <- <-.
Qed.

Lemma transform_frame X nd (e e' : Env (t C)) X' stats :
  statistics_ (obj e) = Some stats ->
  Forall (fun entry => In (fd_strategy (snd entry)) dispatched) stats ->
  transform C X nd e = (Ok X', e') ->
  Forall2 (kept (keys stats)) X X' /\
  forall c, In c (keys stats) -> complete X' c.
Proof.
  intros Hst Hd H. unfold transform in H.
  apply bind_Ok in H. destruct H as (u1 & e1 & H1 & H).
  apply check_nan_columns_run in H1. subst e1.
  apply bind_Ok in H. destruct H as (u2 & e2 & H2 & H).
  apply transform_validator_keeps in H2. destruct H2 as (H2 & _).
  apply bind_Ok in H. destruct H as (u3 & e3 & H3 & H).
  apply bind_Ok in H. destruct H as (u4 & e4 & H4 & H).
  apply bind_Ok in H. destruct H as (stats' & e5 & H5 & H).
  injection H3 as _ <-. injection H4 as _ <-.
  unfold attr, bind, self, lift_option in H5. cbn in H5. rewrite H2, Hst in H5.
  injection H5 as <- <-.
  eapply transform_loop_frame; eassumption.
Qed.

End Predictive_loop.

(** ** [PredictiveImputer]: [fit] *)

Section Predictive_fit.
Import PredictiveImputer.
Variable C : Collaborators.

Lemma lift_option_Ok {T A} (err : error) (o : option A) (e e' : Env T) (a : A) :
  lift_option err o e = (Ok a, e') -> o = Some a /\ e' = e.
Proof. destruct o; cbn; [|discriminate]. intros H. now injection H as <- <-. Qed.

Lemma attr_Ok {A} (f : t C -> option A) (e e' : Env (t C)) (a : A) :
  attr C f e = (Ok a, e') -> f (obj e) = Some a /\ e' = e.
Proof. unfold attr, bind, self. apply lift_option_Ok. Qed.

Lemma prep_predictor_cols_Ok c (e e' : Env (t C)) x :
  _prep_predictor_cols C c e = (Ok x, e') -> e' = e.
Proof.
  unfold _prep_predictor_cols. intros H.
  apply bind_Ok in H. destruct H as (d & e1 & H1 & H). apply attr_Ok in H1 as [_ ->].
  apply bind_Ok in H. destruct H as (p & e2 & H2 & H). apply attr_Ok in H2 as [_ ->].
  now injection H as _ <-.
Qed.

Lemma fit_numeric_Ok name x y v (e e' : Env (t C)) r :
  fit_numeric C name x y v e = (Ok r, e') -> obj e' = obj e /\ snd r = name.
Proof.
  unfold fit_numeric, _not_num_series, bind, emit, draw, ret.
  destruct (is_numeric (snd y)); cbn; [|discriminate].
  intros H. now injection H as <- <-.
Qed.

Lemma fit_numeric_categorical name x y v (e : Env (t C)) :
  is_numeric (snd y) = false -> fit_numeric C name x y v e = (Raise StrategyMismatch, e).
Proof.
  intros H. unfold fit_numeric, _not_num_series, bind. rewrite H. reflexivity.
Qed.

Lemma fit_categorical_Ok name b x y v (e e' : Env (t C)) r :
  fit_categorical C name b x y v e = (Ok r, e') -> obj e' = obj e /\ snd r = name.
Proof.
  unfold fit_categorical, _not_cat_series, bind, emit, draw, ret.
  destruct (is_numeric (snd y)); cbn; [discriminate|].
  destruct (b && negb (nclasses (snd y) =? 2)); cbn; [discriminate|].
  intros H. now injection H as <- <-.
Qed.

Lemma predictive_default_Ok x y v (e e' : Env (t C)) r :
  _predictive_default C x y v e = (Ok r, e') ->
  obj e' = obj e /\
  (snd r = methods.LS \/ snd r = methods.BINARY_LOGISTIC \/ snd r = methods.MULTI_LOGISTIC).
Proof.
  unfold _predictive_default. destruct (is_numeric (snd y)).
  - intros H. apply (fit_numeric_Ok _ x y v) in H. tauto.
  - destruct (nclasses (snd y) =? 2); intros H; apply (fit_categorical_Ok _ _ x y v) in H; tauto.
Qed.

(** Every routine of the table leaves the object alone and returns the
    name of a strategy that [transform] dispatches. *)
Lemma routine_Ok fn f x y v (e e' : Env (t C)) r :
  dict_get (strategies C) fn = Some f -> f x y v e = (Ok r, e') ->
  obj e' = obj e /\ In (snd r) dispatched.
Proof.
  unfold strategies, dispatched. cbn [dict_get In].
  repeat match goal with
         | |- context [String.eqb ?a fn] => destruct (String.eqb a fn)
         end; intros Hf; try discriminate; injection Hf as <-; intros H.
  all: first [ apply predictive_default_Ok in H
             | apply (fit_numeric_Ok _ x y v) in H
             | apply (fit_categorical_Ok _ _ x y v) in H ];
    (split; [tauto|]); destruct H as [_ H];
    repeat (destruct H as [H|H]); rewrite H; auto 10.
Qed.

Lemma Forall_dict_set {V} (P : string * V -> Prop) (d : list (string * V)) k v :
  Forall P d -> P (k, v) -> (forall v', P (k, v') -> P (k, v)) -> Forall P (dict_set d k v).
Proof.
  intros Hd Hp _. induction Hd as [|[k0 v0] d H0 Hd IH]; cbn.
  - now constructor.
  - destruct (String.eqb_spec k0 k) as [->|_]; constructor; auto.
Qed.

Lemma fit_column_Ok X c fn (e e' : Env (t C)) stats :
  statistics_ (obj e) = Some stats ->
  fit_column C X (c, fn) tt e = (Ok tt, e') ->
  exists fdata,
    statistics_ (obj e') = Some (dict_set stats c fdata) /\
    In (fd_strategy fdata) dispatched /\
    _strats (obj e') = _strats (obj e).
Proof.
  intros Hst H. unfold fit_column in H.
  apply bind_Ok in H. destruct H as (f & e1 & H1 & H). apply lift_option_Ok in H1 as [Hf ->].
  apply bind_Ok in H. destruct H as (x & e2 & H2 & H). apply prep_predictor_cols_Ok in H2 as ->.
  apply bind_Ok in H. destruct H as (y & e3 & H3 & H).
  apply getitem_Ok in H3. destruct H3 as (y0 & _ & _ & ->).
  apply bind_Ok in H. destruct H as (s & e4 & H4 & H). injection H4 as <- <-.
  apply bind_Ok in H. destruct H as (r & e5 & H5 & H).
  destruct (routine_Ok fn f x y _ e e5 r Hf H5) as [Ho Hd].
  apply bind_Ok in H. destruct H as (stats' & e6 & H6 & H). apply attr_Ok in H6 as [H6 ->].
  rewrite Ho, Hst in H6. injection H6 as <-.
  injection H as <-. cbn. rewrite Ho.
  exists (mkFitData C (fst r) (snd r)). auto.
Qed.

Lemma fit_loop_Ok X (l : list (string * string)) (e e' : Env (t C)) stats :
  statistics_ (obj e) = Some stats ->
  Forall (fun entry => In (fd_strategy (snd entry)) dispatched) stats ->
  for_each (fit_column C X) l tt e = (Ok tt, e') ->
  exists stats',
    statistics_ (obj e') = Some stats' /\
    Forall (fun entry => In (fd_strategy (snd entry)) dispatched) stats' /\
    _strats (obj e') = _strats (obj e) /\
    forall c, In c (keys stats') <-> In c (keys stats) \/ In c (keys l).
Proof.
  revert e stats. induction l as [|[c fn] l IH]; intros e stats Hst Hd H; cbn [for_each] in H.
  - injection H as <-. exists stats. cbn. intuition.
  - apply bind_Ok in H. destruct H as ([] & e1 & H1 & H).
    destruct (fit_column_Ok X c fn e e1 stats Hst H1) as (fdata & Hst1 & Hd1 & Hs1).
    destruct (IH e1 _ Hst1 (Forall_dict_set _ stats c fdata Hd Hd1 (fun _ _ => Hd1)) H)
      as (stats' & Hst' & Hd' & Hs' & Hk).
    exists stats'. repeat split; try assumption; try congruence.
    + intros Hin. apply Hk in Hin. rewrite keys_dict_set in Hin. cbn. intuition.
    + intros Hin. apply Hk. rewrite keys_dict_set. cbn in Hin. intuition.
Qed.

(** What a completed [fit] leaves: statistics for exactly the columns that
    were given a strategy, each under a dispatched name. *)
Lemma fit_Ok X (e e' : Env (t C)) :
  fit C X e = (Ok tt, e') ->
  exists stats strats,
    statistics_ (obj e') = Some stats /\ _strats (obj e') = Some strats /\
    Forall (fun entry => In (fd_strategy (snd entry)) dispatched) stats /\
    forall c, In c (keys stats) <-> In c (keys strats).
Proof.
  unfold fit. intros H.
  apply bind_Ok in H. destruct H as (u1 & e1 & _ & H).
  apply bind_Ok in H. destruct H as (u2 & e2 & _ & H).
  apply bind_Ok in H. destruct H as (u3 & e3 & H3 & H). injection H3 as _ <-.
  apply bind_Ok in H. destruct H as (strats & e4 & H4 & H). apply attr_Ok in H4 as [H4 ->].
  destruct (fit_loop_Ok X strats
              (mkEnv (with_statistics_ C [] (obj e2)) (rng e2) (log e2)) e' []
              eq_refl (Forall_nil _) H)
    as (stats & Hst & Hd & Hs & Hk).
  exists stats, strats. repeat split; try assumption; try congruence.
  - intros Hin. apply Hk in Hin. cbn in Hin. tauto.
  - intros Hin. apply Hk. now right.
Qed.

(** A turn of the loop of [fit] writes [statistics_] only. *)
Lemma fit_column_keeps X c fn (e e' : Env (t C)) :
  fit_column C X (c, fn) tt e = (Ok tt, e') ->
  _preds (obj e') = _preds (obj e) /\ _data (obj e') = _data (obj e) /\
  scaler (obj e') = scaler (obj e).
Proof.
  intros H. unfold fit_column in H.
  apply bind_Ok in H. destruct H as (f & e1 & H1 & H). apply lift_option_Ok in H1 as [Hf ->].
  apply bind_Ok in H. destruct H as (x & e2 & H2 & H). apply prep_predictor_cols_Ok in H2 as ->.
  apply bind_Ok in H. destruct H as (y & e3 & H3 & H).
  apply getitem_Ok in H3. destruct H3 as (y0 & _ & _ & ->).
  apply bind_Ok in H. destruct H as (s & e4 & H4 & H). injection H4 as <- <-.
  apply bind_Ok in H. destruct H as (r & e5 & H5 & H).
  destruct (routine_Ok fn f x y _ e e5 r Hf H5) as [Ho _].
  apply bind_Ok in H. destruct H as (stats' & e6 & H6 & H). apply attr_Ok in H6 as [_ ->].
  injection H as <-. cbn. rewrite Ho. auto.
Qed.

Lemma fit_loop_keeps X (l : list (string * string)) (e e' : Env (t C)) :
  for_each (fit_column C X) l tt e = (Ok tt, e') ->
  _preds (obj e') = _preds (obj e) /\ _data (obj e') = _data (obj e) /\
  scaler (obj e') = scaler (obj e).
Proof.
  revert e. induction l as [|[c fn] l IH]; intros e H; cbn [for_each] in H.
  - injection H as <-. auto.
  - apply bind_Ok in H. destruct H as ([] & e1 & H1 & H).
    apply fit_column_keeps in H1. apply IH in H.
    destruct H1 as (H1 & H2 & H3), H as (H4 & H5 & H6). repeat split; congruence.
Qed.

(** The preparer, when it returns, has found every required column. *)
Lemma prep_fit_dataframe_Ok X (e e' : Env (t C)) :
  _prep_fit_dataframe C X e = (Ok tt, e') ->
  exists preds,
    _preds (obj e) = Some preds /\
    forallb (fun c => mem c (columns X)) (required_columns preds) = true /\
    e' = mkEnv (with__data C (prep_fit_dataframe C X) (obj e)) (rng e)
               (log e ++ [EvPrepFrame]).
Proof.
  unfold _prep_fit_dataframe. intros H.
  apply bind_Ok in H. destruct H as (preds & e1 & H1 & H). apply attr_Ok in H1 as [H1 ->].
  exists preds. split; [exact H1|].
  destruct (forallb _ (required_columns preds)); [|discriminate].
  split; [reflexivity|].
  unfold bind, emit, set_self in H. cbn in H. now injection H as <-.
Qed.

(** A completed [fit] has prepared the frame: the predictors are resolved
    and every required column is a column of the frame. *)
Lemma fit_Ok_preds X (e e' : Env (t C)) :
  fit C X e = (Ok tt, e') ->
  exists preds,
    _preds (obj e') = Some preds /\
    forallb (fun c => mem c (columns X)) (required_columns preds) = true.
Proof.
  unfold fit. intros H.
  apply bind_Ok in H. destruct H as (u1 & e1 & _ & H).
  apply bind_Ok in H. destruct H as (u2 & e2 & H2 & H).
  apply bind_Ok in H. destruct H as (u3 & e3 & H3 & H). injection H3 as _ <-.
  apply bind_Ok in H. destruct H as (strats & e4 & H4 & H). apply attr_Ok in H4 as [_ ->].
  apply fit_loop_keeps in H. destruct H as (Hp & _). cbn in Hp.
  unfold _fit_strategy_validator in H2.
  apply bind_Ok in H2. destruct H2 as (s & ea & Ha & H2). injection Ha as <- <-.
  apply bind_Ok in H2. destruct H2 as (strats' & eb & _ & H2).
  apply bind_Ok in H2. destruct H2 as (ub & ec & _ & H2).
  apply bind_Ok in H2. destruct H2 as (preds & ed & _ & H2).
  apply bind_Ok in H2. destruct H2 as (ud & ee & _ & H2).
  apply bind_Ok in H2. destruct H2 as ([] & ef & Hf & H2).
  apply prep_fit_dataframe_Ok in Hf. destruct Hf as (preds' & Hpr & Hall & ->).
  exists preds'. split; [|exact Hall]. rewrite Hp.
  destruct (scaler (obj e1)).
  - unfold _scaler_fit_transform in H2.
    apply bind_Ok in H2. destruct H2 as (d & eg & Hg & H2). apply attr_Ok in Hg as [_ ->].
    unfold bind, emit, set_self in H2. cbn in H2. injection H2 as H2. subst e2. exact Hpr.
  - injection H2 as H2. subst e2. exact Hpr.
Qed.

End Predictive_fit.

(** ** [PredictiveImputer]: the claims *)

Section Predictive_claims.
Import PredictiveImputer.
Variable C : Collaborators.

Lemma kept_columns K (X X' : DataFrame) : Forall2 (kept K) X X' -> columns X' = columns X.
Proof.
  unfold columns. induction 1 as [|p p' X X' (Hk & _) _ IH]; cbn; [reflexivity|].
  now rewrite Hk, IH.
Qed.

Lemma kept_shape K (X X' : DataFrame) : Forall2 (kept K) X X' -> shape X' = shape X.
Proof.
  unfold shape. induction 1 as [|p p' X X' (_ & Hl & _) _ IH]; cbn; [reflexivity|].
  now rewrite Hl, IH.
Qed.

(** C1: after a completed [fit], a [transform] that returns gives a table
    with the columns and the shape of its input; every observed cell is
    unchanged; in a fitted column every null cell holds a value, and a
    column that was not fitted is returned as it was. *)
Theorem transform_splices_nulls (X0 X X' : DataFrame) (nd : bool) (e0 e e' : Env (t C)) :
  fit C X0 e0 = (Ok tt, e) ->
  transform C X nd e = (Ok X', e') ->
  columns X' = columns X /\ shape X' = shape X /\
  exists stats, statistics_ (obj e) = Some stats /\
  forall c y, dict_get X c = Some y ->
    exists y', dict_get X' c = Some y' /\
      (forall i v, nth_error y i = Some (Some v) -> nth_error y' i = Some (Some v)) /\
      (In c (keys stats) ->
         forall i, nth_error y i = Some None -> exists v, nth_error y' i = Some (Some v)) /\
      (~ In c (keys stats) -> y' = y).
Proof.
  intros Hfit Htr.
  destruct (fit_Ok C X0 e0 e Hfit) as (stats & strats & Hst & _ & Hd & _).
  destruct (transform_frame C X nd e e' X' stats Hst Hd Htr) as [HK HC].
  split; [eapply kept_columns, HK|]. split; [eapply kept_shape, HK|].
  exists stats. split; [exact Hst|]. intros c y Hy.
  pose proof (Forall2_dict_get (kept (keys stats)) X X' c (fun p p1 H => proj1 H) HK) as Hg.
  rewrite Hy in Hg. destruct (dict_get X' c) as [y'|] eqn:Hy'; [|contradiction].
  destruct Hg as (_ & Hl & Hv & Hn). cbn in Hl, Hv, Hn.
  exists y'. split; [reflexivity|]. split; [exact Hv|]. split; [|exact Hn].
  intros Hin i Hi. pose proof (HC c Hin y' Hy') as Hc. rewrite isnull_index_nil in Hc.
  assert (Hlt : i < List.length y') by (rewrite Hl; apply nth_error_Some; congruence).
  destruct (nth_error y' i) as [[v|]|] eqn:E.
  - now exists v.
  - exfalso. now apply (Hc i).
  - apply nth_error_None in E. lia.
Qed.

(** The validator of [transform] when no fitted column is missing and,
    under [new_data], no required column either. *)
Lemma transform_validator_run X nd (e : Env (t C)) stats strats :
  statistics_ (obj e) = Some stats -> _strats (obj e) = Some strats ->
  filter (fun c => negb (mem c (columns X))) (keys strats) = [] ->
  (nd = true -> exists preds, _preds (obj e) = Some preds /\
     forallb (fun c => mem c (columns X)) (required_columns preds) = true) ->
  exists e2 l,
    _transform_strategy_validator C X nd e = (Ok tt, e2) /\
    statistics_ (obj e2) = Some stats /\
    log e2 = (log e ++ l)%list /\ Forall prep_event l /\ (nd = false -> l = []).
Proof.
  intros Hst Hs Hf Hreq. destruct e as [s rg lg]. cbn in Hst, Hs, Hreq.
  unfold _transform_strategy_validator, check_is_fitted, attr, bind, self, lift_option.
  cbn. rewrite Hst. cbn. rewrite Hs. cbn. rewrite Hf.
  destruct nd; cbn.
  - destruct (Hreq eq_refl) as (preds & Hp & Hall).
    unfold _prep_fit_dataframe, attr, bind, self, lift_option. cbn.
    rewrite Hp. cbn. rewrite Hall. cbn.
    destruct (scaler s); cbn; do 2 eexists; (split; [reflexivity|]); cbn;
      (split; [exact Hst|]); rewrite <- ?app_assoc; (split; [reflexivity|]);
      (split; [|discriminate]); apply Forall_forall; intros ev Hev; cbn in Hev;
      unfold prep_event; intuition (subst; auto).
  - exists (mkEnv s rg lg), []. rewrite app_nil_r. repeat split; auto.
Qed.

(** The loop of [transform] over columns without a null. *)
Lemma transform_loop_complete nd (stats : list (string * FitData C)) (X : DataFrame)
    (e : Env (t C)) imputed :
  imputed_ (obj e) = Some imputed ->
  (forall c, In c (keys stats) -> exists y, dict_get X c = Some y /\ isnull_index y = []) ->
  exists e', for_each (transform_column C nd) stats X e = (Ok X, e') /\
             log e' = log e /\ statistics_ (obj e') = statistics_ (obj e).
Proof.
  revert e imputed. induction stats as [|[c fd] stats IH]; intros e imputed Hi Hc;
    cbn [for_each].
  - exists e. repeat split.
  - destruct (Hc c (or_introl eq_refl)) as (y & Hy & Hn).
    destruct e as [s rg lg]. cbn in Hi.
    unfold bind at 1. unfold transform_column, getitem, attr, bind, self, lift_option.
    rewrite Hy. cbn. rewrite Hi. cbn. unfold isnull_index in Hn. rewrite Hn. cbn.
    destruct (IH (mkEnv (with_imputed_ C (dict_set imputed c []) s) rg lg)
                 (dict_set imputed c []) eq_refl
                 (fun c' H => Hc c' (or_intror H))) as (e' & He' & Hl & Hs).
    exists e'. split; [exact He'|]. split; [exact Hl | exact Hs].
Qed.

(** C9, amended: after a completed [fit], [transform] of a frame that
    passes the input check, holds every fitted column without a null and,
    when [new_data] is set, every column that the preparer requires,
    returns the frame as it is; it causes no event besides the re-encoding
    asked for by [new_data], so no column goes to an impute routine. *)
Theorem transform_complete_is_identity (X0 X : DataFrame) (nd : bool) (e0 e : Env (t C)) :
  fit C X0 e0 = (Ok tt, e) ->
  existsb (fun c => forallb isnull (snd c)) X = false ->
  (forall stats c, statistics_ (obj e) = Some stats -> In c (keys stats) ->
     exists y, dict_get X c = Some y /\ isnull_index y = []) ->
  (nd = true -> forall preds c, _preds (obj e) = Some preds ->
     In c (required_columns preds) -> In c (columns X)) ->
  exists e' l,
    transform C X nd e = (Ok X, e') /\
    log e' = (log e ++ l)%list /\ Forall prep_event l /\
    (forall c s, ~ In (EvImputeColumn c s) l).
Proof.
  intros Hfit Hnan Hcols Hreq.
  destruct (fit_Ok C X0 e0 e Hfit) as (stats & strats & Hst & Hs & _ & Hk).
  destruct (fit_Ok_preds C X0 e0 e Hfit) as (preds & Hp & _).
  assert (Hf : filter (fun c => negb (mem c (columns X))) (keys strats) = []).
  { destruct (filter _ _) as [|c l] eqn:E; [reflexivity|]. exfalso.
    assert (Hin : In c (filter (fun c => negb (mem c (columns X))) (keys strats)))
      by (rewrite E; now left).
    apply filter_In in Hin. destruct Hin as [Hin Hm].
    destruct (Hcols stats c Hst (proj2 (Hk c) Hin)) as (y & Hy & _).
    apply dict_get_Some_In in Hy. apply mem_In in Hy. unfold columns in Hm. unfold keys in Hy.
    rewrite Hy in Hm. discriminate. }
  assert (Hall : nd = true -> exists preds, _preds (obj e) = Some preds /\
            forallb (fun c => mem c (columns X)) (required_columns preds) = true).
  { intros Hnd. exists preds. split; [exact Hp|]. apply forallb_forall. intros c Hc.
    apply mem_In. exact (Hreq Hnd preds c Hp Hc). }
  destruct (transform_validator_run X nd e stats strats Hst Hs Hf Hall)
    as (e2 & l & Hv & Hst2 & Hl & Hpe & _).
  destruct (transform_loop_complete nd stats X
              (mkEnv (with_traces_ C [] (with_imputed_ C [] (obj e2))) (rng e2) (log e2))
              [] eq_refl (fun c H => Hcols stats c Hst H)) as (e' & Hloop & Hl' & _).
  exists e', l. split.
  - unfold transform, check_nan_columns. rewrite Hnan.
    unfold bind at 1. cbn [ret]. unfold bind at 1. rewrite Hv.
    unfold bind, set_self, attr, self, lift_option. cbn. rewrite Hst2. cbn. exact Hloop.
  - split; [rewrite Hl'; exact Hl|]. split; [exact Hpe|].
    intros c s Hin. rewrite Forall_forall in Hpe. apply Hpe in Hin.
    destruct Hin as [H|[H|H]]; discriminate H.
Qed.

End Predictive_claims.

Section Predictive_errors.
Import PredictiveImputer.
Variable C : Collaborators.

Lemma sc_weaken {T A} (E E' : error -> Prop) (m : M T A) :
  (forall err, E err -> E' err) -> stays_calm E m -> stays_calm E' m.
Proof.
  intros HE Hm e0 e He. specialize (Hm e0 e He).
  destruct (m e) as [[a|err] e1]; [exact Hm | split; [apply HE|]; apply Hm].
Qed.

Lemma calm_not_prep (ev : event) : calm_event ev -> ~ prep_event ev.
Proof. destruct ev; cbn; intros H [H1|[H1|H1]]; try discriminate H1; contradiction. Qed.

(** [transform] with [new_data] unset: nothing is re-encoded or scaled. *)
Lemma sc_transform_same_data (X : DataFrame) :
  stays_calm (fun _ => True) (transform C X false).
Proof.
  unfold transform.
  apply sc_bind;
    [unfold check_nan_columns; destruct (existsb _ X); [now apply sc_raise | apply sc_ret]|].
  intros _. apply sc_bind.
  - unfold _transform_strategy_validator, check_is_fitted.
    apply sc_bind.
    + apply sc_bind; [apply sc_self | intros s].
      destruct (statistics_ s); [apply sc_ret | now apply sc_raise].
    + intros _. apply sc_bind; [apply (sc_weaken loop_error); [auto | apply sc_attr]|].
      intros strats. destruct (filter _ _); [apply sc_ret | now apply sc_raise].
  - intros _. apply sc_bind; [apply sc_set_self | intros _].
    apply sc_bind; [apply sc_set_self | intros _].
    apply sc_bind; [apply (sc_weaken loop_error); [auto | apply sc_attr]|].
    intros stats. apply sc_for_each. intros entry X1.
    apply (sc_weaken loop_error); [auto | apply sc_transform_column].
Qed.

(** C2: [fit_transform(X)] is [fit(X)] followed, when [fit] returns, by
    [transform(X, new_data=False)], for every strategy and every frame; and
    [transform] with [new_data] unset causes no re-encoding or scaling. *)
Theorem fit_transform_is_fit_then_transform (X : DataFrame) (e : Env (t C)) :
  fit_transform C X e =
    match fit C X e with
    | (Ok _, e1) => transform C X false e1
    | (Raise err, e1) => (Raise err, e1)
    end /\
  forall e1, exists l,
    log (snd (transform C X false e1)) = (log e1 ++ l)%list /\
    Forall (fun ev => ~ prep_event ev) l.
Proof.
  split; [reflexivity|]. intros e1.
  pose proof (sc_transform_same_data X e1 e1 (calm_refl e1)) as H.
  assert (Hc : calm e1 (snd (transform C X false e1))).
  { destruct (transform C X false e1) as [[a|err] e2]; [exact H | apply H]. }
  destruct Hc as (l & Hl & Hf). exists l. split; [exact Hl|].
  eapply Forall_impl; [|exact Hf]. apply calm_not_prep.
Qed.

Lemma forallb_false {A} (f : A -> bool) (l : list A) :
  forallb f l = false <-> exists x, In x l /\ f x = false.
Proof.
  induction l as [|a l IH]; cbn.
  - split; [discriminate | intros (x & [] & _)].
  - rewrite andb_false_iff, IH. split.
    + intros [H|(x & Hx & H)]; [exists a | exists x]; auto.
    + intros (x & [->|Hx] & H); [now left | right; now exists x].
Qed.

Lemma mem_false (k : string) (l : list string) : mem k l = false <-> ~ In k l.
Proof.
  rewrite <- mem_In. destruct (mem k l); split; intros H;
    first [discriminate | reflexivity | exfalso; now apply H].
Qed.

(** C3, amended: for identifiers other than "none", the setter of
    [strategy] raises [UnknownStrategy] exactly when an identifier is not a
    key of the class attribute [strategies], that is not one of default,
    least squares, binary logistic, multinomial logistic, stochastic,
    bayesian least squares, bayesian binary logistic and pmm; in
    particular a [PredictiveImputer] with strategy "lrd" is refused. *)
Theorem strategy_setter_unknown :
  keys (strategies C) = supported /\
  (forall s, s <> "none" ->
     (strategy_setter C (StratStr s) = Raise UnknownStrategy <-> ~ In s supported)) /\
  (forall l, ~ In "none" l ->
     (strategy_setter C (StratList l) = Raise UnknownStrategy <->
      exists s, In s l /\ ~ In s supported)) /\
  (forall d, ~ In "none" (map snd d) ->
     (strategy_setter C (StratDict d) = Raise UnknownStrategy <->
      exists c s, In (c, s) d /\ ~ In s supported)) /\
  (forall p fv cp sc v,
     __init__ C (StratStr "lrd") p fv cp sc v = Raise UnknownStrategy).
Proof.
  split; [reflexivity|]. unfold strategy_setter, check_strategy_allowed.
  change (keys (strategies C)) with supported.
  split; [|split; [|split]].
  - intros s _. rewrite <- mem_false.
    destruct (mem s supported); split; intros H; first [discriminate H | reflexivity].
  - intros l _. destruct (forallb _ l) eqn:E.
    + split; [discriminate|]. intros (s & Hs & Hn).
      rewrite forallb_forall in E. apply E in Hs. apply mem_false in Hn. congruence.
    + split; [|reflexivity]. intros _. apply forallb_false in E.
      destruct E as (s & Hs & Hm). exists s. split; [exact Hs | now apply mem_false].
  - intros d _. destruct (forallb _ d) eqn:E.
    + split; [discriminate|]. intros (c & s & Hs & Hn).
      rewrite forallb_forall in E. apply E in Hs. apply mem_false in Hn.
      cbn [snd] in Hs. congruence.
    + split; [|reflexivity]. intros _. apply forallb_false in E.
      destruct E as ([c s] & Hs & Hm). exists c, s. split; [exact Hs | now apply mem_false].
  - intros p fv cp sc v. reflexivity.
Qed.

(** [transform] once the input check and the validator have passed. *)
Lemma transform_run X nd (e : Env (t C)) stats strats :
  existsb (fun c => forallb isnull (snd c)) X = false ->
  statistics_ (obj e) = Some stats -> _strats (obj e) = Some strats ->
  filter (fun c => negb (mem c (columns X))) (keys strats) = [] ->
  (nd = true -> exists preds, _preds (obj e) = Some preds /\
     forallb (fun c => mem c (columns X)) (required_columns preds) = true) ->
  exists e3, transform C X nd e = for_each (transform_column C nd) stats X e3.
Proof.
  intros Hnan Hst Hs Hf Hreq.
  destruct (transform_validator_run C X nd e stats strats Hst Hs Hf Hreq)
    as (e2 & l & Hv & Hst2 & _).
  exists (mkEnv (with_traces_ C [] (with_imputed_ C [] (obj e2))) (rng e2) (log e2)).
  unfold transform, check_nan_columns. rewrite Hnan.
  unfold bind at 1. cbn [ret]. unfold bind at 1. rewrite Hv.
  unfold bind, set_self, attr, self, lift_option. cbn. rewrite Hst2. reflexivity.
Qed.

(** The loop of [transform] never raises [SchemaMismatch]. *)
Lemma transform_loop_no_mismatch nd (stats : list (string * FitData C)) X (e3 : Env (t C)) :
  fst (for_each (transform_column C nd) stats X e3) <> Raise SchemaMismatch.
Proof.
  intros H.
  pose proof (sc_for_each loop_error (transform_column C nd) stats X
                (fun a x => sc_transform_column C nd a x) e3 e3 (calm_refl e3)) as Hc.
  destruct (for_each _ stats X e3) as [[a|err] e4]; cbn in H; [discriminate|].
  injection H as ->. destruct Hc as [[Hc|[Hc|Hc]] _]; discriminate Hc.
Qed.

(** C5, amended: [transform] raises [SchemaMismatch] exactly when the
    frame passes the input check, the imputer has statistics, and either
    some column that was given a strategy at fit time is absent from the
    frame, or [new_data] is set and some column that the preparer requires
    is absent; other columns of the frame, and their order, play no part. *)
Theorem transform_schema_mismatch_iff (X : DataFrame) (nd : bool) (e : Env (t C)) :
  fst (transform C X nd e) = Raise SchemaMismatch <->
  existsb (fun c => forallb isnull (snd c)) X = false /\
  statistics_ (obj e) <> None /\
  exists strats, _strats (obj e) = Some strats /\
    ((exists c, In c (keys strats) /\ ~ In c (columns X)) \/
     (nd = true /\ exists preds c, _preds (obj e) = Some preds /\
        In c (required_columns preds) /\ ~ In c (columns X))).
Proof.
  destruct (existsb (fun c => forallb isnull (snd c)) X) eqn:Hnan.
  { unfold transform, check_nan_columns. rewrite Hnan. cbn.
    split; [discriminate | intros [H _]; discriminate]. }
  destruct (statistics_ (obj e)) as [stats|] eqn:Hst.
  2:{ unfold transform, check_nan_columns, _transform_strategy_validator, check_is_fitted.
      rewrite Hnan. unfold bind, self, ret. cbn. rewrite Hst. cbn.
      split; [discriminate | intros (_ & H & _); contradiction]. }
  destruct (_strats (obj e)) as [strats|] eqn:Hs.
  2:{ unfold transform, check_nan_columns, _transform_strategy_validator, check_is_fitted, attr.
      rewrite Hnan. unfold bind, self, ret, lift_option. cbn. rewrite Hst. cbn. rewrite Hs. cbn.
      split; [discriminate | intros (_ & _ & s & H & _); discriminate]. }
  destruct (filter (fun c => negb (mem c (columns X))) (keys strats)) as [|c l] eqn:Hf.
  - assert (Hleft : ~ exists c, In c (keys strats) /\ ~ In c (columns X)).
    { intros (c & Hin & Hn).
      assert (Hc : In c (filter (fun c => negb (mem c (columns X))) (keys strats))).
      { apply filter_In. split; [exact Hin|]. apply mem_false in Hn. now rewrite Hn. }
      rewrite Hf in Hc. contradiction. }
    destruct nd.
    + destruct (_preds (obj e)) as [preds|] eqn:Hp.
      * destruct (forallb (fun c => mem c (columns X)) (required_columns preds)) eqn:Hall.
        -- destruct (transform_run X true e stats strats Hnan Hst Hs Hf) as (e3 & ->).
           { intros _. exists preds. split; [exact Hp | exact Hall]. }
           split.
           ++ intros H. now apply transform_loop_no_mismatch in H.
           ++ intros (_ & _ & strats' & [= <-] & [H|(_ & preds' & c & [= <-] & Hin & Hn)]).
              ** contradiction.
              ** rewrite forallb_forall in Hall. apply Hall in Hin.
                 apply mem_false in Hn. congruence.
        -- split.
           ++ intros _. split; [reflexivity|]. split; [discriminate|].
              exists strats. split; [reflexivity|]. right. split; [reflexivity|].
              apply forallb_false in Hall. destruct Hall as (c & Hin & Hm).
              exists preds, c. split; [reflexivity|]. split; [exact Hin|].
              now apply mem_false.
           ++ intros _.
              unfold transform, check_nan_columns, _transform_strategy_validator,
                check_is_fitted, _prep_fit_dataframe, attr.
              rewrite Hnan. unfold bind, self, ret, lift_option. cbn.
              rewrite Hst. cbn. rewrite Hs. cbn. rewrite Hf. rewrite Hp. cbn.
              rewrite Hall. reflexivity.
      * split.
        -- unfold transform, check_nan_columns, _transform_strategy_validator,
             check_is_fitted, _prep_fit_dataframe, attr.
           rewrite Hnan. unfold bind, self, ret, lift_option. cbn.
           rewrite Hst. cbn. rewrite Hs. cbn. rewrite Hf. rewrite Hp. cbn. discriminate.
        -- intros (_ & _ & strats' & [= <-] & [H|(_ & preds' & c & H & _)]);
             [contradiction | discriminate].
    + destruct (transform_run X false e stats strats Hnan Hst Hs Hf) as (e3 & ->);
        [discriminate|].
      split.
      * intros H. now apply transform_loop_no_mismatch in H.
      * intros (_ & _ & strats' & [= <-] & [H|(H & _)]); [contradiction | discriminate].
  - split.
    + intros _. split; [reflexivity|]. split; [discriminate|]. exists strats.
      split; [reflexivity|]. left. exists c.
      assert (Hc : In c (filter (fun c => negb (mem c (columns X))) (keys strats)))
        by (rewrite Hf; now left).
      apply filter_In in Hc. destruct Hc as [Hin Hm].
      split; [exact Hin|]. apply mem_false. now destruct (mem c (columns X)).
    + intros _.
      unfold transform, check_nan_columns, _transform_strategy_validator, check_is_fitted, attr.
      rewrite Hnan. unfold bind, self, ret, lift_option. cbn. rewrite Hst. cbn. rewrite Hs. cbn.
      rewrite Hf. reflexivity.
Qed.

(** C6, amended: a new instance has no statistics, and on an instance
    without statistics [transform] of a frame that passes the input check
    raises [NotFittedError] and leaves the instance as it was. *)
Theorem transform_without_statistics :
  (forall strategy p fv cp sc v s,
     __init__ C strategy p fv cp sc v = Ok s -> statistics_ s = None) /\
  (forall (X : DataFrame) (nd : bool) (e : Env (t C)),
     statistics_ (obj e) = None ->
     existsb (fun c => forallb isnull (snd c)) X = false ->
     transform C X nd e = (Raise NotFittedError, e)).
Proof.
  split.
  - intros strategy p fv cp sc v s. unfold __init__.
    destruct (strategy_setter C strategy); [|discriminate]. now intros [= <-].
  - intros X nd e Hst Hnan.
    unfold transform, check_nan_columns, _transform_strategy_validator, check_is_fitted.
    rewrite Hnan. unfold bind, self, ret. cbn. rewrite Hst. reflexivity.
Qed.

End Predictive_errors.

Section Mismatch.
Import PredictiveImputer.
Variable np : LRDImputer.Numerics.
Variable C : Collaborators.

(** C8: [LRDImputer.fit] on a response that is not numeric raises
    [StrategyMismatch] and leaves the imputer as it was, with no statistics
    stored and no regression fit; and a turn of the loop of
    [PredictiveImputer.fit] for a column with a numeric-only strategy and a
    response that is not numeric raises [StrategyMismatch] once the
    predictors are prepared, with nothing stored for the column. *)
Theorem numeric_only_rejects_categorical :
  (forall X y (e : Env LRDImputer.t),
     is_numeric y = false ->
     LRDImputer.fit np X y e = (Raise StrategyMismatch, e)) /\
  (forall (X : DataFrame) c name y x (e : Env (t C)),
     In name numeric_only -> dict_get X c = Some y -> is_numeric y = false ->
     fst (_prep_predictor_cols C c e) = Ok x ->
     fit_column C X (c, name) tt e = (Raise StrategyMismatch, e)).
Proof.
  split; [apply lrd_fit_categorical|].
  intros X c name y x e Hname Hy Hcat Hprep.
  destruct (_prep_predictor_cols C c e) as [r e1] eqn:Hp. cbn in Hprep. subst r.
  pose proof (prep_predictor_cols_Ok C c e e1 x Hp) as ->.
  assert (Hrow : forall f, dict_get (strategies C) name = Some f ->
            (forall v, f x (c, y) v e = (Raise StrategyMismatch, e)) ->
            fit_column C X (c, name) tt e = (Raise StrategyMismatch, e)).
  { intros f Hf Hr. unfold fit_column, bind, lift_option, getitem, self, ret.
    rewrite Hf, Hp, Hy, Hr. reflexivity. }
  unfold numeric_only in Hname. cbn [In] in Hname.
  destruct Hname as [<-|[<-|[<-|[<-|[]]]]];
    (eapply Hrow; [reflexivity|]); intros v;
    apply (fit_numeric_categorical C _ x (c, y) v e Hcat).
Qed.

End Mismatch.

(** ** Runs on concrete tables *)

Section Predictive_runs.
Import PredictiveImputer.

(** The same on the data of [Data]. *)
Lemma transform_splices_nulls_witness :
  let e0 := Data.fresh (Data.instance (StratDict [("A", "least squares")])) in
  let e := snd (fit plain Data.df_num e0) in
  let X' := [ ("A", [Data.n 1; Data.n 2; Data.n 1; Data.n 4]);
              ("B", [Data.n 10; Data.n 20; Data.n 30; Data.n 40]) ] in
  fit plain Data.df_num e0 = (Ok tt, e) /\
  fst (transform plain Data.df_num false e) = Ok X' /\
  columns X' = columns Data.df_num /\ shape X' = shape Data.df_num.
Proof.
  cbv zeta. split; [vm_compute; reflexivity|]. split; [vm_compute; reflexivity|].
  assert (Hfit : fit plain Data.df_num
                   (Data.fresh (Data.instance (StratDict [("A", "least squares")])))
                 = (Ok tt, snd (fit plain Data.df_num
                      (Data.fresh (Data.instance (StratDict [("A", "least squares")]))))))
    by (vm_compute; reflexivity).
  assert (Htr : transform plain Data.df_num false
                  (snd (fit plain Data.df_num
                          (Data.fresh (Data.instance (StratDict [("A", "least squares")])))))
                = (Ok [ ("A", [Data.n 1; Data.n 2; Data.n 1; Data.n 4]);
                        ("B", [Data.n 10; Data.n 20; Data.n 30; Data.n 40]) ],
                   snd (transform plain Data.df_num false
                      (snd (fit plain Data.df_num
                              (Data.fresh (Data.instance (StratDict [("A", "least squares")])))))))
    )
    by (vm_compute; reflexivity).
  destruct (transform_splices_nulls plain Data.df_num Data.df_num
              [ ("A", [Data.n 1; Data.n 2; Data.n 1; Data.n 4]);
                ("B", [Data.n 10; Data.n 20; Data.n 30; Data.n 40]) ]
              false
              (Data.fresh (Data.instance (StratDict [("A", "least squares")])))
              (snd (fit plain Data.df_num
                      (Data.fresh (Data.instance (StratDict [("A", "least squares")])))))
              (snd (transform plain Data.df_num false
                      (snd (fit plain Data.df_num
                              (Data.fresh (Data.instance (StratDict [("A", "least squares")])))))))
              Hfit Htr) as (H1 & H2 & _).
  split; assumption.
Defined.

(** The same on the data of [Data]. *)
Lemma transform_complete_is_identity_witness :
  let e0 := Data.fresh (Data.instance (StratDict [("A", "least squares")])) in
  let e := snd (fit plain Data.df_num e0) in
  exists e' l,
    transform plain Data.df_complete true e = (Ok Data.df_complete, e') /\
    log e' = (log e ++ l)%list /\ Forall prep_event l /\
    (forall c s, ~ In (EvImputeColumn c s) l).
Proof.
  cbv zeta.
  apply (transform_complete_is_identity plain Data.df_num Data.df_complete true
           (Data.fresh (Data.instance (StratDict [("A", "least squares")])))).
  - vm_compute; reflexivity.
  - vm_compute; reflexivity.
  - intros stats c Hst Hin. vm_compute in Hst. injection Hst as <-.
    cbn in Hin. destruct Hin as [<-|[]]. eexists. split; vm_compute; reflexivity.
  - intros _ preds c Hp Hin. vm_compute in Hp. injection Hp as <-.
    cbn in Hin. cbn. intuition.
Defined.

(** C9, as stated, fails: a frame whose fitted column has no missing value
    is refused by the input check when another of its columns is entirely
    null, and by the preparer, under [new_data], when it lacks a column
    that was a predictor at fit time. *)
Lemma transform_complete_is_refused :
  let e0 := Data.fresh (Data.instance (StratDict [("A", "least squares")])) in
  let e := snd (fit plain Data.df_num e0) in
  fit plain Data.df_num e0 = (Ok tt, e) /\
  option_map keys (statistics_ (obj e)) = Some ["A"] /\
  option_map isnull_index (dict_get Tables.df_void "A") = Some [] /\
  fst (transform plain Tables.df_void true e) = Raise AllColumnsNull /\
  fst (transform plain Tables.df_void false e) = Raise AllColumnsNull /\
  option_map isnull_index (dict_get Data.df_A "A") = Some [] /\
  fst (transform plain Data.df_A true e) = Raise SchemaMismatch.
Proof. cbv zeta. repeat split; vm_compute; reflexivity. Qed.

(** The same on the data of [Data]. *)
Lemma numeric_only_rejects_categorical_witness :
  let e := snd (fit plain Data.df_mix (Data.fresh (Data.instance (StratStr "least squares")))) in
  LRDImputer.fit LRDImputer.plain Data.X_obs Data.y_gender (Data.fresh (Data.lrd "random")) =
    (Raise StrategyMismatch, Data.fresh (Data.lrd "random")) /\
  fit_column plain Data.df_mix ("gender", "least squares") tt e = (Raise StrategyMismatch, e) /\
  statistics_ (obj e) = Some [].
Proof.
  cbv zeta.
  destruct (numeric_only_rejects_categorical LRDImputer.plain plain) as [H1 H2].
  split; [apply H1; reflexivity|]. split; [|vm_compute; reflexivity].
  apply (H2 Data.df_mix "gender" "least squares"
            [Data.c "m"; Data.c "f"; None; Data.c "f"]
            [[Data.n 30]; [Data.n 40]; [Data.n 50]; [None]]).
  - cbn. auto.
  - reflexivity.
  - reflexivity.
  - vm_compute; reflexivity.
Defined.

(** C3, as stated, fails: "lrd" and "none" are in the specification's
    enumeration, and the constructor refuses both. *)
Lemma lrd_and_none_are_refused :
  In "lrd" enumerated /\ In "none" enumerated /\
  Data.new (StratStr "lrd") = Raise UnknownStrategy /\
  Data.new (StratStr "none") = Raise UnknownStrategy /\
  Data.new (StratDict [("A", "lrd")]) = Raise UnknownStrategy.
Proof. vm_compute. intuition. Qed.

(** The same on the data of [Data]. *)
Lemma strategy_setter_unknown_witness :
  "lrd" <> "none" /\ ~ In "lrd" supported /\
  strategy_setter plain (StratStr "lrd") = Raise UnknownStrategy /\
  strategy_setter plain (StratStr "pmm") <> Raise UnknownStrategy.
Proof.
  destruct (strategy_setter_unknown plain) as (_ & H & _).
  assert (Hl : "lrd" <> "none") by discriminate.
  assert (Hp : "pmm" <> "none") by discriminate.
  assert (Hn : ~ In "lrd" supported).
  { unfold supported. cbn [In]. intros H0.
    repeat (destruct H0 as [H0|H0]; [discriminate H0|]). exact H0. }
  split; [exact Hl|]. split; [exact Hn|]. split.
  - apply (proj2 (H "lrd" Hl)). exact Hn.
  - intros H0. apply (proj1 (H "pmm" Hp)) in H0. apply H0.
    unfold supported. cbn [In]. do 7 right. left. reflexivity.
Defined.

(** C5, as stated, fails: a frame with a column unknown at fit time is
    transformed, and so is, with [new_data] unset, a frame that lacks a
    fit-time column for which no strategy was given. *)
Lemma transform_accepts_other_columns :
  let e1 := snd (fit plain Data.df_complete
                   (Data.fresh (Data.instance (StratStr "least squares")))) in
  let e2 := snd (fit plain Data.df_complete
                   (Data.fresh (Data.instance (StratDict [("A", "least squares")])))) in
  fst (fit plain Data.df_complete
         (Data.fresh (Data.instance (StratStr "least squares")))) = Ok tt /\
  columns Data.df_abc <> columns Data.df_complete /\
  fst (transform plain Data.df_abc true e1) = Ok Data.df_abc /\
  fst (fit plain Data.df_complete
         (Data.fresh (Data.instance (StratDict [("A", "least squares")])))) = Ok tt /\
  columns Data.df_A <> columns Data.df_complete /\
  fst (transform plain Data.df_A false e2) = Ok Data.df_A.
Proof.
  cbv zeta. repeat split; try discriminate; vm_compute; reflexivity.
Qed.

(** C6, as stated, fails: after a [fit] that raised in its loop, [fit] has
    not completed, yet [transform] does not raise [NotFittedError]: it
    returns the frame with its nulls. *)
Lemma transform_after_failed_fit :
  let e0 := Data.fresh (Data.instance (StratStr "least squares")) in
  Data.new (StratStr "least squares") = Ok (obj e0) /\
  fst (fit plain Data.df_mix e0) = Raise StrategyMismatch /\
  fst (transform plain Data.df_mix true (snd (fit plain Data.df_mix e0))) = Ok Data.df_mix.
Proof. cbv zeta. repeat split; vm_compute; reflexivity. Qed.

(** The same on the data of [Data]. *)
Lemma transform_without_statistics_witness :
  let e0 := Data.fresh (Data.instance (StratStr "default")) in
  Data.new (StratStr "default") = Ok (obj e0) /\
  statistics_ (obj e0) = None /\
  transform plain Data.df_num true e0 = (Raise NotFittedError, e0).
Proof.
  cbv zeta. destruct (transform_without_statistics plain) as [H1 H2].
  split; [vm_compute; reflexivity|]. split.
  - apply (H1 (StratStr "default") (PredStr "all") None true None false).
    vm_compute; reflexivity.
  - apply H2; vm_compute; reflexivity.
Defined.

End Predictive_runs.

(** * Further properties *)

(** ** Rules for [hoare] *)

Section Hoare_rules.
Context {T : Type}.
Variable P : Env T -> Prop.
Variable E : error -> Prop.

Lemma hoare_ret {A} (a : A) : hoare P E (ret a).
Proof. intros e He. exact He. Qed.

Lemma hoare_raise {A} (err : error) : E err -> hoare (A:=A) P E (raise err).
Proof. intros Herr e He. split; assumption. Qed.

Lemma hoare_bind {A B} (m : M T A) (k : A -> M T B) :
  hoare P E m -> (forall a, hoare P E (k a)) -> hoare P E (bind m k).
Proof. intros Hm Hk. eapply triple_bind; [apply Hm | intros a; apply Hk]. Qed.

Lemma hoare_self : hoare P E self.
Proof. intros e He. exact He. Qed.

Lemma hoare_lift_option {A} (err : error) (o : option A) :
  E err -> hoare P E (lift_option err o).
Proof. intros Herr. destruct o; [apply hoare_ret | now apply hoare_raise]. Qed.

Lemma hoare_if {A} (b : bool) (m1 m2 : M T A) :
  hoare P E m1 -> hoare P E m2 -> hoare P E (if b then m1 else m2).
Proof. destruct b; auto. Qed.

Lemma hoare_for_each {A X} (body : A -> X -> M T X) (l : list A) (x : X) :
  (forall a x, hoare P E (body a x)) -> hoare P E (for_each body l x).
Proof.
  intros Hb.
  apply (triple_for_each (fun _ => P) body (fun err e => E err /\ P e)).
  intros a x' _. apply Hb.
Qed.

Lemma hoare_for_list {A B} (f : A -> M T B) (l : list A) :
  (forall a, hoare P E (f a)) -> hoare P E (for_list f l).
Proof.
  intros Hf. induction l as [|a l IH]; cbn [for_list]; [apply hoare_ret|].
  apply hoare_bind; [apply Hf | intros b].
  apply hoare_bind; [apply IH | intros bs]. apply hoare_ret.
Qed.

(** What becomes of [P] when the method is run. *)
Lemma hoare_run {A} (m : M T A) (e : Env T) : hoare P E m -> P e -> P (snd (m e)).
Proof.
  intros H He. specialize (H e He). destruct (m e) as [[a|err] e']; [exact H | apply H].
Qed.

Lemma hoare_run_raise {A} (m : M T A) (e e' : Env T) err :
  hoare P E m -> P e -> m e = (Raise err, e') -> E err.
Proof. intros H He Hr. specialize (H e He). rewrite Hr in H. apply H. Qed.

End Hoare_rules.

(** Methods that read and write the object only: a property of the object
    that every write keeps is kept. *)
Section Object_rules.
Context {T : Type}.
Variable Q : T -> Prop.
Variable E : error -> Prop.

Lemma obj_set_self (f : T -> T) :
  (forall s, Q s -> Q (f s)) -> hoare (fun e => Q (obj e)) E (set_self f).
Proof. intros Hf e He. cbn. now apply Hf. Qed.

Lemma obj_emit (ev : event) : hoare (T:=T) (fun e => Q (obj e)) E (emit ev).
Proof. intros e He. exact He. Qed.

Lemma obj_draw {A} (f : N -> A) : hoare (T:=T) (fun e => Q (obj e)) E (draw f).
Proof. intros e He. exact He. Qed.

End Object_rules.

(** ** [PredictiveImputer.transform]: what it writes *)

Section Transform_writes.
Import PredictiveImputer.
Variable C : Collaborators.

(** A view of the object that the writes of [transform] leave alone; the
    prepared data and the scaler may be part of it when [new_data] is
    unset. *)
Variable V : Type.
Variable view : t C -> V.
Variable nd : bool.
Hypothesis view_imputed : forall v s, view (with_imputed_ C v s) = view s.
Hypothesis view_traces : forall v s, view (with_traces_ C v s) = view s.
Hypothesis view_data : nd = true -> forall v s, view (with__data C v s) = view s.
Variable v0 : V.

Let Keeps {A} (m : M (t C) A) : Prop :=
  hoare (fun e => view (obj e) = v0) (fun _ => True) m.

Ltac keeps :=
  repeat first
    [ apply hoare_ret | apply hoare_self
    | apply (obj_emit (fun s => view s = v0))
    | apply (obj_draw (fun s => view s = v0))
    | apply hoare_raise; exact I
    | apply hoare_lift_option; exact I
    | apply (obj_set_self (fun s => view s = v0));
      intros s Hs; rewrite ?view_imputed, ?view_traces; exact Hs
    | apply hoare_bind; [|intros ?]
    | apply hoare_if ].

Lemma keeps_attr {A} (f : t C -> option A) : Keeps (attr C f).
Proof. unfold Keeps, attr. keeps. Qed.

Lemma keeps_getitem (X : DataFrame) (c : string) : Keeps (getitem X c).
Proof. unfold Keeps, getitem. destruct (dict_get X c); keeps. Qed.

Lemma keeps_loc_setitem (X : DataFrame) (c : string) ix vals :
  Keeps (loc_setitem X c ix vals).
Proof. unfold Keeps, loc_setitem. destruct (dict_get X c); keeps. Qed.

Lemma keeps_pm_impute name X c x fill ix fv : Keeps (pm_impute C name X c x fill ix fv).
Proof. unfold Keeps, pm_impute. keeps. apply keeps_loc_setitem. Qed.

Lemma keeps_prep_predictor_cols c : Keeps (_prep_predictor_cols C c).
Proof. unfold Keeps, _prep_predictor_cols. keeps; apply keeps_attr. Qed.

Lemma keeps_transform_column entry X : Keeps (transform_column C nd entry X).
Proof.
  destruct entry as [c fd]. unfold Keeps, transform_column.
  apply hoare_bind; [apply keeps_getitem | intros y].
  apply hoare_bind; [apply keeps_attr | intros imputed].
  apply hoare_bind; [keeps | intros _].
  destruct (isnull_index (snd y)); [apply hoare_ret|].
  apply hoare_bind; [apply keeps_prep_predictor_cols | intros x].
  unfold when, _imp_least_squares_reg, _imp_logistic_reg, _imp_stochastic_reg,
    _imp_bayes_least_squares_reg, _imp_bayes_logistic_reg, _imp_pmm_reg.
  repeat first [ apply keeps_pm_impute | apply keeps_loc_setitem | apply keeps_attr
               | progress keeps ].
Qed.

Lemma keeps_validator X : Keeps (_transform_strategy_validator C X nd).
Proof.
  unfold Keeps, _transform_strategy_validator, check_is_fitted.
  apply hoare_bind.
  { apply hoare_bind; [apply hoare_self | intros s]. destruct (statistics_ s); keeps. }
  intros _. apply hoare_bind; [apply keeps_attr | intros strats].
  destruct (filter _ _); [|keeps]. destruct nd eqn:End; [|keeps].
  unfold _prep_fit_dataframe, _scaler_transform.
  apply hoare_bind.
  { apply hoare_bind; [apply keeps_attr | intros preds].
    destruct (forallb _ (required_columns preds)); [|keeps].
    apply hoare_bind; [keeps | intros _].
    apply (obj_set_self (fun s => view s = v0)). intros s Hs. now rewrite view_data. }
  intros _. apply hoare_bind; [apply hoare_self | intros s].
  destruct (scaler s); [|keeps].
  apply hoare_bind; [apply keeps_attr | intros d].
  apply hoare_bind; [keeps | intros _].
  apply (obj_set_self (fun s => view s = v0)). intros s' Hs. now rewrite view_data.
Qed.

Lemma keeps_transform X : Keeps (transform C X nd).
Proof.
  unfold Keeps, transform.
  apply hoare_bind;
    [unfold check_nan_columns; destruct (existsb _ X); keeps | intros _].
  apply hoare_bind; [apply keeps_validator | intros _].
  apply hoare_bind; [keeps | intros _].
  apply hoare_bind; [keeps | intros _].
  apply hoare_bind; [apply keeps_attr | intros stats].
  apply hoare_for_each. intros entry X1. apply keeps_transform_column.
Qed.

End Transform_writes.

Section Transform_reads.
Import PredictiveImputer.
Variable C : Collaborators.

(** X1: [transform] only reads what [fit] decided: whether it returns or
    raises, the strategy, the predictors, [fill_value], [copy], [verbose],
    [_strats], [_preds] and [statistics_] are as before; with [new_data]
    unset the prepared data and the scaler are as before too, so that
    only [imputed_] and [traces_] are written. *)
Theorem transform_keeps_fit (X : DataFrame) (nd : bool) (e : Env (t C)) :
  fitted_part (obj (snd (transform C X nd e))) = fitted_part (obj e) /\
  (nd = false ->
   _data (obj (snd (transform C X nd e))) = _data (obj e) /\
   scaler (obj (snd (transform C X nd e))) = scaler (obj e)).
Proof.
  split.
  - apply (hoare_run (fun e' => fitted_part (obj e') = fitted_part (obj e)) (fun _ => True)).
    + apply (keeps_transform C (Fitted C) fitted_part nd); reflexivity.
    + reflexivity.
  - intros ->.
    pose proof (hoare_run
      (fun e' => (_data (obj e'), scaler (obj e')) = (_data (obj e), scaler (obj e)))
      (fun _ => True) (transform C X false) e
      (keeps_transform C _ (fun s => (_data s, scaler s)) false
         (fun _ _ => eq_refl) (fun _ _ => eq_refl)
         (fun H => ltac:(discriminate H)) _ X) eq_refl) as H.
    cbn beta in H. injection H as H1 H2. split; assumption.
Qed.

End Transform_reads.

(** ** [PredictiveImputer.transform]: [imputed_] and [traces_] *)

Section Transform_records.
Import PredictiveImputer.
Variable C : Collaborators.

Lemma pm_impute_obj name X1 c x fill ix fv (e e' : Env (t C)) r :
  pm_impute C name X1 c x fill ix fv e = (r, e') -> obj e' = obj e.
Proof.
  unfold pm_impute, loc_setitem, bind, emit, draw, ret. cbn.
  destruct (dict_get X1 c); cbn; [|intros H; now injection H as _ <-].
  destruct (_ =? _); cbn; intros H; now injection H as _ <-.
Qed.

Lemma link_plain_obj c ix (b : bool) name X1 x fill (e e' : Env (t C)) X2 :
  when C b (bind (pm_impute C name X1 c x fill ix None) (fun r => ret (fst r))) X1 e
    = (Ok X2, e') ->
  obj e' = obj e.
Proof.
  unfold when. destruct b.
  - intros H. apply bind_Ok in H. destruct H as (r & e1 & Hr & H).
    injection H as _ <-. eapply pm_impute_obj, Hr.
  - intros H. now injection H as _ <-.
Qed.

Lemma link_traced_obj c ix (b : bool) name X1 x fill fv (e e' : Env (t C)) X2 :
  when C b
    (bind (pm_impute C name X1 c x fill ix fv) (fun r =>
     bind (attr C traces_) (fun traces =>
     bind (set_self (with_traces_ C (dict_set traces c (snd r)))) (fun _ =>
     ret (fst r))))) X1 e = (Ok X2, e') ->
  b = false /\ obj e' = obj e \/
  b = true /\ exists tr v, traces_ (obj e) = Some tr /\
                           obj e' = with_traces_ C (dict_set tr c v) (obj e).
Proof.
  unfold when. destruct b.
  - intros H. apply bind_Ok in H. destruct H as (r & e1 & Hr & H).
    apply pm_impute_obj in Hr.
    apply bind_Ok in H. destruct H as (tr & e2 & Ht & H). apply attr_Ok in Ht as [Ht ->].
    apply bind_Ok in H. destruct H as (u & e3 & Hs & H). injection Hs as _ <-.
    injection H as _ <-. right. split; [reflexivity|]. exists tr, (snd r). cbn.
    rewrite <- Hr. auto.
  - intros H. injection H as _ <-. now left.
Qed.

Lemma traced_tests (strat : string) :
  In strat traced <->
  String.eqb strat methods.BAYESIAN_LS = true \/
  String.eqb strat methods.BAYESIAN_BINARY_LOGISTIC = true \/
  String.eqb strat methods.PMM = true.
Proof.
  unfold traced. cbn [In]. rewrite !String.eqb_eq. intuition.
Qed.

(** What a turn of the loop writes when it returns. *)
Lemma transform_column_writes nd c (fd : FitData C) (X X1 : DataFrame) (e e1 : Env (t C))
    imp0 tr0 :
  transform_column C nd (c, fd) X e = (Ok X1, e1) ->
  imputed_ (obj e) = Some imp0 -> traces_ (obj e) = Some tr0 ->
  exists y tr1,
    dict_get X c = Some y /\
    imputed_ (obj e1) = Some (dict_set imp0 c (isnull_index y)) /\
    traces_ (obj e1) = Some tr1 /\
    forall c', In c' (keys tr1) <->
               In c' (keys tr0) \/
               c' = c /\ In (fd_strategy fd) traced /\ isnull_index y <> [].
Proof.
  unfold transform_column. intros H Hi Ht.
  apply bind_Ok in H. destruct H as (ys & e0 & Hy & H).
  apply getitem_Ok in Hy. destruct Hy as (y & Hy & -> & ->). cbn [snd] in H.
  apply bind_Ok in H. destruct H as (imputed & e2 & Hi2 & H).
  apply attr_Ok in Hi2 as [Hi2 ->]. rewrite Hi in Hi2. injection Hi2 as <-.
  apply bind_Ok in H. destruct H as (u & e3 & Hs & H). injection Hs as _ <-.
  exists y. destruct (isnull_index y) as [|i ix] eqn:Eix.
  - injection H as _ <-. exists tr0. cbn.
    split; [exact Hy|]. split; [reflexivity|]. split; [exact Ht|].
    intros c'. split; [auto | intros [H|(_ & _ & H)]; [exact H | contradiction]].
  - apply bind_Ok in H. destruct H as (x0 & e4 & H4 & H).
    apply prep_predictor_cols_Ok in H4 as ->.
    apply bind_Ok in H. destruct H as (x1 & e5 & H5 & H).
    apply lift_option_Ok in H5 as [_ ->].
    apply bind_Ok in H. destruct H as (x & e6 & H6 & H).
    assert (Ho6 : obj e6 = with_imputed_ C (dict_set imp0 c (i :: ix)) (obj e)).
    { destruct (existsb (existsb isnull) x1); injection H6 as _ <-; reflexivity. }
    apply bind_Ok in H. destruct H as (s & e7 & H7 & H). injection H7 as _ <-.
    apply bind_Ok in H. destruct H as (X1' & e8 & H1 & H).
    apply bind_Ok in H. destruct H as (X2 & e9 & H2 & H).
    apply bind_Ok in H. destruct H as (X3 & e10 & H3 & H).
    apply bind_Ok in H. destruct H as (X4 & e11 & H4 & H).
    apply bind_Ok in H. destruct H as (X5 & e12 & H5 & H).
    apply bind_Ok in H. destruct H as (X6 & e13 & H6' & H).
    apply bind_Ok in H. destruct H as (X7 & e14 & H7 & H).
    injection H as _ <-.
    apply link_plain_obj in H1. apply link_plain_obj in H2. apply link_plain_obj in H3.
    apply link_traced_obj in H4. apply link_traced_obj in H5. apply link_traced_obj in H6'.
    assert (e14 = e13) as ->.
    { unfold when in H7. destruct (String.eqb (fd_strategy fd) methods.NONE);
        now injection H7 as _ <-. }
    assert (H10 : imputed_ (obj e10) = Some (dict_set imp0 c (i :: ix)) /\
                  traces_ (obj e10) = Some tr0).
    { rewrite H3, H2, H1, Ho6. cbn. auto. }
    destruct H10 as [Hi10 Ht10].
    assert (Hstep : forall (b : bool) (ea eb : Env (t C)) tra,
              imputed_ (obj ea) = Some (dict_set imp0 c (i :: ix)) ->
              traces_ (obj ea) = Some tra ->
              (b = false /\ obj eb = obj ea \/
               b = true /\ exists tr v, traces_ (obj ea) = Some tr /\
                                        obj eb = with_traces_ C (dict_set tr c v) (obj ea)) ->
              imputed_ (obj eb) = Some (dict_set imp0 c (i :: ix)) /\
              exists trb, traces_ (obj eb) = Some trb /\
                forall c', In c' (keys trb) <-> In c' (keys tra) \/ c' = c /\ b = true).
    { intros b ea eb tra Hia Hta [[-> Ho]|[-> (tr & v & Htr & Ho)]]; rewrite Ho.
      - split; [exact Hia|]. exists tra. split; [exact Hta|].
        intros c'. split; [auto | intros [H|[_ H]]; [exact H | discriminate]].
      - cbn. split; [exact Hia|]. rewrite Hta in Htr. injection Htr as <-.
        eexists. split; [reflexivity|]. intros c'. rewrite keys_dict_set. intuition. }
    destruct (Hstep _ e10 e11 tr0 Hi10 Ht10 H4) as (Hi11 & tr11 & Ht11 & Hk11).
    destruct (Hstep _ e11 e12 tr11 Hi11 Ht11 H5) as (Hi12 & tr12 & Ht12 & Hk12).
    destruct (Hstep _ e12 e13 tr12 Hi12 Ht12 H6') as (Hi13 & tr13 & Ht13 & Hk13).
    exists tr13. split; [exact Hy|]. split; [exact Hi13|]. split; [exact Ht13|].
    intros c'. rewrite Hk13, Hk12, Hk11, traced_tests.
    assert (Hne : i :: ix <> []) by discriminate. intuition.
Qed.

Lemma col_rel_other c y ix (X X1 : DataFrame) (c' : string) :
  Forall2 (col_rel c y ix) X X1 -> c' <> c -> dict_get X1 c' = dict_get X c'.
Proof.
  intros H Hne.
  pose proof (Forall2_dict_get (col_rel c y ix) X X1 c' (fun p p1 H => proj1 H) H) as Hg.
  destruct (dict_get X c'), (dict_get X1 c'); try contradiction; [|reflexivity].
  destruct Hg as [_ [Hg|(Hg & _)]]; cbn in Hg; [now subst | contradiction].
Qed.

Lemma keys_dict_set_new {V} (d : list (string * V)) (k : string) (v : V) :
  ~ In k (keys d) -> keys (dict_set d k v) = (keys d ++ [k])%list.
Proof.
  induction d as [|[k0 v0] d IH]; cbn; [reflexivity|]. intros Hn.
  destruct (String.eqb_spec k0 k) as [->|Hk]; [exfalso; apply Hn; now left|].
  cbn. f_equal. apply IH. intros H. apply Hn. now right.
Qed.

(** The loop of [transform] over distinct columns. *)
Lemma transform_loop_writes nd (stats : list (string * FitData C)) (X X' : DataFrame)
    (e e' : Env (t C)) imp0 tr0 :
  for_each (transform_column C nd) stats X e = (Ok X', e') ->
  imputed_ (obj e) = Some imp0 -> traces_ (obj e) = Some tr0 ->
  NoDup (keys stats) -> (forall c, In c (keys stats) -> ~ In c (keys imp0)) ->
  exists imp' tr',
    imputed_ (obj e') = Some imp' /\ traces_ (obj e') = Some tr' /\
    keys imp' = (keys imp0 ++ keys stats)%list /\
    (forall c y, In c (keys stats) -> dict_get X c = Some y ->
                 dict_get imp' c = Some (isnull_index y)) /\
    (forall c, ~ In c (keys stats) -> dict_get imp' c = dict_get imp0 c) /\
    (forall c, In c (keys tr') <->
               In c (keys tr0) \/
               exists fd y, In (c, fd) stats /\ In (fd_strategy fd) traced /\
                            dict_get X c = Some y /\ isnull_index y <> []).
Proof.
  revert X e imp0 tr0. induction stats as [|[c fd] stats IH];
    intros X e imp0 tr0 H Hi Ht Hnd Hfresh; cbn [for_each] in H.
  - injection H as _ <-. exists imp0, tr0. cbn. rewrite app_nil_r.
    split; [exact Hi|]. split; [exact Ht|]. split; [reflexivity|].
    split; [intros c y []|]. split; [reflexivity|].
    intros c. split; [auto | intros [H|(fd & y & [] & _)]; exact H].
  - apply bind_Ok in H. destruct H as (X1 & e1 & H1 & H).
    pose proof (transform_column_frame C nd c fd X X1 e e1 H1) as (y0 & Hy0 & HJ & _).
    destruct (transform_column_writes nd c fd X X1 e e1 imp0 tr0 H1 Hi Ht)
      as (y & tr1 & Hy & Hi1 & Ht1 & Hk1).
    rewrite Hy0 in Hy. injection Hy as <-.
    cbn [keys map fst] in Hnd. inversion Hnd as [|? ? Hnin Hnd']; subst.
    assert (Hc0 : ~ In c (keys imp0)) by (apply Hfresh; now left).
    destruct (IH X1 e1 _ tr1 H Hi1 Ht1 Hnd') as (imp' & tr' & Hi' & Ht' & Hk & Hv & Ho & Hkt).
    { intros c' Hin Hin'. rewrite keys_dict_set in Hin'. destruct Hin' as [->|Hin'].
      - contradiction.
      - apply (Hfresh c'); [now right | exact Hin']. }
    exists imp', tr'. split; [exact Hi'|]. split; [exact Ht'|]. split; [|split; [|split]].
    + rewrite Hk, keys_dict_set_new by exact Hc0. cbn. now rewrite <- app_assoc.
    + intros c' y Hin Hy. cbn in Hin. destruct Hin as [<-|Hin].
      * rewrite Ho by exact Hnin. rewrite dict_get_dict_set, String.eqb_refl. congruence.
      * apply Hv; [exact Hin|].
        rewrite (col_rel_other c y0 _ X X1 c' HJ); [exact Hy|].
        intros ->. contradiction.
    + intros c' Hn. cbn in Hn. rewrite Ho by tauto. rewrite dict_get_dict_set.
      destruct (String.eqb_spec c c') as [->|_]; [exfalso; apply Hn; now left | reflexivity].
    + intros c'. rewrite Hkt, Hk1. split.
      * intros [[H0|(-> & Hs & Hn)]|(fd' & y & Hin & Hs & Hy & Hn)].
        -- now left.
        -- right. exists fd, y0. cbn. auto.
        -- right. exists fd', y. split; [now right|]. split; [exact Hs|]. split; [|exact Hn].
           rewrite <- (col_rel_other c y0 _ X X1 c' HJ); [exact Hy|].
           intros ->. apply Hnin. change c with (fst (c, fd')). now apply in_map.
      * intros [H0|(fd' & y & [Hin|Hin] & Hs & Hy & Hn)].
        -- left. now left.
        -- injection Hin as <- <-. left. right. rewrite Hy0 in Hy. injection Hy as <-. auto.
        -- right. exists fd', y. split; [exact Hin|]. split; [exact Hs|]. split; [|exact Hn].
           rewrite (col_rel_other c y0 _ X X1 c' HJ); [exact Hy|].
           intros ->. apply Hnin. change c with (fst (c, fd')). now apply in_map.
Qed.

Lemma NoDup_dict_set {V} (d : list (string * V)) (k : string) (v : V) :
  NoDup (keys d) -> NoDup (keys (dict_set d k v)).
Proof.
  intros H. destruct (in_dec string_dec k (keys d)) as [Hin|Hn].
  - replace (keys (dict_set d k v)) with (keys d); [exact H|].
    clear H. induction d as [|[k0 v0] d IH]; cbn in *; [contradiction|].
    destruct (String.eqb_spec k0 k) as [->|Hk]; cbn; [reflexivity|].
    f_equal. apply IH. destruct Hin as [Hin|Hin]; [contradiction | exact Hin].
  - rewrite keys_dict_set_new by exact Hn. apply NoDup_app; [exact H | repeat constructor; auto |].
    intros x Hx [<-|[]]. contradiction.
Qed.

Lemma fit_loop_NoDup X (l : list (string * string)) (e e' : Env (t C)) stats :
  statistics_ (obj e) = Some stats -> NoDup (keys stats) ->
  for_each (fit_column C X) l tt e = (Ok tt, e') ->
  exists stats', statistics_ (obj e') = Some stats' /\ NoDup (keys stats').
Proof.
  revert e stats. induction l as [|[c fn] l IH]; intros e stats Hst Hnd H; cbn [for_each] in H.
  - injection H as <-. now exists stats.
  - apply bind_Ok in H. destruct H as ([] & e1 & H1 & H).
    destruct (fit_column_Ok C X c fn e e1 stats Hst H1) as (fdata & Hst1 & _).
    apply (IH e1 _ Hst1 (NoDup_dict_set stats c fdata Hnd) H).
Qed.

Lemma fit_Ok_NoDup X (e e' : Env (t C)) stats :
  fit C X e = (Ok tt, e') -> statistics_ (obj e') = Some stats -> NoDup (keys stats).
Proof.
  unfold fit. intros H Hst.
  apply bind_Ok in H. destruct H as (u1 & e1 & _ & H).
  apply bind_Ok in H. destruct H as (u2 & e2 & _ & H).
  apply bind_Ok in H. destruct H as (u3 & e3 & H3 & H). injection H3 as _ <-.
  apply bind_Ok in H. destruct H as (strats & e4 & H4 & H). apply attr_Ok in H4 as [H4 ->].
  destruct (fit_loop_NoDup X strats
              (mkEnv (with_statistics_ C [] (obj e2)) (rng e2) (log e2)) e' []
              eq_refl (NoDup_nil _) H) as (stats' & Hst' & Hnd).
  congruence.
Qed.

(** [transform], from its call to the end of its loop. *)
Lemma transform_Ok_loop X nd (e e' : Env (t C)) X' :
  transform C X nd e = (Ok X', e') ->
  exists stats e3,
    statistics_ (obj e) = Some stats /\
    imputed_ (obj e3) = Some [] /\ traces_ (obj e3) = Some [] /\
    for_each (transform_column C nd) stats X e3 = (Ok X', e').
Proof.
  unfold transform. intros H.
  apply bind_Ok in H. destruct H as (u1 & e1 & H1 & H).
  apply check_nan_columns_run in H1. subst e1.
  apply bind_Ok in H. destruct H as (u2 & e2 & H2 & H).
  apply transform_validator_keeps in H2. destruct H2 as (H2 & _).
  apply bind_Ok in H. destruct H as (u3 & e3 & H3 & H). injection H3 as _ <-.
  apply bind_Ok in H. destruct H as (u4 & e4 & H4 & H). injection H4 as _ <-.
  apply bind_Ok in H. destruct H as (stats & e5 & H5 & H).
  apply attr_Ok in H5 as [H5 ->]. cbn in H5. rewrite H2 in H5.
  exists stats. eexists. split; [exact H5|]. split; [|split; [|exact H]]; reflexivity.
Qed.

(** X2: after a completed [fit], a [transform] that returns has recorded
    in [imputed_], for every fitted column and in the order of
    [statistics_], the row positions that were null in the input. *)
Theorem transform_records_imputed (X0 X X' : DataFrame) (nd : bool) (e0 e e' : Env (t C)) :
  fit C X0 e0 = (Ok tt, e) ->
  transform C X nd e = (Ok X', e') ->
  exists stats imp,
    statistics_ (obj e) = Some stats /\ imputed_ (obj e') = Some imp /\
    keys imp = keys stats /\
    forall c y, In c (keys stats) -> dict_get X c = Some y ->
                dict_get imp c = Some (isnull_index y).
Proof.
  intros Hfit Htr.
  destruct (transform_Ok_loop X nd e e' X' Htr) as (stats & e3 & Hst & Hi & Ht & Hloop).
  pose proof (fit_Ok_NoDup X0 e0 e stats Hfit Hst) as Hnd.
  destruct (transform_loop_writes nd stats X X' e3 e' [] [] Hloop Hi Ht Hnd (fun _ _ H => H))
    as (imp & tr & Hi' & _ & Hk & Hv & _).
  exists stats, imp. auto.
Qed.

(** X3: after a completed [fit], a [transform] that returns has a trace in
    [traces_] exactly for the fitted columns that had a null and whose
    strategy is bayesian least squares, bayesian binary logistic or pmm. *)
Theorem transform_records_traces (X0 X X' : DataFrame) (nd : bool) (e0 e e' : Env (t C)) :
  fit C X0 e0 = (Ok tt, e) ->
  transform C X nd e = (Ok X', e') ->
  exists stats tr,
    statistics_ (obj e) = Some stats /\ traces_ (obj e') = Some tr /\
    forall c, In c (keys tr) <->
              exists fd y, In (c, fd) stats /\ In (fd_strategy fd) traced /\
                           dict_get X c = Some y /\ isnull_index y <> [].
Proof.
  intros Hfit Htr.
  destruct (transform_Ok_loop X nd e e' X' Htr) as (stats & e3 & Hst & Hi & Ht & Hloop).
  pose proof (fit_Ok_NoDup X0 e0 e stats Hfit Hst) as Hnd.
  destruct (transform_loop_writes nd stats X X' e3 e' [] [] Hloop Hi Ht Hnd (fun _ _ H => H))
    as (imp & tr & _ & Ht' & _ & _ & _ & Hkt).
  exists stats, tr. split; [exact Hst|]. split; [exact Ht'|].
  intros c. rewrite Hkt. cbn. tauto.
Qed.

End Transform_records.

(** ** [PredictiveImputer]: [fit] followed by [transform] *)

Section Fit_then_transform.
Import PredictiveImputer.
Variable C : Collaborators.

Lemma fit_loop_columns X (l : list (string * string)) (e e' : Env (t C)) :
  for_each (fit_column C X) l tt e = (Ok tt, e') ->
  forall c, In c (keys l) -> In c (columns X).
Proof.
  revert e. induction l as [|[c fn] l IH]; intros e H c' Hin; cbn [for_each] in H.
  - destruct Hin.
  - apply bind_Ok in H. destruct H as ([] & e1 & H1 & H).
    cbn in Hin. destruct Hin as [<-|Hin]; [|eapply IH; eassumption].
    unfold fit_column in H1.
    apply bind_Ok in H1. destruct H1 as (f & e2 & _ & H1).
    apply bind_Ok in H1. destruct H1 as (x & e3 & _ & H1).
    apply bind_Ok in H1. destruct H1 as (y & e4 & H4 & _).
    apply getitem_Ok in H4. destruct H4 as (y0 & Hy & _).
    eapply dict_get_Some_In, Hy.
Qed.

Lemma fit_loop_keys X (l : list (string * string)) (e e' : Env (t C)) stats :
  statistics_ (obj e) = Some stats -> NoDup (keys l) ->
  (forall c, In c (keys l) -> ~ In c (keys stats)) ->
  for_each (fit_column C X) l tt e = (Ok tt, e') ->
  exists stats', statistics_ (obj e') = Some stats' /\
                 keys stats' = (keys stats ++ keys l)%list.
Proof.
  revert e stats. induction l as [|[c fn] l IH]; intros e stats Hst Hnd Hfresh H;
    cbn [for_each] in H.
  - injection H as <-. exists stats. cbn. now rewrite app_nil_r.
  - apply bind_Ok in H. destruct H as ([] & e1 & H1 & H).
    destruct (fit_column_Ok C X c fn e e1 stats Hst H1) as (fdata & Hst1 & _).
    cbn [keys map fst] in Hnd. inversion Hnd as [|? ? Hnin Hnd']; subst.
    assert (Hc : ~ In c (keys stats)) by (apply Hfresh; now left).
    destruct (IH e1 _ Hst1 Hnd') as (stats' & Hst' & Hk); [|exact H|].
    + intros c' Hin Hin'. rewrite keys_dict_set in Hin'. destruct Hin' as [->|Hin'].
      * contradiction.
      * apply (Hfresh c'); [now right | exact Hin'].
    + exists stats'. split; [exact Hst'|].
      rewrite Hk, keys_dict_set_new by exact Hc. cbn. now rewrite <- app_assoc.
Qed.

Lemma NoDup_dict_of {V} (l : list (string * V)) : NoDup (keys (dict_of l)).
Proof.
  unfold dict_of. assert (H : NoDup (keys (@nil (string * V)))) by constructor.
  revert H. generalize (@nil (string * V)).
  induction l as [|[k v] l IH]; intros d Hd; cbn; [exact Hd|].
  apply IH. now apply NoDup_dict_set.
Qed.

Lemma check_strategy_fit_Ok s cols (e e' : Env (t C)) strats :
  check_strategy_fit C s cols e = (Ok strats, e') -> NoDup (keys strats) /\ e' = e.
Proof.
  unfold check_strategy_fit.
  destruct s as [n | l | d |]; cbn.
  - intros H. injection H as <- <-. split; [apply NoDup_dict_of | reflexivity].
  - destruct (_ =? _); cbn; [|discriminate].
    intros H. injection H as <- <-. split; [apply NoDup_dict_of | reflexivity].
  - destruct (forallb _ _); cbn; [|discriminate].
    intros H. injection H as <- <-. split; [apply NoDup_dict_of | reflexivity].
  - discriminate.
Qed.

(** What is known once [fit] has returned. *)
Lemma fit_Ok_full X (e e' : Env (t C)) :
  fit C X e = (Ok tt, e') ->
  existsb (fun c => forallb isnull (snd c)) X = false /\
  exists stats strats,
    statistics_ (obj e') = Some stats /\ _strats (obj e') = Some strats /\
    keys stats = keys strats /\ NoDup (keys stats) /\
    (forall c, In c (keys strats) -> In c (columns X)).
Proof.
  unfold fit. intros H.
  apply bind_Ok in H. destruct H as (u1 & e1 & H1 & H).
  assert (Hnan : existsb (fun c => forallb isnull (snd c)) X = false).
  { unfold check_nan_columns in H1. destruct (existsb _ X); [discriminate | reflexivity]. }
  split; [exact Hnan|].
  apply bind_Ok in H. destruct H as (u2 & e2 & H2 & H).
  apply bind_Ok in H. destruct H as (u3 & e3 & H3 & H). injection H3 as _ <-.
  apply bind_Ok in H. destruct H as (strats & e4 & H4 & H). apply attr_Ok in H4 as [H4 ->].
  cbn in H4.
  assert (Hnd : NoDup (keys strats)).
  { unfold _fit_strategy_validator in H2.
    apply bind_Ok in H2. destruct H2 as (s & ea & Ha & H2). injection Ha as <- <-.
    apply bind_Ok in H2. destruct H2 as (strats' & eb & Hb & H2).
    apply check_strategy_fit_Ok in Hb. destruct Hb as [Hnd ->].
    apply bind_Ok in H2. destruct H2 as (ub & ec & Hc & H2). injection Hc as _ <-.
    apply bind_Ok in H2. destruct H2 as (preds & ed & Hd & H2).
    apply lift_option_Ok in Hd as [_ ->].
    apply bind_Ok in H2. destruct H2 as (ud & ee & He & H2). injection He as _ <-.
    apply bind_Ok in H2. destruct H2 as ([] & ef & Hf & H2).
    assert (Hs : _strats (obj e2) = Some strats').
    { apply prep_fit_dataframe_Ok in Hf. destruct Hf as (p & _ & _ & ->). cbn in H2.
      destruct (scaler (obj e1)).
      - unfold _scaler_fit_transform, attr, bind, self, emit, set_self, lift_option in H2.
        cbn in H2. injection H2 as _ <-. reflexivity.
      - injection H2 as _ <-. reflexivity. }
    rewrite Hs in H4. injection H4 as <-. exact Hnd. }
  destruct (fit_loop_keys X strats
              (mkEnv (with_statistics_ C [] (obj e2)) (rng e2) (log e2)) e' []
              eq_refl Hnd (fun _ _ H => H) H) as (stats & Hst & Hk).
  destruct (fit_loop_Ok C X strats
              (mkEnv (with_statistics_ C [] (obj e2)) (rng e2) (log e2)) e' []
              eq_refl (Forall_nil _) H) as (stats2 & Hst2 & _ & Hs2 & _).
  exists stats, strats. cbn in Hk, Hs2. split; [exact Hst|]. split; [congruence|].
  split; [exact Hk|]. split; [rewrite Hk; exact Hnd|].
  eapply fit_loop_columns, H.
Qed.

(** X4: a completed [fit] leaves in [statistics_] one entry for each
    column that was given a strategy, in the order of [_strats] and
    whatever the statistics were before; every such column is a column of
    the frame, and the frame has no column that is entirely null. *)
Theorem fit_statistics_keys (X : DataFrame) (e e' : Env (t C)) :
  fit C X e = (Ok tt, e') ->
  existsb (fun c => forallb isnull (snd c)) X = false /\
  exists stats strats,
    statistics_ (obj e') = Some stats /\ _strats (obj e') = Some strats /\
    keys stats = keys strats /\ NoDup (keys stats) /\
    (forall c, In c (keys stats) -> In c (columns X)) /\
    Forall (fun entry => In (fd_strategy (snd entry)) dispatched) stats.
Proof.
  intros H. destruct (fit_Ok_full X e e' H) as (Hnan & stats & strats & Hst & Hs & Hk & Hnd & Hc).
  split; [exact Hnan|]. exists stats, strats.
  destruct (fit_Ok C X e e' H) as (stats' & strats' & Hst' & _ & Hd & _).
  rewrite Hst in Hst'. injection Hst' as <-.
  repeat split; try assumption. intros c Hin. apply Hc. now rewrite <- Hk.
Qed.

Lemma keys_filter_nil (ks cols : list string) :
  (forall c, In c ks -> In c cols) ->
  filter (fun c => negb (mem c cols)) ks = [].
Proof.
  intros H. destruct (filter _ ks) as [|c l] eqn:E; [reflexivity|]. exfalso.
  assert (Hin : In c (filter (fun c => negb (mem c cols)) ks)) by (rewrite E; now left).
  apply filter_In in Hin. destruct Hin as [Hin Hm].
  apply H, mem_In in Hin. rewrite Hin in Hm. discriminate.
Qed.

(** X5: once [fit] has returned, [transform] of the same frame passes the
    input check and the validator: it raises neither [AllColumnsNull] nor
    [NotFittedError] nor [SchemaMismatch], and can only fail inside its
    loop; hence [fit_transform] fails where [fit] fails, or inside the
    loop of [transform]. *)
Theorem fit_transform_failures (X : DataFrame) (e : Env (t C)) :
  (forall e1 nd err e2,
     fit C X e = (Ok tt, e1) -> transform C X nd e1 = (Raise err, e2) -> loop_error err) /\
  (forall err e2,
     fit_transform C X e = (Raise err, e2) ->
     fit C X e = (Raise err, e2) \/ loop_error err).
Proof.
  assert (H1 : forall e1 nd err e2,
     fit C X e = (Ok tt, e1) -> transform C X nd e1 = (Raise err, e2) -> loop_error err).
  { intros e1 nd err e2 Hfit Htr.
    destruct (fit_Ok_full X e e1 Hfit) as (Hnan & stats & strats & Hst & Hs & _ & _ & Hc).
    destruct (fit_Ok_preds C X e e1 Hfit) as (preds & Hp & Hall).
    destruct (transform_run C X nd e1 stats strats Hnan Hst Hs
                (keys_filter_nil _ _ Hc)
                (fun _ => ex_intro _ preds (conj Hp Hall))) as (e3 & Hrun).
    rewrite Hrun in Htr.
    apply (hoare_run_raise (calm e3) loop_error _ e3 e2 err
             (sc_for_each loop_error (transform_column C nd) stats X
                (fun a x => sc_transform_column C nd a x) e3) (calm_refl e3) Htr). }
  split; [exact H1|]. intros err e2 H. unfold fit_transform, bind in H.
  destruct (fit C X e) as [[[]|err1] e1] eqn:Hfit.
  - right. eapply H1; [reflexivity | exact H].
  - left. injection H as -> ->. reflexivity.
Qed.

Lemma kept_not_all_null K (X X' : DataFrame) :
  Forall2 (kept K) X X' ->
  existsb (fun c => forallb isnull (snd c)) X = false ->
  existsb (fun c => forallb isnull (snd c)) X' = false.
Proof.
  induction 1 as [|p p' X X' (_ & Hl & Hv & _) _ IH]; cbn; [reflexivity|].
  rewrite !orb_false_iff. intros [Hp HX]. split; [|now apply IH].
  apply forallb_false in Hp. destruct Hp as (c & Hin & Hc).
  apply In_nth_error in Hin. destruct Hin as [i Hi].
  destruct c as [v|]; [|discriminate].
  apply Hv in Hi. apply forallb_false. exists (Some v).
  split; [eapply nth_error_In, Hi | reflexivity].
Qed.

Lemma transform_Ok_validated X nd (e e' : Env (t C)) X' :
  transform C X nd e = (Ok X', e') ->
  existsb (fun c => forallb isnull (snd c)) X = false /\
  (exists strats, _strats (obj e) = Some strats /\
                  filter (fun c => negb (mem c (columns X))) (keys strats) = []) /\
  (nd = true -> exists preds, _preds (obj e) = Some preds /\
     forallb (fun c => mem c (columns X)) (required_columns preds) = true).
Proof.
  unfold transform, check_nan_columns.
  destruct (existsb (fun c => forallb isnull (snd c)) X); [discriminate|].
  intros H. split; [reflexivity|].
  apply bind_Ok in H. destruct H as (u1 & e1 & H1 & H). injection H1 as _ <-.
  apply bind_Ok in H. destruct H as (u2 & e2 & H2 & _).
  unfold _transform_strategy_validator in H2.
  apply bind_Ok in H2. destruct H2 as (st & ea & Ha & H2).
  assert (ea = e) as ->.
  { unfold check_is_fitted, bind, self in Ha. cbn in Ha.
    destruct (statistics_ (obj e)); [now injection Ha as _ <- | discriminate]. }
  apply bind_Ok in H2. destruct H2 as (strats & eb & Hb & H2).
  apply attr_Ok in Hb as [Hb ->].
  destruct (filter _ _) eqn:Hf; [|discriminate]. split.
  - exists strats. split; [exact Hb | exact Hf].
  - intros ->. apply bind_Ok in H2. destruct H2 as ([] & ec & Hc & _).
    apply prep_fit_dataframe_Ok in Hc. destruct Hc as (preds & Hp & Hall & _).
    exists preds. split; assumption.
Qed.

(** [transform] of a frame whose fitted columns hold no null. *)
Lemma transform_identity X nd (e : Env (t C)) stats strats :
  existsb (fun c => forallb isnull (snd c)) X = false ->
  statistics_ (obj e) = Some stats -> _strats (obj e) = Some strats ->
  filter (fun c => negb (mem c (columns X))) (keys strats) = [] ->
  (nd = true -> exists preds, _preds (obj e) = Some preds /\
     forallb (fun c => mem c (columns X)) (required_columns preds) = true) ->
  (forall c, In c (keys stats) -> exists y, dict_get X c = Some y /\ isnull_index y = []) ->
  exists e', transform C X nd e = (Ok X, e').
Proof.
  intros Hnan Hst Hs Hf Hreq Hc.
  destruct (transform_validator_run C X nd e stats strats Hst Hs Hf Hreq)
    as (e2 & l & Hv & Hst2 & _).
  destruct (transform_loop_complete C nd stats X
              (mkEnv (with_traces_ C [] (with_imputed_ C [] (obj e2))) (rng e2) (log e2))
              [] eq_refl Hc) as (e' & Hloop & _).
  exists e'. unfold transform, check_nan_columns. rewrite Hnan.
  unfold bind at 1. cbn [ret]. unfold bind at 1. rewrite Hv.
  unfold bind, set_self, attr, self, lift_option. cbn. rewrite Hst2. cbn. exact Hloop.
Qed.

(** X6: [transform] is idempotent: after a completed [fit], the table
    returned by [transform] is accepted by a second [transform], which
    returns it as it is. *)
Theorem transform_idempotent (X0 X X' : DataFrame) (nd : bool) (e0 e e' : Env (t C)) :
  fit C X0 e0 = (Ok tt, e) ->
  transform C X nd e = (Ok X', e') ->
  exists e'', transform C X' nd e' = (Ok X', e'').
Proof.
  intros Hfit Htr.
  destruct (fit_Ok C X0 e0 e Hfit) as (stats & strats & Hst & Hs & Hd & Hk).
  destruct (transform_frame C X nd e e' X' stats Hst Hd Htr) as [HK HC].
  destruct (transform_Ok_validated X nd e e' X' Htr)
    as (Hnan & (strats' & Hs' & Hf) & Hreq).
  rewrite Hs in Hs'. injection Hs' as <-.
  pose proof (hoare_run (fun e1 => fitted_part (obj e1) = fitted_part (obj e)) (fun _ => True)
                (transform C X nd) e
                (keeps_transform C (Fitted C) fitted_part nd
                   (fun _ _ => eq_refl) (fun _ _ => eq_refl) (fun _ _ _ => eq_refl)
                   (fitted_part (obj e)) X) eq_refl) as Hkeep.
  rewrite Htr in Hkeep. cbn [snd] in Hkeep.
  assert (Hst' : statistics_ (obj e') = Some stats).
  { change (ft_statistics C (fitted_part (obj e')) = Some stats). now rewrite Hkeep. }
  assert (Hs' : _strats (obj e') = Some strats).
  { change (ft_strats C (fitted_part (obj e')) = Some strats). now rewrite Hkeep. }
  apply (transform_identity X' nd e' stats strats).
  - eapply kept_not_all_null; eassumption.
  - exact Hst'.
  - exact Hs'.
  - rewrite (kept_columns _ X X' HK). exact Hf.
  - intros Hnd. destruct (Hreq Hnd) as (preds & Hp & Hall).
    exists preds. split; [|rewrite (kept_columns _ X X' HK); exact Hall].
    change (ft_preds C (fitted_part (obj e')) = Some preds). now rewrite Hkeep.
  - intros c Hin.
    assert (Hcol : In c (columns X')).
    { rewrite (kept_columns _ X X' HK). apply Hk in Hin.
      destruct (mem c (columns X)) eqn:Hm; [now apply mem_In|]. exfalso.
      assert (Hc : In c (filter (fun c => negb (mem c (columns X))) (keys strats))).
      { apply filter_In. split; [exact Hin | now rewrite Hm]. }
      rewrite Hf in Hc. contradiction. }
    apply In_keys_dict_get in Hcol. destruct Hcol as [y' Hy'].
    exists y'. split; [exact Hy' | now apply (HC c Hin)].
Qed.

End Fit_then_transform.

(** ** [LRDImputer]: further properties *)

Section LRD_more.
Import LRDImputer.
Variable np : Numerics.

(** X7: [impute] only reads the arguments of the constructor, the
    regression and the statistics: whether it returns or raises, they are
    as before, so that it can be called again. *)
Theorem lrd_impute_keeps_fit (X : Predictors) (e : Env t) :
  lrd_fitted_part (obj (snd (impute np X e))) = lrd_fitted_part (obj e).
Proof.
  destruct (statistics_ (obj e)) as [st|] eqn:Hst.
  - rewrite (lrd_impute_fitted np X e st Hst).
    destruct (String.eqb _ "mean"); [reflexivity|].
    destruct (String.eqb _ "random"); reflexivity.
  - now rewrite (lrd_impute_unfitted np X e Hst).
Qed.

(** X8: when [impute] raises [InvalidFillValue], the imputer is left half
    updated: [trace_] holds the new posterior sample and the generator has
    made three draws, while [y_pred], [alphas] and [betas] are those of
    the call before. *)
Theorem lrd_impute_invalid_fill_value_state (X : Predictors) (e : Env t) (st : Statistics) :
  statistics_ (obj e) = Some st ->
  fill_value (obj e) <> "mean" -> fill_value (obj e) <> "random" ->
  let e' := snd (impute np X e) in
  trace_ (obj e') =
    Some (pm_sample np (p_model (param st)) (sample (obj e)) (tune (obj e))
            (init (obj e)) (rng e)) /\
  rng e' = (rng e + 3)%N /\
  y_pred (obj e') = y_pred (obj e) /\
  alphas (obj e') = alphas (obj e) /\
  betas (obj e') = betas (obj e).
Proof.
  intros Hst Hm Hr. cbv zeta. rewrite (lrd_impute_fitted np X e st Hst).
  destruct (String.eqb_spec (fill_value (obj e)) "mean"); [contradiction|].
  destruct (String.eqb_spec (fill_value (obj e)) "random"); [contradiction|].
  cbn. repeat split. lia.
Qed.

(** X9: a [fit] that returns has kept the prior means given by the
    caller: an [am] (or [bm]) that is set is not overwritten, and the model
    is built on it rather than on the intercept (or the coefficients) of
    the regression. *)
Theorem lrd_fit_keeps_given_prior_means (X : Predictors) (y : list cell) (e e1 : Env t) :
  fit np X y e = (Ok tt, e1) ->
  exists st,
    statistics_ (obj e1) = Some st /\
    (forall a, am (obj e) = Some a ->
       am (obj e1) = Some a /\ alpha_mean (p_model (param st)) = a) /\
    (forall b, bm (obj e) = Some b ->
       bm (obj e1) = Some b /\ beta_means (p_model (param st)) = b).
Proof.
  intros Hfit. destruct (is_numeric y) eqn:Hy.
  - destruct (lrd_fit_numeric np X y e Hy)
      as (s1 & Hf & Ha & Hb & _ & (st & Hst & Hal & Hbe & _) & _).
    rewrite Hf in Hfit. injection Hfit as <-. exists st.
    split; [exact Hst|]. cbn [obj]. split.
    + intros a Hsome. rewrite Hsome in Ha, Hal. auto.
    + intros b Hsome. rewrite Hsome in Hb, Hbe. auto.
  - rewrite (lrd_fit_categorical np X y e Hy) in Hfit. discriminate.
Qed.

(** X10: fitting again on the same data changes nothing in the imputer. *)
Theorem lrd_fit_twice (X : Predictors) (y : list cell) (e e1 e2 : Env t) :
  fit np X y e = (Ok tt, e1) -> fit np X y e1 = (Ok tt, e2) -> obj e2 = obj e1.
Proof.
  destruct e as [s r l]. destruct s as [oa ? ob].
  unfold fit, lm_fit, _not_num_series.
  destruct (is_numeric y); [|discriminate].
  unfold bind, ret, raise, self, set_self, emit. cbn.
  destruct oa, ob; cbn; intros H; injection H as <-; cbn;
    intros H; injection H as <-; reflexivity.
Qed.

(** X11: sampling is left to [impute]: [fit] makes no random draw and runs
    no sampler, whatever it is given; [impute] on a fitted imputer runs the
    sampler once, and with [fill_value="mean"] it makes three draws (the
    posterior sample, the choice of alpha and the draw of beta) whatever
    the number of rows, with "random" at least these three. *)
Theorem lrd_sampling_is_deferred (X : Predictors) (y : list cell) (e : Env t) :
  (rng (snd (fit np X y e)) = rng e /\
   (log (snd (fit np X y e)) = log e \/
    log (snd (fit np X y e)) = (log e ++ [EvLeastSquaresFit])%list)) /\
  (forall st, statistics_ (obj e) = Some st ->
     (fill_value (obj e) = "mean" ->
      rng (snd (impute np X e)) = (rng e + 3)%N /\
      log (snd (impute np X e)) =
        (log e ++ [EvPosteriorSample; EvRandomDraw; EvRandomDraw; EvRandomDraw])%list) /\
     (fill_value (obj e) = "random" ->
      exists k,
        rng (snd (impute np X e)) = (rng e + 3 + N.of_nat k)%N /\
        log (snd (impute np X e)) =
          (log e ++ EvPosteriorSample :: repeat EvRandomDraw (3 + k))%list)).
Proof.
  split.
  - destruct (is_numeric y) eqn:Hy.
    + destruct (lrd_fit_numeric np X y e Hy) as (s1 & Hf & _). rewrite Hf. cbn. auto.
    + rewrite (lrd_fit_categorical np X y e Hy). auto.
  - intros st Hst. rewrite (lrd_impute_fitted np X e st Hst). split.
    + intros ->. cbn. split; [lia | reflexivity].
    + intros ->. cbn. eexists. split; [|rewrite <- app_assoc; reflexivity]. lia.
Qed.

End LRD_more.

(** ** Missing-data patterns *)

Section Patterns_facts.
Import patterns.

Lemma nth_map_seq {A} (F : nat -> A) (p i : nat) (d : A) :
  i < p -> nth i (map F (seq 0 p)) d = F i.
Proof.
  intros H. apply nth_error_nth. rewrite nth_error_map, nth_error_seq.
  destruct (Nat.ltb_spec i p); [reflexivity | lia].
Qed.

Lemma entry_matmul_transpose (p : nat) (a b : ndarray nat) (i j : nat) :
  i < p -> j < p ->
  entry (matmul p (transpose p a) b) i j = dot (column i a) (column j b).
Proof.
  intros Hi Hj. unfold entry, matmul, transpose. rewrite map_map.
  rewrite (nth_map_seq _ p i [] Hi). now rewrite (nth_map_seq _ p j 0 Hj).
Qed.

Lemma dot_columns (f g : list cell -> list nat) (data : ndarray cell) (i j : nat) :
  dot (column i (map f data)) (column j (map g data)) =
  count (fun row => nth i (f row) 0 * nth j (g row) 0) data.
Proof.
  unfold dot, column, count. induction data as [|row data IH]; cbn; [reflexivity|].
  now rewrite IH.
Qed.

Lemma count_ext (h h' : list cell -> nat) (data : ndarray cell) :
  (forall row, In row data -> h row = h' row) -> count h data = count h' data.
Proof.
  unfold count. intros H. induction data as [|row data IH]; cbn; [reflexivity|].
  rewrite (H row) by now left. f_equal. apply IH. intros r Hr. apply H. now right.
Qed.

Lemma r_row (j : nat) (row : list cell) :
  nth j (map (fun b : bool => if b then 0 else 1) (map isnull row)) 0 = obs j row.
Proof.
  unfold obs. revert j. induction row as [|c row IH]; intros [|j]; cbn; try reflexivity.
  - now destruct c.
  - apply IH.
Qed.

Lemma m_row (j : nat) (row : list cell) :
  nth j (map (fun x => if x =? 0 then 1 else 0)
           (map (fun b : bool => if b then 0 else 1) (map isnull row))) 0 = mis j row.
Proof.
  unfold mis. revert j. induction row as [|c row IH]; intros [|j]; cbn; try reflexivity.
  - now destruct c.
  - apply IH.
Qed.

(** The four matrices, entry by entry. *)
Lemma md_pairs_entries (cols : list string) (data : ndarray cell) (i j : nat) :
  i < List.length cols -> j < List.length cols ->
  entry (rr (md_pairs cols data)) i j = count (fun row => obs i row * obs j row) data /\
  entry (rm (md_pairs cols data)) i j = count (fun row => obs i row * mis j row) data /\
  entry (mr (md_pairs cols data)) i j = count (fun row => mis i row * obs j row) data /\
  entry (mm (md_pairs cols data)) i j = count (fun row => mis i row * mis j row) data.
Proof.
  intros Hi Hj. unfold md_pairs. cbn [rr rm mr mm].
  rewrite !entry_matmul_transpose by assumption.
  unfold int_ln, int_ln_bool, pd_isnull. rewrite !map_map.
  rewrite !dot_columns.
  repeat split; apply count_ext; intros row _; now rewrite ?m_row, ?r_row.
Qed.

Lemma obs_mis (j : nat) (row : list cell) : j < List.length row -> obs j row + mis j row = 1.
Proof.
  intros H. unfold obs, mis. destruct (nth_error row j) as [[v|]|] eqn:E; try reflexivity.
  apply nth_error_None in E. lia.
Qed.

Lemma count_add (h h' : list cell -> nat) (data : ndarray cell) :
  count (fun row => h row + h' row) data = count h data + count h' data.
Proof. unfold count. induction data as [|row data IH]; cbn; [reflexivity|]. rewrite IH. lia. Qed.

Lemma count_one (data : ndarray cell) : count (fun _ => 1) data = List.length data.
Proof.
  unfold count. induction data as [|row data IH]; cbn [fold_right List.length];
    [reflexivity|]. now rewrite IH.
Qed.

Lemma count_zero (h : list cell -> nat) (data : ndarray cell) :
  count h data = 0 <-> forall row, In row data -> h row = 0.
Proof.
  unfold count. induction data as [|row data IH]; cbn.
  - split; [intros _ r [] | reflexivity].
  - rewrite Nat.eq_add_0, IH. split.
    + intros [H0 H] r [<-|Hr]; auto.
    + intros H. split; [apply H; now left | intros r Hr; apply H; now right].
Qed.

(** X12: for an array whose rows all have [p] cells, the four matrices of
    [md_pairs] split the rows at every pair of columns: the counts
    response-response, response-missing, missing-response and
    missing-missing add up to the number of rows. *)
Theorem md_pairs_partition (cols : list string) (data : ndarray cell) (i j : nat) :
  Forall (fun row => List.length row = List.length cols) data ->
  i < List.length cols -> j < List.length cols ->
  entry (rr (md_pairs cols data)) i j + entry (rm (md_pairs cols data)) i j +
  entry (mr (md_pairs cols data)) i j + entry (mm (md_pairs cols data)) i j =
  List.length data.
Proof.
  intros Hrect Hi Hj.
  destruct (md_pairs_entries cols data i j Hi Hj) as (-> & -> & -> & ->).
  rewrite <- (count_add (fun row => obs i row * obs j row) (fun row => obs i row * mis j row)).
  rewrite <- (count_add _ (fun row => mis i row * obs j row)).
  rewrite <- (count_add _ (fun row => mis i row * mis j row)).
  rewrite <- count_one. apply count_ext. intros row Hrow.
  rewrite Forall_forall in Hrect. specialize (Hrect row Hrow).
  pose proof (obs_mis i row ltac:(lia)). pose proof (obs_mis j row ltac:(lia)). nia.
Qed.

(** X13: the matrix of response-response counts and that of
    missing-missing counts are symmetric, and the matrix of
    missing-response counts is the transpose of that of response-missing
    counts. *)
Theorem md_pairs_symmetry (cols : list string) (data : ndarray cell) (i j : nat) :
  i < List.length cols -> j < List.length cols ->
  entry (rr (md_pairs cols data)) i j = entry (rr (md_pairs cols data)) j i /\
  entry (mm (md_pairs cols data)) i j = entry (mm (md_pairs cols data)) j i /\
  entry (mr (md_pairs cols data)) i j = entry (rm (md_pairs cols data)) j i.
Proof.
  intros Hi Hj.
  destruct (md_pairs_entries cols data i j Hi Hj) as (-> & _ & -> & ->).
  destruct (md_pairs_entries cols data j i Hj Hi) as (-> & -> & _ & ->).
  repeat split; apply count_ext; intros row _; apply Nat.mul_comm.
Qed.

Lemma obs_mis_zero (j : nat) (row : list cell) : obs j row * mis j row = 0.
Proof. unfold obs, mis. now destruct (nth_error row j) as [[v|]|]. Qed.

Lemma obs_square (j : nat) (row : list cell) : obs j row * obs j row = obs j row.
Proof. unfold obs. now destruct (nth_error row j) as [[v|]|]. Qed.

Lemma mis_square (j : nat) (row : list cell) : mis j row * mis j row = mis j row.
Proof. unfold mis. now destruct (nth_error row j) as [[v|]|]. Qed.

(** X14: on the diagonal, the response-missing and the missing-response
    counts are zero, the response-response count of a column is the number
    of its observed cells and the missing-missing count the number of its
    null cells. *)
Theorem md_pairs_diagonal (cols : list string) (data : ndarray cell) (i : nat) :
  i < List.length cols ->
  entry (rm (md_pairs cols data)) i i = 0 /\
  entry (mr (md_pairs cols data)) i i = 0 /\
  entry (rr (md_pairs cols data)) i i = count (obs i) data /\
  entry (mm (md_pairs cols data)) i i = count (mis i) data.
Proof.
  intros Hi. destruct (md_pairs_entries cols data i i Hi Hi) as (-> & -> & -> & ->).
  split; [apply count_zero; intros row _; apply obs_mis_zero|].
  split; [apply count_zero; intros row _; rewrite Nat.mul_comm; apply obs_mis_zero|].
  split; apply count_ext; intros row _; [apply obs_square | apply mis_square].
Qed.

End Patterns_facts.

Section Flux_facts.
Import patterns.

Lemma row_matmul_transpose (p : nat) (a b : ndarray nat) (i : nat) :
  i < p ->
  nth i (matmul p (transpose p a) b) [] =
  map (fun j => dot (column i a) (column j b)) (seq 0 p).
Proof.
  intros Hi. unfold matmul, transpose. rewrite map_map.
  now rewrite (nth_map_seq _ p i [] Hi).
Qed.

(** The rows of the four matrices. *)
Lemma md_pairs_rows (cols : list string) (data : ndarray cell) (i : nat) :
  i < List.length cols ->
  let row_of h := map (fun j => count (h j) data) (seq 0 (List.length cols)) in
  nth i (rr (md_pairs cols data)) [] = row_of (fun j row => obs i row * obs j row) /\
  nth i (rm (md_pairs cols data)) [] = row_of (fun j row => obs i row * mis j row) /\
  nth i (mr (md_pairs cols data)) [] = row_of (fun j row => mis i row * obs j row) /\
  nth i (mm (md_pairs cols data)) [] = row_of (fun j row => mis i row * mis j row).
Proof.
  intros Hi. cbv zeta. unfold md_pairs. cbn [rr rm mr mm].
  rewrite !row_matmul_transpose by assumption.
  unfold int_ln, int_ln_bool, pd_isnull. rewrite !map_map.
  repeat split; apply map_ext; intros j; rewrite dot_columns;
    apply count_ext; intros row _; now rewrite ?m_row, ?r_row.
Qed.

Lemma nth_add (a b : ndarray nat) (i : nat) :
  List.length a = List.length b ->
  nth i (add a b) [] =
  map (fun xy => fst xy + snd xy) (combine (nth i a []) (nth i b [])).
Proof.
  unfold add. revert b i. induction a as [|ra a IH]; intros [|rb b] i Hl;
    try discriminate Hl.
  - now destruct i.
  - destruct i as [|i]; cbn; [reflexivity|]. apply IH. cbn in Hl. lia.
Qed.

Lemma combine_map_seq {A B} (F : nat -> A) (G : nat -> B) (l : list nat) :
  combine (map F l) (map G l) = map (fun k => (F k, G k)) l.
Proof. induction l as [|k l IH]; cbn; [reflexivity|]. now rewrite IH. Qed.

Lemma nth_nansum1 (m : ndarray nat) (i : nat) :
  nth i (nansum1 m) 0 = fold_right Nat.add 0 (nth i m []).
Proof.
  unfold nansum1. revert i. induction m as [|r m IH]; intros [|i]; cbn; try reflexivity.
  apply IH.
Qed.

Lemma sum_zero (F : nat -> nat) (l : list nat) :
  (forall k, F k = 0) -> fold_right Nat.add 0 (map F l) = 0.
Proof. intros H. induction l as [|k l IH]; cbn; [reflexivity|]. now rewrite H, IH. Qed.

Lemma sum_member (F : nat -> nat) (l : list nat) (k : nat) :
  In k l -> F k <= fold_right Nat.add 0 (map F l).
Proof.
  induction l as [|k0 l IH]; cbn; [intros []|].
  intros [->|H]; [lia|]. specialize (IH H). lia.
Qed.

Lemma md_pairs_lengths (cols : list string) (data : ndarray cell) :
  List.length (rr (md_pairs cols data)) = List.length cols /\
  List.length (rm (md_pairs cols data)) = List.length cols /\
  List.length (mr (md_pairs cols data)) = List.length cols /\
  List.length (mm (md_pairs cols data)) = List.length cols.
Proof.
  unfold md_pairs, matmul, transpose. cbn [rr rm mr mm].
  now rewrite !length_map, length_seq.
Qed.

(** The sums behind [_influx] and [_outflux] for the column [i]. *)
Lemma flux_operands (cols : list string) (data : ndarray cell) (i : nat) :
  i < List.length cols ->
  let P := md_pairs cols data in
  let total h := fold_right Nat.add 0
                   (map (fun j => count (h j) data) (seq 0 (List.length cols))) in
  nth i (num (_influx P)) 0 = total (fun j row => mis i row * obs j row) /\
  nth i (denom (_influx P)) 0 =
    total (fun j row => mis i row * obs j row + obs i row * obs j row) /\
  nth i (num (_outflux P)) 0 = total (fun j row => obs i row * mis j row) /\
  nth i (denom (_outflux P)) 0 =
    total (fun j row => obs i row * mis j row + mis i row * mis j row).
Proof.
  intros Hi. cbv zeta. unfold _influx, _outflux. cbn [num denom].
  destruct (md_pairs_rows cols data i Hi) as (Hrr & Hrm & Hmr & Hmm).
  destruct (md_pairs_lengths cols data) as (Lrr & Lrm & Lmr & Lmm).
  rewrite !nth_nansum1, !nth_add by congruence.
  rewrite Hrr, Hrm, Hmr, Hmm, !combine_map_seq, !map_map. cbn [fst snd].
  repeat split; f_equal; apply map_ext; intros j; now rewrite count_add.
Qed.

(** X15: the influx of a column that is observed in every row has
    numerator zero and a denominator of at least the number of rows (the
    quotient is 0 when there is a row); the influx of a column that is
    missing in every row has its numerator equal to its denominator. *)
Theorem influx_extremes (cols : list string) (data : ndarray cell) (i : nat) :
  i < List.length cols ->
  let q := _influx (md_pairs cols data) in
  ((forall row, In row data -> obs i row = 1) ->
   nth i (num q) 0 = 0 /\ List.length data <= nth i (denom q) 0) /\
  ((forall row, In row data -> mis i row = 1) ->
   nth i (num q) 0 = nth i (denom q) 0).
Proof.
  intros Hi. cbv zeta.
  destruct (flux_operands cols data i Hi) as (-> & -> & _ & _). split.
  - intros Hobs. split.
    + apply sum_zero. intros j. apply count_zero. intros row Hrow.
      pose proof (obs_mis_zero i row) as H0. rewrite (Hobs row Hrow) in H0. nia.
    + etransitivity;
        [|apply (sum_member
                   (fun j => count (fun row => mis i row * obs j row + obs i row * obs j row) data)
                   _ i); apply in_seq; lia].
      rewrite <- count_one, count_add.
      rewrite (count_ext (fun _ => 1) (fun row => obs i row * obs i row)); [lia|].
      intros row Hrow. now rewrite (Hobs row Hrow).
  - intros Hmis. f_equal. apply map_ext. intros j. apply count_ext. intros row Hrow.
    pose proof (obs_mis_zero i row) as H0. rewrite (Hmis row Hrow) in H0. nia.
Qed.

(** X16: the outflux of a column that is observed in every row has its
    numerator equal to its denominator; the outflux of a column that is
    missing in every row has numerator zero. *)
Theorem outflux_extremes (cols : list string) (data : ndarray cell) (i : nat) :
  i < List.length cols ->
  let q := _outflux (md_pairs cols data) in
  ((forall row, In row data -> obs i row = 1) ->
   nth i (num q) 0 = nth i (denom q) 0) /\
  ((forall row, In row data -> mis i row = 1) ->
   nth i (num q) 0 = 0).
Proof.
  intros Hi. cbv zeta.
  destruct (flux_operands cols data i Hi) as (_ & _ & -> & ->). split.
  - intros Hobs. f_equal. apply map_ext. intros j. apply count_ext. intros row Hrow.
    pose proof (obs_mis_zero i row) as H0. rewrite (Hobs row Hrow) in H0. nia.
  - intros Hmis. apply sum_zero. intros j. apply count_zero. intros row Hrow.
    pose proof (obs_mis_zero i row) as H0. rewrite (Hmis row Hrow) in H0. nia.
Qed.

Lemma entry_add (cols : list string) (a b : ndarray nat) (F G : nat -> nat) (i j : nat) :
  List.length a = List.length b ->
  nth i a [] = map F (seq 0 (List.length cols)) ->
  nth i b [] = map G (seq 0 (List.length cols)) ->
  j < List.length cols ->
  entry (add a b) i j = F j + G j.
Proof.
  intros Hl Ha Hb Hj. unfold entry. rewrite nth_add by exact Hl.
  rewrite Ha, Hb, combine_map_seq, map_map. cbn [fst snd].
  now rewrite (nth_map_seq (fun k => F k + G k) _ j 0 Hj).
Qed.

(** X17: for an array whose rows all have [p] cells, the numerator and the
    denominator of the inbound statistic of the columns [j] and [k] are
    equal exactly when [k] is observed in every row where [j] is missing. *)
Theorem inbound_one_iff (cols : list string) (data : ndarray cell) (j k : nat) :
  Forall (fun row => List.length row = List.length cols) data ->
  j < List.length cols -> k < List.length cols ->
  let q := _inbound (md_pairs cols data) in
  entry (num q) j k = entry (denom q) j k <->
  forall row, In row data -> mis j row = 1 -> obs k row = 1.
Proof.
  intros Hrect Hj Hk. cbv zeta. unfold _inbound. cbn [num denom].
  destruct (md_pairs_rows cols data j Hj) as (_ & _ & Hmr & Hmm).
  destruct (md_pairs_lengths cols data) as (_ & _ & Lmr & Lmm).
  rewrite (entry_add cols _ _ _ _ j k (eq_trans Lmr (eq_sym Lmm)) Hmr Hmm Hk).
  destruct (md_pairs_entries cols data j k Hj Hk) as (_ & _ & -> & _).
  rewrite Forall_forall in Hrect. split.
  - intros H row Hrow Hm.
    assert (H0 : count (fun row => mis j row * mis k row) data = 0) by lia.
    rewrite count_zero in H0. specialize (H0 row Hrow). rewrite Hm in H0.
    pose proof (obs_mis k row ltac:(rewrite (Hrect row Hrow); exact Hk)). lia.
  - intros H.
    assert (H0 : count (fun row => mis j row * mis k row) data = 0); [|lia].
    apply count_zero. intros row Hrow. specialize (H row Hrow).
    pose proof (obs_mis k row ltac:(rewrite (Hrect row Hrow); exact Hk)).
    assert (Hc : mis j row = 0 \/ mis j row = 1)
      by (unfold mis; destruct (nth_error row j) as [[v|]|]; auto).
    destruct Hc as [Hc|Hc]; [rewrite Hc; reflexivity|]. specialize (H Hc). nia.
Qed.

(** X18: for an array whose rows all have [p] cells, the numerator and the
    denominator of the outbound statistic of the columns [j] and [k] are
    equal exactly when [k] is missing in every row where [j] is observed. *)
Theorem outbound_one_iff (cols : list string) (data : ndarray cell) (j k : nat) :
  Forall (fun row => List.length row = List.length cols) data ->
  j < List.length cols -> k < List.length cols ->
  let q := _outbound (md_pairs cols data) in
  entry (num q) j k = entry (denom q) j k <->
  forall row, In row data -> obs j row = 1 -> mis k row = 1.
Proof.
  intros Hrect Hj Hk. cbv zeta. unfold _outbound. cbn [num denom].
  destruct (md_pairs_rows cols data j Hj) as (Hrr & Hrm & _ & _).
  destruct (md_pairs_lengths cols data) as (Lrr & Lrm & _ & _).
  rewrite (entry_add cols _ _ _ _ j k (eq_trans Lrm (eq_sym Lrr)) Hrm Hrr Hk).
  destruct (md_pairs_entries cols data j k Hj Hk) as (_ & -> & _ & _).
  rewrite Forall_forall in Hrect. split.
  - intros H row Hrow Ho.
    assert (H0 : count (fun row => obs j row * obs k row) data = 0) by lia.
    rewrite count_zero in H0. specialize (H0 row Hrow). rewrite Ho in H0.
    pose proof (obs_mis k row ltac:(rewrite (Hrect row Hrow); exact Hk)). lia.
  - intros H.
    assert (H0 : count (fun row => obs j row * obs k row) data = 0); [|lia].
    apply count_zero. intros row Hrow. specialize (H row Hrow).
    pose proof (obs_mis k row ltac:(rewrite (Hrect row Hrow); exact Hk)).
    assert (Hc : obs j row = 0 \/ obs j row = 1)
      by (unfold obs; destruct (nth_error row j) as [[v|]|]; auto).
    destruct Hc as [Hc|Hc]; [rewrite Hc; reflexivity|]. specialize (H Hc). nia.
Qed.

End Flux_facts.

(** ** Further runs on concrete tables *)

Section Predictive_more_runs.
Import PredictiveImputer.

(** A run with [new_data] unset, on the data of [Data]. *)
Lemma transform_keeps_fit_witness :
  let e := snd (fit plain Data.df_num (Data.fresh (Data.instance (StratStr "pmm")))) in
  _data (obj (snd (transform plain Data.df_num false e))) = _data (obj e) /\
  scaler (obj (snd (transform plain Data.df_num false e))) = scaler (obj e).
Proof.
  cbv zeta.
  exact (proj2 (transform_keeps_fit plain Data.df_num false
                  (snd (fit plain Data.df_num
                          (Data.fresh (Data.instance (StratStr "pmm")))))) eq_refl).
Defined.

(** A run with the strategy [pmm], on the data of [Data]. *)
Lemma transform_records_imputed_witness :
  let e0 := Data.fresh (Data.instance (StratStr "pmm")) in
  let e := snd (fit plain Data.df_num e0) in
  let e' := snd (transform plain Data.df_num false e) in
  exists stats imp,
    statistics_ (obj e) = Some stats /\ imputed_ (obj e') = Some imp /\
    keys imp = keys stats /\
    forall c y, In c (keys stats) -> dict_get Data.df_num c = Some y ->
                dict_get imp c = Some (isnull_index y).
Proof.
  cbv zeta.
  apply (transform_records_imputed plain Data.df_num Data.df_num
           [ ("A", [Data.n 1; Data.n 2; Data.n 1; Data.n 4]);
             ("B", [Data.n 10; Data.n 20; Data.n 30; Data.n 40]) ]
           false (Data.fresh (Data.instance (StratStr "pmm")))).
  - vm_compute; reflexivity.
  - vm_compute; reflexivity.
Defined.

(** A run with the strategy [pmm], on the data of [Data]. *)
Lemma transform_records_traces_witness :
  let e0 := Data.fresh (Data.instance (StratStr "pmm")) in
  let e := snd (fit plain Data.df_num e0) in
  let e' := snd (transform plain Data.df_num false e) in
  exists stats tr,
    statistics_ (obj e) = Some stats /\ traces_ (obj e') = Some tr /\
    forall c, In c (keys tr) <->
              exists fd y, In (c, fd) stats /\ In (fd_strategy fd) traced /\
                           dict_get Data.df_num c = Some y /\ isnull_index y <> [].
Proof.
  cbv zeta.
  apply (transform_records_traces plain Data.df_num Data.df_num
           [ ("A", [Data.n 1; Data.n 2; Data.n 1; Data.n 4]);
             ("B", [Data.n 10; Data.n 20; Data.n 30; Data.n 40]) ]
           false (Data.fresh (Data.instance (StratStr "pmm")))).
  - vm_compute; reflexivity.
  - vm_compute; reflexivity.
Defined.

(** A fit of one column out of two, on the data of [Data]. *)
Lemma fit_statistics_keys_witness :
  let e0 := Data.fresh (Data.instance (StratDict [("A", "least squares")])) in
  let e' := snd (fit plain Data.df_num e0) in
  existsb (fun c => forallb isnull (snd c)) Data.df_num = false /\
  exists stats strats,
    statistics_ (obj e') = Some stats /\ _strats (obj e') = Some strats /\
    keys stats = keys strats /\ NoDup (keys stats) /\
    (forall c, In c (keys stats) -> In c (columns Data.df_num)) /\
    Forall (fun entry => In (fd_strategy (snd entry)) dispatched) stats.
Proof.
  cbv zeta.
  apply (fit_statistics_keys plain Data.df_num
           (Data.fresh (Data.instance (StratDict [("A", "least squares")])))).
  vm_compute; reflexivity.
Defined.

(** With models that predict nothing, [transform] fails in its loop. *)
Lemma fit_transform_failures_witness :
  let e0 := Data.fresh (Tables.new_mute (StratStr "least squares")) in
  let e1 := snd (fit Tables.mute Data.df_num e0) in
  fit Tables.mute Data.df_num e0 = (Ok tt, e1) /\
  fst (transform Tables.mute Data.df_num false e1) = Raise LengthMismatch /\
  loop_error LengthMismatch.
Proof.
  cbv zeta. split; [vm_compute; reflexivity|]. split; [vm_compute; reflexivity|].
  apply (proj1 (fit_transform_failures Tables.mute Data.df_num
                  (Data.fresh (Tables.new_mute (StratStr "least squares"))))
           (snd (fit Tables.mute Data.df_num
                   (Data.fresh (Tables.new_mute (StratStr "least squares")))))
           false LengthMismatch
           (snd (transform Tables.mute Data.df_num false
                   (snd (fit Tables.mute Data.df_num
                           (Data.fresh (Tables.new_mute (StratStr "least squares")))))))).
  - vm_compute; reflexivity.
  - vm_compute; reflexivity.
Defined.

(** The table of the first [transform] goes through a second one. *)
Lemma transform_idempotent_witness :
  let e0 := Data.fresh (Data.instance (StratStr "least squares")) in
  let e := snd (fit plain Data.df_num e0) in
  let e' := snd (transform plain Data.df_num false e) in
  let X' := [ ("A", [Data.n 1; Data.n 2; Data.n 1; Data.n 4]);
              ("B", [Data.n 10; Data.n 20; Data.n 30; Data.n 40]) ] in
  exists e'', transform plain X' false e' = (Ok X', e'').
Proof.
  cbv zeta.
  apply (transform_idempotent plain Data.df_num Data.df_num
           [ ("A", [Data.n 1; Data.n 2; Data.n 1; Data.n 4]);
             ("B", [Data.n 10; Data.n 20; Data.n 30; Data.n 40]) ]
           false (Data.fresh (Data.instance (StratStr "least squares")))
           (snd (fit plain Data.df_num
                   (Data.fresh (Data.instance (StratStr "least squares")))))).
  - vm_compute; reflexivity.
  - vm_compute; reflexivity.
Defined.

End Predictive_more_runs.

Section LRD_more_runs.
Import LRDImputer.

(** A fitted imputer with [fill_value="median"], on the data of [Data]. *)
Lemma lrd_impute_invalid_fill_value_state_witness :
  let e := snd (fit plain Data.X_obs Data.y_obs (Data.fresh (Data.lrd "median"))) in
  let e' := snd (impute plain Data.X_mis e) in
  rng e' = (rng e + 3)%N /\
  y_pred (obj e') = y_pred (obj e) /\
  alphas (obj e') = alphas (obj e) /\
  betas (obj e') = betas (obj e).
Proof.
  cbv zeta.
  assert (Hm : fill_value (obj (snd (fit plain Data.X_obs Data.y_obs
                 (Data.fresh (Data.lrd "median"))))) <> "mean")
    by (vm_compute; discriminate).
  assert (Hr : fill_value (obj (snd (fit plain Data.X_obs Data.y_obs
                 (Data.fresh (Data.lrd "median"))))) <> "random")
    by (vm_compute; discriminate).
  exact (proj2 (lrd_impute_invalid_fill_value_state plain Data.X_mis
                  (snd (fit plain Data.X_obs Data.y_obs (Data.fresh (Data.lrd "median"))))
                  _ eq_refl Hm Hr)).
Defined.

(** An imputer built with [am=5] and [bm=7], on the data of [Data]. *)
Lemma lrd_fit_keeps_given_prior_means_witness :
  let e1 := snd (fit plain Data.X_obs Data.y_obs (Data.fresh Tables.lrd_given)) in
  fit plain Data.X_obs Data.y_obs (Data.fresh Tables.lrd_given) = (Ok tt, e1) /\
  am (obj e1) = Some (inject_Z 5) /\
  bm (obj e1) = Some (BmScalar (inject_Z 7)).
Proof.
  cbv zeta.
  assert (Hfit : fit plain Data.X_obs Data.y_obs (Data.fresh Tables.lrd_given) =
                 (Ok tt, snd (fit plain Data.X_obs Data.y_obs (Data.fresh Tables.lrd_given))))
    by (vm_compute; reflexivity).
  split; [exact Hfit|].
  destruct (lrd_fit_keeps_given_prior_means plain Data.X_obs Data.y_obs
              (Data.fresh Tables.lrd_given) _ Hfit) as (st & _ & Ha & Hb).
  split; [exact (proj1 (Ha _ eq_refl)) | exact (proj1 (Hb _ eq_refl))].
Defined.

(** Two fits in a row, on the data of [Data]. *)
Lemma lrd_fit_twice_witness :
  let e1 := snd (fit plain Data.X_obs Data.y_obs (Data.fresh (Data.lrd "random"))) in
  let e2 := snd (fit plain Data.X_obs Data.y_obs e1) in
  obj e2 = obj e1.
Proof.
  cbv zeta.
  apply (lrd_fit_twice plain Data.X_obs Data.y_obs (Data.fresh (Data.lrd "random"))).
  - vm_compute; reflexivity.
  - vm_compute; reflexivity.
Defined.

(** A fitted imputer with [fill_value="mean"], on the data of [Data]. *)
Lemma lrd_sampling_is_deferred_witness :
  let e := snd (fit plain Data.X_obs Data.y_obs (Data.fresh (Data.lrd "mean"))) in
  rng (snd (impute plain Data.X_mis e)) = 3%N /\
  log (snd (impute plain Data.X_mis e)) =
    (log e ++ [EvPosteriorSample; EvRandomDraw; EvRandomDraw; EvRandomDraw])%list.
Proof.
  cbv zeta.
  exact (proj1 (proj2 (lrd_sampling_is_deferred plain Data.X_mis []
                         (snd (fit plain Data.X_obs Data.y_obs
                                 (Data.fresh (Data.lrd "mean")))))
                  _ eq_refl) eq_refl).
Defined.

End LRD_more_runs.

Section Patterns_runs.
Import patterns.

(** On the rows of [Data.df_num]. *)
Lemma md_pairs_partition_witness :
  let pairs := md_pairs ["A"; "B"] Tables.rows_num in
  entry (rr pairs) 0 1 + entry (rm pairs) 0 1 +
  entry (mr pairs) 0 1 + entry (mm pairs) 0 1 = 4.
Proof.
  cbv zeta.
  apply (md_pairs_partition ["A"; "B"] Tables.rows_num 0 1).
  - repeat constructor.
  - simpl; lia.
  - simpl; lia.
Defined.

(** On the rows of [Data.df_num]. *)
Lemma md_pairs_symmetry_witness :
  let pairs := md_pairs ["A"; "B"] Tables.rows_num in
  entry (rr pairs) 0 1 = entry (rr pairs) 1 0 /\
  entry (mm pairs) 0 1 = entry (mm pairs) 1 0 /\
  entry (mr pairs) 0 1 = entry (rm pairs) 1 0.
Proof.
  cbv zeta.
  apply (md_pairs_symmetry ["A"; "B"] Tables.rows_num 0 1); simpl; lia.
Defined.

(** On the rows of [Data.df_num]. *)
Lemma md_pairs_diagonal_witness :
  let pairs := md_pairs ["A"; "B"] Tables.rows_num in
  entry (rm pairs) 0 0 = 0 /\ entry (mr pairs) 0 0 = 0 /\
  entry (rr pairs) 0 0 = 3 /\ entry (mm pairs) 0 0 = 1.
Proof.
  cbv zeta.
  apply (md_pairs_diagonal ["A"; "B"] Tables.rows_num 0); simpl; lia.
Defined.

(** The complete column of [Tables.rows_num] and the empty column of
    [Tables.rows_gap]. *)
Lemma influx_extremes_witness :
  (nth 1 (num (_influx (md_pairs ["A"; "B"] Tables.rows_num))) 0 = 0 /\
   4 <= nth 1 (denom (_influx (md_pairs ["A"; "B"] Tables.rows_num))) 0) /\
  nth 1 (num (_influx (md_pairs ["A"; "B"] Tables.rows_gap))) 0 =
  nth 1 (denom (_influx (md_pairs ["A"; "B"] Tables.rows_gap))) 0.
Proof.
  split.
  - apply (proj1 (influx_extremes ["A"; "B"] Tables.rows_num 1 ltac:(simpl; lia))).
    intros row H. simpl in H. intuition (subst; reflexivity).
  - apply (proj2 (influx_extremes ["A"; "B"] Tables.rows_gap 1 ltac:(simpl; lia))).
    intros row H. simpl in H. intuition (subst; reflexivity).
Defined.

(** The complete column of [Tables.rows_num] and the empty column of
    [Tables.rows_gap]. *)
Lemma outflux_extremes_witness :
  nth 1 (num (_outflux (md_pairs ["A"; "B"] Tables.rows_num))) 0 =
  nth 1 (denom (_outflux (md_pairs ["A"; "B"] Tables.rows_num))) 0 /\
  nth 1 (num (_outflux (md_pairs ["A"; "B"] Tables.rows_gap))) 0 = 0.
Proof.
  split.
  - apply (proj1 (outflux_extremes ["A"; "B"] Tables.rows_num 1 ltac:(simpl; lia))).
    intros row H. simpl in H. intuition (subst; reflexivity).
  - apply (proj2 (outflux_extremes ["A"; "B"] Tables.rows_gap 1 ltac:(simpl; lia))).
    intros row H. simpl in H. intuition (subst; reflexivity).
Defined.

(** In [Tables.rows_num] the second column is observed where the first is
    missing. *)
Lemma inbound_one_iff_witness :
  entry (num (_inbound (md_pairs ["A"; "B"] Tables.rows_num))) 0 1 =
  entry (denom (_inbound (md_pairs ["A"; "B"] Tables.rows_num))) 0 1.
Proof.
  apply (proj2 (inbound_one_iff ["A"; "B"] Tables.rows_num 0 1
                  ltac:(repeat constructor) ltac:(simpl; lia) ltac:(simpl; lia))).
  intros row H. simpl in H. intuition (subst; try reflexivity; try discriminate).
Defined.

(** In [Tables.rows_gap] the second column is missing where the first is
    observed. *)
Lemma outbound_one_iff_witness :
  entry (num (_outbound (md_pairs ["A"; "B"] Tables.rows_gap))) 0 1 =
  entry (denom (_outbound (md_pairs ["A"; "B"] Tables.rows_gap))) 0 1.
Proof.
  apply (proj2 (outbound_one_iff ["A"; "B"] Tables.rows_gap 0 1
                  ltac:(repeat constructor) ltac:(simpl; lia) ltac:(simpl; lia))).
  intros row H. simpl in H. intuition (subst; try reflexivity; try discriminate).
Defined.

End Patterns_runs.
